(** * Permafrost Engine: simulation core

    A shallow embedding of the parts of [src/anim/anim.c], [src/event.c],
    [src/game/game.c] and [src/scene.c] that carry the engine's documented
    properties: the skeletal animation sampler, the event bus, the world
    registry with its faction/diplomacy table, the double-buffered render
    workspaces and the scene loader.

    Conventions.
    - C integers are [Z]; where the source relies on a fixed width
      ([uint32_t] tick arithmetic, the 64-bit handler key) the wrap-around
      is written out.
    - C arrays and [vec_*] vectors are lists, read with [arr_get]; an
      out-of-range read is undefined behaviour in C and a [Fault] (or
      [None]) here.
    - khash tables are [gmap]s; [kh_foreach] visits [map_to_list].
    - A failed [assert] aborts the program: the operation yields [None].
    - Pointers to entities are keys of an explicit heap, so that the
      aliasing between the registry, the visibility vectors and the
      deferred-free list is kept. *)

From Stdlib Require Import ZArith List String Ascii Bool Lia.
From Stdlib Require Import Floats.SpecFloat.
From stdpp Require Import base option list gmap strings.

Open Scope Z_scope.

(** ** Arrays *)

(** [a[i]] for a C array modelled as a list. *)
Definition arr_get {A : Type} (a : list A) (i : Z) : option A :=
  if i <? 0 then None else a !! Z.to_nat i.

(** [a[i] = x]; the caller guards the index. *)
Definition arr_set {A : Type} (a : list A) (i : Z) (x : A) : list A :=
  if i <? 0 then a else <[Z.to_nat i := x]> a.

(** ** Scalars and 4x4 matrices (pf_math) *)

(** The scalar type of the matrix code. The engine uses [float]; the
    carrier and its operations are parameters, so that the same matrix
    code runs on binary32 and on exact scalars. No algebraic law is
    assumed of them. *)
Class Scalar := {
  R : Type;
  rO : R;
  rI : R;
  radd : R -> R -> R;
  rmul : R -> R -> R;
  rsub : R -> R -> R;
  ropp : R -> R
}.

Module PFM.
Section Mat.
Context `{Scalar}.
Local Open Scope nat_scope.

Record vec3_t := Vec3 { vx : R; vy : R; vz : R }.
Record quat_t := Quat { qx : R; qy : R; qz : R; qw : R }.

(** [mat4x4_t]: [cols[c][r]], column-major. Field [mCR] is [cols[C][R]]. *)
Record mat4x4_t := Mat4 {
  m00 : R; m01 : R; m02 : R; m03 : R;
  m10 : R; m11 : R; m12 : R; m13 : R;
  m20 : R; m21 : R; m22 : R; m23 : R;
  m30 : R; m31 : R; m32 : R; m33 : R
}.

Definition cols (m : mat4x4_t) (c r : nat) : R :=
  match c, r with
  | 0, 0 => m00 m | 0, 1 => m01 m | 0, 2 => m02 m | 0, 3 => m03 m
  | 1, 0 => m10 m | 1, 1 => m11 m | 1, 2 => m12 m | 1, 3 => m13 m
  | 2, 0 => m20 m | 2, 1 => m21 m | 2, 2 => m22 m | 2, 3 => m23 m
  | 3, 0 => m30 m | 3, 1 => m31 m | 3, 2 => m32 m | 3, 3 => m33 m
  | _, _ => rO
  end.

Definition mat_of (f : nat -> nat -> R) : mat4x4_t :=
  Mat4 (f 0 0) (f 0 1) (f 0 2) (f 0 3)
       (f 1 0) (f 1 1) (f 1 2) (f 1 3)
       (f 2 0) (f 2 1) (f 2 2) (f 2 3)
       (f 3 0) (f 3 1) (f 3 2) (f 3 3).

(** Modelled from the spec: [PFM_Mat4x4_Identity] and [PFM_Mat4x4_Mult4x4]
    are defined in pf_math.c, which is not under src/. The spec's "T·R·S"
    and "parent's pose matrix × local transform" are the 4x4 matrix
    product; [Mult4x4 a b] is [a × b], written for the column-major layout
    of [mat4x4_t]. *)
Definition PFM_Mat4x4_Identity : mat4x4_t :=
  mat_of (fun c r => if Nat.eqb c r then rI else rO).

Definition PFM_Mat4x4_Mult4x4 (op1 op2 : mat4x4_t) : mat4x4_t :=
  mat_of (fun c r =>
    radd (radd (radd (rmul (cols op1 0 r) (cols op2 c 0))
                     (rmul (cols op1 1 r) (cols op2 c 1)))
               (rmul (cols op1 2 r) (cols op2 c 2)))
         (rmul (cols op1 3 r) (cols op2 c 3))).

End Mat.
End PFM.
Export PFM.

(** The three matrix constructors used by [a_mat_from_sqt]; pf_math.c is
    not under src/, so they are parameters of the animation code. *)
Class PFMath `{Scalar} := {
  PFM_Mat4x4_MakeScale : R -> R -> R -> mat4x4_t;
  PFM_Mat4x4_MakeTrans : R -> R -> R -> mat4x4_t;
  PFM_Mat4x4_RotFromQuat : quat_t -> mat4x4_t
}.

(** ** Outcomes of code with loops and assertions *)

(** [Ret a]: the call returned [a]. [Abort]: an [assert] failed or the
    code read outside an array. [Timeout]: the fuel given to a [while]
    loop ran out before the loop condition became false. *)
Inductive run (A : Type) : Type :=
  | Ret (a : A)
  | Abort
  | Timeout.
Arguments Ret {A} a.
Arguments Abort {A}.
Arguments Timeout {A}.

Definition run_bind {A B : Type} (x : run A) (f : A -> run B) : run B :=
  match x with
  | Ret a => f a
  | Abort => Abort
  | Timeout => Timeout
  end.

Definition run_of_option {A : Type} (x : option A) : run A :=
  match x with
  | Some a => Ret a
  | None => Abort
  end.

(** * event.c *)

Module Event.

Inductive handler_type := HANDLER_TYPE_ENGINE | HANDLER_TYPE_SCRIPT.
Inductive event_source := ES_ENGINE | ES_SCRIPT.

(** [struct handler_desc]. The union [handler] holds a function pointer
    or a script callable; both are opaque addresses here. *)
Record handler_desc := HandlerDesc {
  hd_type : handler_type;
  hd_handler : Z;
  hd_user_arg : Z;
  hd_simmask : Z
}.

(** [struct event]. *)
Record event := Ev {
  ev_type : Z;
  ev_arg : Z;
  ev_source : event_source;
  ev_receiver_id : Z
}.

(** [#define GLOBAL_ID (~((uint32_t)0))] *)
Definition GLOBAL_ID : Z := Z.ones 32.

(** [(((uint64_t)ent_id) << 32) | (uint64_t)event] *)
Definition e_key (ent_id event : Z) : Z :=
  Z.lor (Z.shiftl ent_id 32 mod 2 ^ 64) (event mod 2 ^ 64).

(** The event types the engine itself posts; event.h is not under src/. *)
Class EventTypes := {
  EVENT_UPDATE_START : Z;
  EVENT_UPDATE_UI : Z;
  EVENT_UPDATE_END : Z;
  EVENT_ANIM_FINISHED : Z;
  EVENT_ANIM_CYCLE_FINISHED : Z
}.

(** [khash_t(handler_desc)]: 64-bit key to [vec_hd_t]. *)
Abbreviation handler_table := (gmap Z (list handler_desc)).

(** [queue(event)]: head of the list is the next event popped. *)
Abbreviation event_queue := (list event).

Definition queue_event_push (q : event_queue) (e : event) : event_queue :=
  q ++ [e].


Definition e_register_handler (key : Z) (desc : handler_desc)
    (table : handler_table) : bool * handler_table :=
  match table !! key with
  | None => (true, <[key := [desc]]> table)
  | Some vec => (true, <[key := vec ++ [desc]]> table)
  end.

Definition E_Global_Register (event handler user_arg simmask : Z)
    (table : handler_table) : bool * handler_table :=
  e_register_handler (e_key GLOBAL_ID event)
    (HandlerDesc HANDLER_TYPE_ENGINE handler user_arg simmask) table.

Definition E_Global_ScriptRegister (event handler user_arg simmask : Z)
    (table : handler_table) : bool * handler_table :=
  e_register_handler (e_key GLOBAL_ID event)
    (HandlerDesc HANDLER_TYPE_SCRIPT handler user_arg simmask) table.

Definition E_Entity_Register (event ent_uid handler user_arg simmask : Z)
    (table : handler_table) : bool * handler_table :=
  e_register_handler (e_key ent_uid event)
    (HandlerDesc HANDLER_TYPE_ENGINE handler user_arg simmask) table.

Definition E_Entity_ScriptRegister (event ent_uid handler user_arg simmask : Z)
    (table : handler_table) : bool * handler_table :=
  e_register_handler (e_key ent_uid event)
    (HandlerDesc HANDLER_TYPE_SCRIPT handler user_arg simmask) table.

Definition E_Global_Notify (event event_arg : Z) (source : event_source)
    (q : event_queue) : event_queue :=
  queue_event_push q (Ev event event_arg source GLOBAL_ID).

Definition E_Entity_Notify (event ent_uid event_arg : Z) (source : event_source)
    (q : event_queue) : event_queue :=
  queue_event_push q (Ev event event_arg source ent_uid).

(** One handler call made by the dispatcher: which descriptor, with which
    user argument and which event argument. *)
Record invocation := Invoke {
  inv_desc : handler_desc;
  inv_user_arg : Z;
  inv_event_arg : Z
}.

(** What lies behind the function pointers and the script bridge. A
    handler runs on the rest of the engine ([S]) and may post events; it
    does not touch the handler table while that table is being dispatched
    (the caller obligation stated for the bus). *)
Class Handlers (S : Type) := {
  G_GetSimState : S -> Z;
  call_function : Z -> Z -> Z -> S * event_queue -> S * event_queue;
  S_RunEventHandler : Z -> Z -> Z -> S * event_queue -> S * event_queue;
  S_UnwrapIfWeakref : Z -> Z;
  S_WrapEngineEventArg : Z -> Z -> Z;
  S_Release : Z -> S -> S
}.

Section Dispatch.
Context {S : Type} `{Handlers S} `{EventTypes}.

(** The [for] loop of [e_handle_event] over the handler vector read from
    the table, from the current element on. *)
Fixpoint e_handle_event_loop (vec : list handler_desc) (ss : Z) (ev : event)
    (w : S * event_queue) : option (S * event_queue * list invocation) :=
  match vec with
  | [] => Some (w, [])
  | elem :: rest =>
    if Z.land (hd_simmask elem) ss =? 0 then
      e_handle_event_loop rest ss ev w
    else
      match hd_type elem with
      | HANDLER_TYPE_ENGINE =>
        let w1 := call_function (hd_handler elem) (hd_user_arg elem) (ev_arg ev) w in
        match e_handle_event_loop rest ss ev w1 with
        | Some (w2, tr) =>
          Some (w2, Invoke elem (hd_user_arg elem) (ev_arg ev) :: tr)
        | None => None
        end
      | HANDLER_TYPE_SCRIPT =>
        let script_arg :=
          match ev_source ev with
          | ES_SCRIPT => S_UnwrapIfWeakref (ev_arg ev)
          | ES_ENGINE => S_WrapEngineEventArg (ev_type ev) (ev_arg ev)
          end in
        if script_arg =? 0 then None
        else
          let ua := S_UnwrapIfWeakref (hd_user_arg elem) in
          let w1 := S_RunEventHandler (hd_handler elem) ua script_arg w in
          match e_handle_event_loop rest ss ev w1 with
          | Some (w2, tr) => Some (w2, Invoke elem ua script_arg :: tr)
          | None => None
          end
      end
  end.

Definition e_handle_event (table : handler_table) (ev : event)
    (w : S * event_queue) : option (S * event_queue * list invocation) :=
  let key := e_key (ev_receiver_id ev) (ev_type ev) in
  let ss := G_GetSimState (fst w) in
  match table !! key with
  | None => Some (w, [])
  | Some vec =>
    match e_handle_event_loop vec ss ev w with
    | Some (w1, tr) =>
      match ev_source ev with
      | ES_SCRIPT => Some ((S_Release (ev_arg ev) (fst w1), snd w1), tr)
      | ES_ENGINE => Some (w1, tr)
      end
    | None => None
    end
  end.




Definition E_Global_NotifyImmediate (table : handler_table)
    (event event_arg : Z) (source : event_source) (w : S * event_queue) :
    option (S * event_queue * list invocation) :=
  e_handle_event table (Ev event event_arg source GLOBAL_ID) w.

End Dispatch.

(** ** Unregistering *)

(** What the unregister path takes from vec.h and from the script bridge,
    neither of which is under src/: [vec_hd_indexof vec t cmp] (an index
    whose element [cmp] accepts, [-1] when there is none: event.c tests
    the result against [-1]), [vec_hd_del vec idx] (the vector without the
    element at [idx]) and [S_ObjectsEqual]. *)
Class HandlerVec := {
  vec_hd_indexof :
    list handler_desc -> handler_desc ->
    (handler_desc -> handler_desc -> bool) -> Z;
  vec_hd_del : list handler_desc -> Z -> list handler_desc;
  S_ObjectsEqual : Z -> Z -> bool
}.

Section Unregister.
Context {S : Type} `{Handlers S} `{HandlerVec}.

Definition handlers_equal (a b : handler_desc) : bool :=
  match hd_type a, hd_type b with
  | HANDLER_TYPE_SCRIPT, HANDLER_TYPE_SCRIPT =>
    S_ObjectsEqual (hd_handler a) (hd_handler b)
  | HANDLER_TYPE_ENGINE, HANDLER_TYPE_ENGINE => hd_handler a =? hd_handler b
  | _, _ => false
  end.

(** [e_unregister_handler]. [None]: [vec_AT] reads outside the vector. *)
Definition e_unregister_handler (key : Z) (desc : handler_desc)
    (table : handler_table) (s : S) : option (bool * handler_table * S) :=
  match table !! key with
  | None => Some (false, table, s)
  | Some vec =>
    let idx := vec_hd_indexof vec desc handlers_equal in
    if idx =? -1 then Some (false, table, s)
    else
      match arr_get vec idx with
      | None => None
      | Some to_del =>
        let s1 :=
          match hd_type to_del with
          | HANDLER_TYPE_SCRIPT =>
            S_Release (hd_user_arg to_del) (S_Release (hd_handler to_del) s)
          | HANDLER_TYPE_ENGINE => s
          end in
        Some (true, <[key := vec_hd_del vec idx]> table, s1)
      end
  end.

(** The four unregister calls fill in [type] and [handler] only; the
    other two fields of [hd] stay unset and are never compared. *)
Definition E_Global_Unregister (event handler : Z) (table : handler_table)
    (s : S) : option (bool * handler_table * S) :=
  e_unregister_handler (e_key GLOBAL_ID event)
    (HandlerDesc HANDLER_TYPE_ENGINE handler 0 0) table s.

Definition E_Global_ScriptUnregister (event handler : Z)
    (table : handler_table) (s : S) : option (bool * handler_table * S) :=
  e_unregister_handler (e_key GLOBAL_ID event)
    (HandlerDesc HANDLER_TYPE_SCRIPT handler 0 0) table s.

Definition E_Entity_Unregister (event ent_uid handler : Z)
    (table : handler_table) (s : S) : option (bool * handler_table * S) :=
  e_unregister_handler (e_key ent_uid event)
    (HandlerDesc HANDLER_TYPE_ENGINE handler 0 0) table s.

Definition E_Entity_ScriptUnregister (event ent_uid handler : Z)
    (table : handler_table) (s : S) : option (bool * handler_table * S) :=
  e_unregister_handler (e_key ent_uid event)
    (HandlerDesc HANDLER_TYPE_SCRIPT handler 0 0) table s.

End Unregister.

End Event.

(** * entity.h, anim_data.h, anim_ctx.h *)

Module Entity.

(** Bit positions of the entity flags. entity.h is not under src/; each
    [ENTITY_FLAG_*] is taken to be a single bit [1 << k]. *)
Class EntityFlagBits := {
  bit_ANIMATED : Z;
  bit_COLLISION : Z;
  bit_SELECTABLE : Z;
  bit_STATIC : Z;
  bit_COMBATABLE : Z;
  bit_INVISIBLE : Z;
  bit_ZOMBIE : Z
}.

Section Flags.
Context `{EntityFlagBits}.

Definition ENTITY_FLAG_ANIMATED : Z := Z.shiftl 1 bit_ANIMATED.
Definition ENTITY_FLAG_COLLISION : Z := Z.shiftl 1 bit_COLLISION.
Definition ENTITY_FLAG_SELECTABLE : Z := Z.shiftl 1 bit_SELECTABLE.
Definition ENTITY_FLAG_STATIC : Z := Z.shiftl 1 bit_STATIC.
Definition ENTITY_FLAG_COMBATABLE : Z := Z.shiftl 1 bit_COMBATABLE.
Definition ENTITY_FLAG_INVISIBLE : Z := Z.shiftl 1 bit_INVISIBLE.
Definition ENTITY_FLAG_ZOMBIE : Z := Z.shiftl 1 bit_ZOMBIE.

(** The seven flags are seven different bits of a 32-bit word. *)
Definition flag_bits_wf : Prop :=
  NoDup [bit_ANIMATED; bit_COLLISION; bit_SELECTABLE; bit_STATIC;
         bit_COMBATABLE; bit_INVISIBLE; bit_ZOMBIE] /\
  Forall (fun b => 0 <= b < 32)
        [bit_ANIMATED; bit_COLLISION; bit_SELECTABLE; bit_STATIC;
         bit_COMBATABLE; bit_INVISIBLE; bit_ZOMBIE].

End Flags.

(** [flags & mask] read as a C condition. *)
Definition has_flag (flags mask : Z) : bool := negb (Z.land flags mask =? 0).

(** [flags |= mask] and [flags &= ~mask]. *)
Definition set_flag (flags mask : Z) : Z := Z.lor flags mask.
Definition clear_flag (flags mask : Z) : Z := Z.land flags (Z.lnot mask).

Inductive anim_mode :=
  | ANIM_MODE_LOOP
  | ANIM_MODE_ONCE
  | ANIM_MODE_ONCE_HIDE_ON_FINISH.

Section Data.
Context `{Scalar}.

Record SQT := MkSQT {
  scale : vec3_t;
  quat_rotation : quat_t;
  trans : vec3_t
}.

Record joint := MkJoint { parent_idx : Z }.

Record skeleton := MkSkeleton {
  num_joints : Z;
  joints : list joint;
  bind_sqts : list SQT;
  inv_bind_poses : list mat4x4_t
}.

Record anim_sample := MkSample { local_joint_poses : list SQT }.

Record anim_clip := MkClip {
  name : string;
  num_frames : Z;
  samples : list anim_sample
}.

Record anim_data := MkAnimData {
  num_anims : Z;
  skel : skeleton;
  anims : list anim_clip
}.

(** [struct anim_ctx]. [active] and [idle] point into [anims]; a pointer
    [&priv->anims[i]] is the index [i]. *)
Record anim_ctx := MkCtx {
  active : Z;
  idle : Z;
  mode : anim_mode;
  key_fps : Z;
  curr_frame : Z;
  curr_frame_start_ticks : Z
}.

(** [struct entity], the fields the core reads. [render_private] is an
    opaque handle. *)
Record entity := MkEntity {
  uid : Z;
  flags : Z;
  faction_id : Z;
  render_private : Z;
  anim_private : anim_data;
  ent_anim_ctx : anim_ctx
}.

Definition set_flags (e : entity) (f : Z) : entity :=
  MkEntity (uid e) f (faction_id e) (render_private e) (anim_private e) (ent_anim_ctx e).

Definition set_faction_id (e : entity) (f : Z) : entity :=
  MkEntity (uid e) (flags e) f (render_private e) (anim_private e) (ent_anim_ctx e).

Definition set_anim_ctx (e : entity) (c : anim_ctx) : entity :=
  MkEntity (uid e) (flags e) (faction_id e) (render_private e) (anim_private e) c.

End Data.
End Entity.
Export Entity.

(** [SDL_GetTicks]: the value returned by the n-th call since start-up. *)
Class SDLClock := { SDL_ticks : nat -> Z }.

(** * anim/anim.c *)

Module Anim.
Import Event.

(** ** Single-precision arithmetic of [A_Update]

    IEEE 754 binary32 (24-bit significand, infinities at exponent 128),
    round to nearest even, as specified by [SpecFloat]. *)
Definition f32 : Type := spec_float.
Definition f32_of_Z (z : Z) : f32 := binary_normalize 24 128 z 0 false.
Definition f32_div (x y : f32) : f32 := SFdiv 24 128 x y.
(** [x > y] *)
Definition f32_gt (x y : f32) : bool := SFltb y x.

(** [uint32_t] subtraction and addition. *)
Definition u32_sub (a b : Z) : Z := (a - b) mod 2 ^ 32.
Definition u32_add (a b : Z) : Z := (a + b) mod 2 ^ 32.

Definition SDL_GetTicks `{SDLClock} (n : nat) : Z * nat :=
  (SDL_ticks n mod 2 ^ 32, Datatypes.S n).

Section Sampler.
Context `{Scalar} `{!PFMath} `{EntityFlagBits} `{EventTypes} `{SDLClock}.

(** The [for] loop of [a_clip_for_name], [n] iterations left, at index [i].
    Outer [None]: read outside [anims]. Inner [None]: [NULL]. *)
Fixpoint a_clip_for_name_loop (n : nat) (i : Z) (clips : list anim_clip)
    (nm : string) : option (option Z) :=
  match n with
  | O => Some None
  | Datatypes.S n' =>
    match arr_get clips i with
    | None => None
    | Some curr =>
      if String.eqb (name curr) nm then Some (Some i)
      else a_clip_for_name_loop n' (i + 1) clips nm
    end
  end.

Definition a_clip_for_name (ent : entity) (nm : string) : option (option Z) :=
  let priv := anim_private ent in
  a_clip_for_name_loop (Z.to_nat (num_anims priv)) 0 (anims priv) nm.

Definition a_mat_from_sqt (sqt : SQT) : mat4x4_t :=
  let scale_m := PFM_Mat4x4_MakeScale (vx (scale sqt)) (vy (scale sqt)) (vz (scale sqt)) in
  let trans_m := PFM_Mat4x4_MakeTrans (vx (trans sqt)) (vy (trans sqt)) (vz (trans sqt)) in
  let rot := PFM_Mat4x4_RotFromQuat (quat_rotation sqt) in
  let tmp := PFM_Mat4x4_Mult4x4 rot scale_m in
  PFM_Mat4x4_Mult4x4 trans_m tmp.

(** The [while(joint_idx >= 0)] loop shared by [a_make_bind_mat] (over the
    bind SQTs) and [a_make_pose_mat] (over the SQTs of the current sample).
    The second component counts the executions of the loop body. *)
Fixpoint a_walk_loop (fuel : nat) (skl : skeleton) (sqts : list SQT)
    (joint_idx : Z) (acc : mat4x4_t) : run (mat4x4_t * nat) :=
  if joint_idx >=? 0 then
    match fuel with
    | O => Timeout
    | Datatypes.S fuel' =>
      match arr_get (joints skl) joint_idx, arr_get sqts joint_idx with
      | Some jnt, Some sqt =>
        let to_curr := acc in
        let to_parent := a_mat_from_sqt sqt in
        match a_walk_loop fuel' skl sqts (parent_idx jnt)
                (PFM_Mat4x4_Mult4x4 to_parent to_curr) with
        | Ret (m, k) => Ret (m, Datatypes.S k)
        | Abort => Abort
        | Timeout => Timeout
        end
      | _, _ => Abort
      end
    end
  else Ret (acc, O).

Definition a_make_bind_mat (fuel : nat) (joint_idx : Z) (skl : skeleton) :
    run (mat4x4_t * nat) :=
  a_walk_loop fuel skl (bind_sqts skl) joint_idx PFM_Mat4x4_Identity.

(** [&ctx->active->samples[ctx->curr_frame]] *)
Definition curr_sample (ent : entity) : option anim_sample :=
  let ctx := ent_anim_ctx ent in
  match arr_get (anims (anim_private ent)) (active ctx) with
  | Some clip => arr_get (samples clip) (curr_frame ctx)
  | None => None
  end.

Definition a_make_pose_mat (fuel : nat) (ent : entity) (joint_idx : Z)
    (skl : skeleton) : run (mat4x4_t * nat) :=
  match curr_sample ent with
  | Some sample =>
    a_walk_loop fuel skl (local_joint_poses sample) joint_idx PFM_Mat4x4_Identity
  | None => Abort
  end.

Definition A_SetActiveClip (ent : entity) (nm : string) (md : anim_mode)
    (fps : Z) (clk : nat) : option (entity * nat) :=
  let ctx := ent_anim_ctx ent in
  match a_clip_for_name ent nm with
  | Some (Some clip) =>
    let '(now, clk') := SDL_GetTicks clk in
    Some (set_anim_ctx ent (MkCtx clip (idle ctx) md fps 0 now), clk')
  | _ => None
  end.

Definition A_InitCtx (ent : entity) (idle_clip : string) (fps : Z)
    (clk : nat) : option (entity * nat) :=
  let ctx := ent_anim_ctx ent in
  match a_clip_for_name ent idle_clip with
  | Some (Some idl) =>
    let ent1 := set_anim_ctx ent
      (MkCtx (active ctx) idl (mode ctx) (key_fps ctx) (curr_frame ctx)
             (curr_frame_start_ticks ctx)) in
    A_SetActiveClip ent1 idle_clip ANIM_MODE_LOOP fps clk
  | _ => None
  end.

(** [frame_period_secs] and [elapsed_secs] of [A_Update], and its test. *)
Definition frame_period_secs (ctx : anim_ctx) : f32 :=
  f32_div (f32_of_Z 1) (f32_of_Z (key_fps ctx)).

Definition elapsed_ticks (ctx : anim_ctx) (curr_ticks : Z) : Z :=
  u32_sub curr_ticks (curr_frame_start_ticks ctx).

Definition elapsed_secs (ctx : anim_ctx) (curr_ticks : Z) : f32 :=
  f32_div (f32_of_Z (elapsed_ticks ctx curr_ticks)) (f32_of_Z 1000).

Definition frame_elapsed (ctx : anim_ctx) (curr_ticks : Z) : bool :=
  f32_gt (elapsed_secs ctx curr_ticks) (frame_period_secs ctx).

(** [A_Update]. [curr_frame] is an [int] and [num_frames] an [unsigned]:
    the sum is converted to [unsigned] before [%]. A clip without frames
    makes [%] undefined. *)
Definition A_Update (ent : entity) (q : event_queue) (clk : nat) :
    option (entity * event_queue * nat) :=
  let ctx := ent_anim_ctx ent in
  let '(curr_ticks, clk1) := SDL_GetTicks clk in
  if frame_elapsed ctx curr_ticks then
    match arr_get (anims (anim_private ent)) (active ctx) with
    | None => None
    | Some act =>
      if num_frames act =? 0 then None
      else
        let frame := ((curr_frame ctx + 1) mod 2 ^ 32) mod num_frames act in
        let ctx1 := MkCtx (active ctx) (idle ctx) (mode ctx) (key_fps ctx)
                          frame curr_ticks in
        let ent1 := set_anim_ctx ent ctx1 in
        if frame =? 0 then
          let q1 := E_Entity_Notify EVENT_ANIM_CYCLE_FINISHED (uid ent) 0 ES_ENGINE q in
          let finish (e : entity) :=
            let q2 := E_Entity_Notify EVENT_ANIM_FINISHED (uid e) 0 ES_ENGINE q1 in
            match arr_get (anims (anim_private e)) (idle ctx1) with
            | None => None
            | Some idl =>
              match A_SetActiveClip e (name idl) ANIM_MODE_LOOP (key_fps ctx1) clk1 with
              | Some (e2, clk2) => Some (e2, q2, clk2)
              | None => None
              end
            end in
          match mode ctx1 with
          | ANIM_MODE_ONCE_HIDE_ON_FINISH =>
            finish (set_flags ent1 (set_flag (flags ent1) ENTITY_FLAG_INVISIBLE))
          | ANIM_MODE_ONCE => finish ent1
          | ANIM_MODE_LOOP => Some (ent1, q1, clk1)
          end
        else Some (ent1, q, clk1)
    end
  else Some (ent, q, clk1).

(** [A_GetRenderState]: the pose matrix of every joint, in joint order. *)
Fixpoint pose_mats (fuel : nat) (ent : entity) (skl : skeleton) (n : nat)
    (j : Z) : run (list mat4x4_t) :=
  match n with
  | O => Ret []
  | Datatypes.S n' =>
    match a_make_pose_mat fuel ent j skl with
    | Ret (m, _) =>
      match pose_mats fuel ent skl n' (j + 1) with
      | Ret ms => Ret (m :: ms)
      | Abort => Abort
      | Timeout => Timeout
      end
    | Abort => Abort
    | Timeout => Timeout
    end
  end.

(** Result: [(njoints, curr_pose, inv_bind_pose)]. *)
Definition A_GetRenderState (fuel : nat) (ent : entity) :
    run (Z * list mat4x4_t * list mat4x4_t) :=
  if has_flag (flags ent) ENTITY_FLAG_ANIMATED then
    let skl := skel (anim_private ent) in
    match pose_mats fuel ent skl (Z.to_nat (num_joints skl)) 0 with
    | Ret ms => Ret (num_joints skl, ms, inv_bind_poses skl)
    | Abort => Abort
    | Timeout => Timeout
    end
  else Abort.

Definition A_AddTimeDelta (ent : entity) (dt : Z) : entity :=
  let ctx := ent_anim_ctx ent in
  set_anim_ctx ent
    (MkCtx (active ctx) (idle ctx) (mode ctx) (key_fps ctx) (curr_frame ctx)
           (u32_add (curr_frame_start_ticks ctx) dt)).

End Sampler.

(** ** Inverse bind matrices *)

(** [PFM_Mat4x4_Inverse] of pf_math.c, which is not under src/. *)
Class PFMathInverse `{Scalar} := {
  PFM_Mat4x4_Inverse : mat4x4_t -> mat4x4_t
}.

Section Skeletons.
Context `{Scalar} `{!PFMath} `{!PFMathInverse} `{EntityFlagBits} `{EventTypes}
        `{SDLClock}.

Definition set_inv_bind_poses (skl : skeleton) (inv : list mat4x4_t) : skeleton :=
  MkSkeleton (num_joints skl) (joints skl) (bind_sqts skl) inv.

(** The [for] loop of [A_PrepareInvBindMatrices], [n] joints left, at
    joint [i]. A store outside [inv_bind_poses] is an [Abort]. *)
Fixpoint prepare_inv_bind_loop (fuel : nat) (n : nat) (i : Z) (skl : skeleton) :
    run skeleton :=
  match n with
  | O => Ret skl
  | Datatypes.S n' =>
    match a_make_bind_mat fuel i skl with
    | Ret (bind_mat, _) =>
      if (i <? 0) || (i >=? Z.of_nat (length (inv_bind_poses skl))) then Abort
      else
        prepare_inv_bind_loop fuel n' (i + 1)
          (set_inv_bind_poses skl
             (arr_set (inv_bind_poses skl) i (PFM_Mat4x4_Inverse bind_mat)))
    | Abort => Abort
    | Timeout => Timeout
    end
  end.

(** [A_PrepareInvBindMatrices]. The array [inv_bind_poses] is a list here,
    so the [assert] that it is not [NULL] has nothing to test. *)
Definition A_PrepareInvBindMatrices (fuel : nat) (skl : skeleton) : run skeleton :=
  prepare_inv_bind_loop fuel (Z.to_nat (num_joints skl)) 0 skl.

Definition A_GetBindSkeleton (ent : entity) : skeleton :=
  skel (anim_private ent).

End Skeletons.

End Anim.

(** * game/game.c *)

Module Game.
Import Event Anim.

(** Constants of game.h and game_private.h, which are not under src/. *)
Class GameConsts := {
  MAX_FACTIONS : Z;
  MAX_FAC_NAME_LEN : Z;
  DIPLOMACY_STATE_PEACE : Z;
  G_RUNNING : Z
}.

(** An entity pointer. *)
Abbreviation ptr := Z (only parsing).

(** [struct render_workspace]: the argument arena and the command queue.
    Commands and pushed arguments are opaque. *)
Record render_workspace := MkWS {
  ws_args : list Z;
  ws_commands : list Z
}.

(** Modelled from the spec: [R_ClearWS] is defined in the render module,
    which is not under src/. The spec has the swap "reset (clear, not free)
    that workspace's arena and queue". *)
Definition R_ClearWS (w : render_workspace) : render_workspace :=
  MkWS [] [].

(** What game.c obtains from its collaborators: the model matrix of an
    entity, the shadow setting ([None]: [Settings_Get] did not return
    [SS_OKAY]), and the outcome of the fast frustum test of the entity's
    current OBB against the camera and the light frustum ([true]: not
    [VOLUME_INTERSEC_OUTSIDE]). *)
Class GameEnv `{Scalar} := {
  Entity_ModelMatrix : entity -> mat4x4_t;
  shadows_enabled_setting : option bool;
  cam_frustum_hit : entity -> bool;
  light_frustum_hit : entity -> bool;
  ACTIVE_CAM : Z
}.

Section State.
Context `{Scalar} `{!PFMath} `{!GameEnv} `{EntityFlagBits} `{EventTypes}
        `{SDLClock} `{GameConsts}.

Record faction := MkFaction {
  fac_name : string;
  fac_color : vec3_t;
  fac_controllable : bool
}.

(** [struct gamestate], the fields used by the functions below. The
    cameras, the light position and the selection are left out; the map
    is an opaque handle. *)
Record gamestate := MkGS {
  gs_ss : Z;
  gs_map : option Z;
  gs_prev_tick_map : option Z;
  gs_active : gmap Z ptr;
  gs_dynamic : gmap Z ptr;
  gs_visible : list ptr;
  gs_light_visible : list ptr;
  gs_deleted : list ptr;
  gs_num_factions : Z;
  gs_factions : list faction;
  gs_diplomacy_table : list (list Z);
  gs_ws : list render_workspace;
  gs_curr_ws_idx : Z
}.

Definition with_prev_tick_map (g : gamestate) (m : option Z) : gamestate :=
  MkGS (gs_ss g) (gs_map g) m (gs_active g) (gs_dynamic g) (gs_visible g)
       (gs_light_visible g) (gs_deleted g) (gs_num_factions g) (gs_factions g)
       (gs_diplomacy_table g) (gs_ws g) (gs_curr_ws_idx g).

Definition with_active (g : gamestate) (a : gmap Z ptr) : gamestate :=
  MkGS (gs_ss g) (gs_map g) (gs_prev_tick_map g) a (gs_dynamic g) (gs_visible g)
       (gs_light_visible g) (gs_deleted g) (gs_num_factions g) (gs_factions g)
       (gs_diplomacy_table g) (gs_ws g) (gs_curr_ws_idx g).

Definition with_dynamic (g : gamestate) (d : gmap Z ptr) : gamestate :=
  MkGS (gs_ss g) (gs_map g) (gs_prev_tick_map g) (gs_active g) d (gs_visible g)
       (gs_light_visible g) (gs_deleted g) (gs_num_factions g) (gs_factions g)
       (gs_diplomacy_table g) (gs_ws g) (gs_curr_ws_idx g).

Definition with_visible (g : gamestate) (v lv : list ptr) : gamestate :=
  MkGS (gs_ss g) (gs_map g) (gs_prev_tick_map g) (gs_active g) (gs_dynamic g) v
       lv (gs_deleted g) (gs_num_factions g) (gs_factions g)
       (gs_diplomacy_table g) (gs_ws g) (gs_curr_ws_idx g).

Definition with_deleted (g : gamestate) (d : list ptr) : gamestate :=
  MkGS (gs_ss g) (gs_map g) (gs_prev_tick_map g) (gs_active g) (gs_dynamic g)
       (gs_visible g) (gs_light_visible g) d (gs_num_factions g) (gs_factions g)
       (gs_diplomacy_table g) (gs_ws g) (gs_curr_ws_idx g).

Definition with_factions (g : gamestate) (n : Z) (f : list faction)
    (t : list (list Z)) : gamestate :=
  MkGS (gs_ss g) (gs_map g) (gs_prev_tick_map g) (gs_active g) (gs_dynamic g)
       (gs_visible g) (gs_light_visible g) (gs_deleted g) n f t (gs_ws g)
       (gs_curr_ws_idx g).

Definition with_ws (g : gamestate) (w : list render_workspace) (i : Z) : gamestate :=
  MkGS (gs_ss g) (gs_map g) (gs_prev_tick_map g) (gs_active g) (gs_dynamic g)
       (gs_visible g) (gs_light_visible g) (gs_deleted g) (gs_num_factions g)
       (gs_factions g) (gs_diplomacy_table g) w i.

(** The entity heap: what each live entity pointer points to. *)
Abbreviation heap := (gmap Z entity).

(** [table[i][j] = v] *)
Definition tbl_set (t : list (list Z)) (i j v : Z) : list (list Z) :=
  match arr_get t i with
  | Some row => arr_set t i (arr_set row j v)
  | None => t
  end.

(** [table[i][j]] *)
Definition tbl_get (t : list (list Z)) (i j : Z) : option Z :=
  match arr_get t i with
  | Some row => arr_get row j
  | None => None
  end.

(** [memmove(&a[dst], &a[src], n * sizeof(a[0]))] inside one array. *)
Definition memmove_elems {A : Type} (a : list A) (dst src n : Z) : list A :=
  take (Z.to_nat dst) a ++ take (Z.to_nat n) (drop (Z.to_nat src) a)
    ++ drop (Z.to_nat (dst + n)) a.

(** ** Registry *)

Definition G_AddEntity (ent : ptr) (g : gamestate) (h : heap) :
    option (bool * gamestate) :=
  match h !! ent with
  | None => None
  | Some e =>
    match gs_active g !! uid e with
    | Some _ => Some (false, g)
    | None =>
      let g1 := with_active g (<[uid e := ent]> (gs_active g)) in
      if has_flag (flags e) ENTITY_FLAG_STATIC then Some (true, g1)
      else
        match gs_dynamic g1 !! uid e with
        | Some _ => None
        | None => Some (true, with_dynamic g1 (<[uid e := ent]> (gs_dynamic g1)))
        end
    end
  end.

Definition G_RemoveEntity (ent : ptr) (g : gamestate) (h : heap) :
    option (bool * gamestate) :=
  match h !! ent with
  | None => None
  | Some e =>
    match gs_active g !! uid e with
    | None => Some (false, g)
    | Some _ =>
      let g1 := with_active g (delete (uid e) (gs_active g)) in
      if negb (has_flag (flags e) ENTITY_FLAG_STATIC) then
        match gs_dynamic g1 !! uid e with
        | None => None
        | Some _ => Some (true, with_dynamic g1 (delete (uid e) (gs_dynamic g1)))
        end
      else Some (true, g1)
    end
  end.

Definition G_SafeFree (ent : ptr) (g : gamestate) : gamestate :=
  with_deleted g (gs_deleted g ++ [ent]).

(** ** Factions and diplomacy *)

(** The [for] loop of [G_AddFaction]. *)
Fixpoint add_faction_peace (n : nat) (i new_fac_id : Z) (t : list (list Z)) :
    list (list Z) :=
  match n with
  | O => t
  | Datatypes.S n' =>
    let t1 := tbl_set t i new_fac_id DIPLOMACY_STATE_PEACE in
    let t2 := tbl_set t1 new_fac_id i DIPLOMACY_STATE_PEACE in
    add_faction_peace n' (i + 1) new_fac_id t2
  end.

Definition G_AddFaction (nm : string) (color : vec3_t) (g : gamestate) :
    bool * gamestate :=
  if gs_num_factions g =? MAX_FACTIONS then (false, g)
  else if Z.of_nat (String.length nm) >=? MAX_FAC_NAME_LEN then (false, g)
  else
    let new_fac_id := gs_num_factions g in
    let facs := arr_set (gs_factions g) new_fac_id (MkFaction nm color true) in
    let tbl := add_faction_peace (Z.to_nat new_fac_id) 0 new_fac_id
                 (gs_diplomacy_table g) in
    (true, with_factions g (new_fac_id + 1) facs tbl).

(** The loop of [G_RemoveFaction] over the slots of [s_gs.active]. The
    slots are those present when the loop starts; a slot emptied by an
    earlier [G_RemoveEntity] fails [kh_exist] and is skipped. *)
Fixpoint remove_faction_ents (faction : Z) (slots : list (Z * ptr))
    (g : gamestate) (h : heap) : option (gamestate * heap) :=
  match slots with
  | [] => Some (g, h)
  | (key, _) :: rest =>
    match gs_active g !! key with
    | None => remove_faction_ents faction rest g h
    | Some curr =>
      match h !! curr with
      | None => None
      | Some e =>
        if faction_id e =? faction then
          match G_RemoveEntity curr g h with
          | Some (_, g1) => remove_faction_ents faction rest g1 h
          | None => None
          end
        else if faction_id e >? faction then
          remove_faction_ents faction rest g
            (<[curr := set_faction_id e (faction_id e - 1)]> h)
        else remove_faction_ents faction rest g h
      end
    end
  end.

(** The second loop of [G_RemoveFaction]: close the gap in each row. *)
Fixpoint shift_columns (n : nat) (i faction k : Z) (t : list (list Z)) :
    list (list Z) :=
  match n with
  | O => t
  | Datatypes.S n' =>
    let t1 :=
      match arr_get t i with
      | Some row => arr_set t i (memmove_elems row faction (faction + 1) k)
      | None => t
      end in
    shift_columns n' (i + 1) faction k t1
  end.

Definition G_RemoveFaction (faction : Z) (g : gamestate) (h : heap) :
    option (bool * gamestate * heap) :=
  if gs_num_factions g <? 2 then Some (false, g, h)
  else if (faction <? 0) || (faction >=? gs_num_factions g) then Some (false, g, h)
  else
    match remove_faction_ents faction (map_to_list (gs_active g)) g h with
    | None => None
    | Some (g1, h1) =>
      let n := gs_num_factions g1 in
      let k := n - faction - 1 in
      let t1 := memmove_elems (gs_diplomacy_table g1) faction (faction + 1) k in
      let t2 := shift_columns (Z.to_nat (n - 1)) 0 faction k t1 in
      let f1 := memmove_elems (gs_factions g1) faction (faction + 1) k in
      Some (true, with_factions g1 (n - 1) f1 t2, h1)
    end.

Definition G_SetDiplomacyState (fac_id_a fac_id_b ds : Z) (g : gamestate) :
    bool * gamestate :=
  if (fac_id_a <? 0) || (fac_id_a >=? gs_num_factions g) then (false, g)
  else if (fac_id_b <? 0) || (fac_id_b >=? gs_num_factions g) then (false, g)
  else if fac_id_a =? fac_id_b then (false, g)
  else
    let t1 := tbl_set (gs_diplomacy_table g) fac_id_a fac_id_b ds in
    let t2 := tbl_set t1 fac_id_b fac_id_a ds in
    (true, with_factions g (gs_num_factions g) (gs_factions g) t2).

(** [None]: the call returns [false] and [*out] is not written. *)
Definition G_GetDiplomacyState (fac_id_a fac_id_b : Z) (g : gamestate) :
    option Z :=
  if (fac_id_a <? 0) || (fac_id_a >=? gs_num_factions g) then None
  else if (fac_id_b <? 0) || (fac_id_b >=? gs_num_factions g) then None
  else if fac_id_a =? fac_id_b then None
  else tbl_get (gs_diplomacy_table g) fac_id_a fac_id_b.

Definition G_GetSimState (g : gamestate) : Z := gs_ss g.

(** ** Per-tick update *)

(** One iteration of the [kh_foreach] body of [G_Update] for the entity
    pointer [curr]. State: the two visibility vectors, the heap, the event
    queue and the number of clock reads so far. *)
Definition update_entity (ss : Z) (curr : ptr)
    (st : list ptr * list ptr * heap * event_queue * nat) :
    option (list ptr * list ptr * heap * event_queue * nat) :=
  let '(vis, lvis, h, q, clk) := st in
  match h !! curr with
  | None => None
  | Some e0 =>
    let animated :=
      if (ss =? G_RUNNING) && has_flag (flags e0) ENTITY_FLAG_ANIMATED
      then A_Update e0 q clk else Some (e0, q, clk) in
    match animated with
    | None => None
    | Some (e, q1, clk1) =>
      let h1 := <[curr := e]> h in
      if negb (has_flag (flags e) ENTITY_FLAG_COLLISION) then
        Some (vis, lvis, h1, q1, clk1)
      else if has_flag (flags e) ENTITY_FLAG_INVISIBLE then
        Some (vis, lvis, h1, q1, clk1)
      else
        let vis1 := if cam_frustum_hit e then vis ++ [curr] else vis in
        let lvis1 := if light_frustum_hit e then lvis ++ [curr] else lvis in
        Some (vis1, lvis1, h1, q1, clk1)
    end
  end.

Fixpoint update_entities (ss : Z) (slots : list (Z * ptr))
    (st : list ptr * list ptr * heap * event_queue * nat) :
    option (list ptr * list ptr * heap * event_queue * nat) :=
  match slots with
  | [] => Some st
  | (_, curr) :: rest =>
    match update_entity ss curr st with
    | Some st1 => update_entities ss rest st1
    | None => None
    end
  end.

Definition G_Update (g : gamestate) (h : heap) (q : event_queue) (clk : nat) :
    option (gamestate * heap * event_queue * nat) :=
  match update_entities (gs_ss g) (map_to_list (gs_active g)) ([], [], h, q, clk) with
  | Some (vis, lvis, h1, q1, clk1) => Some (with_visible g vis lvis, h1, q1, clk1)
  | None => None
  end.

Definition G_Zombiefy (ent : ptr) (g : gamestate) (h : heap) :
    option (gamestate * heap) :=
  match h !! ent with
  | None => None
  | Some e =>
    let dyn :=
      if negb (has_flag (flags e) ENTITY_FLAG_STATIC) then
        match gs_dynamic g !! uid e with
        | None => None
        | Some _ => Some (delete (uid e) (gs_dynamic g))
        end
      else Some (gs_dynamic g) in
    match dyn with
    | None => None
    | Some d =>
      let f1 := clear_flag (flags e) ENTITY_FLAG_SELECTABLE in
      let f2 := clear_flag f1 ENTITY_FLAG_COLLISION in
      let f3 := clear_flag f2 ENTITY_FLAG_COMBATABLE in
      let f4 := clear_flag f3 ENTITY_FLAG_ANIMATED in
      let f5 := set_flag f4 ENTITY_FLAG_INVISIBLE in
      let f6 := set_flag f5 ENTITY_FLAG_STATIC in
      let f7 := set_flag f6 ENTITY_FLAG_ZOMBIE in
      Some (with_dynamic g d, <[ent := set_flags e f7]> h)
    end
  end.

(** ** Render workspaces *)

(** [&s_gs.ws[i]] is identified with the index [i]. *)
Definition G_GetSimWS (g : gamestate) : Z := gs_curr_ws_idx g.

Definition G_GetRenderWS (g : gamestate) : Z := Z.rem (gs_curr_ws_idx g + 1) 2.

(** The workspace behind a workspace pointer. *)
Definition ws_at (g : gamestate) (i : Z) : option render_workspace :=
  arr_get (gs_ws g) i.

(** Modelled from the spec: [AL_EntityFree] is defined in asset_load.c,
    which is not under src/. Per the spec a deferred entity is "released"
    at the swap: its heap cell disappears. Freeing a pointer that is not
    live is undefined. *)
Definition AL_EntityFree (ent : ptr) (h : heap) : option heap :=
  match h !! ent with
  | Some _ => Some (delete ent h)
  | None => None
  end.

(** The [for] loop of [G_SwapBuffers] over [s_gs.deleted]. *)
Fixpoint free_deleted (del : list ptr) (h : heap) : option heap :=
  match del with
  | [] => Some h
  | curr :: rest =>
    match AL_EntityFree curr h with
    | Some h1 => free_deleted rest h1
    | None => None
    end
  end.

Definition G_SwapBuffers (g : gamestate) (h : heap) : option (gamestate * heap) :=
  let sim_idx := gs_curr_ws_idx g in
  let render_idx := Z.rem (sim_idx + 1) 2 in
  let g1 :=
    match gs_map g with
    | Some m => with_prev_tick_map g (Some m)
    | None => g
    end in
  match free_deleted (gs_deleted g1) h with
  | None => None
  | Some h1 =>
    let g2 := with_deleted g1 [] in
    match arr_get (gs_ws g2) render_idx with
    | None => None
    | Some w =>
      if Z.of_nat (length (ws_commands w)) =? 0 then
        Some (with_ws g2 (arr_set (gs_ws g2) render_idx (R_ClearWS w)) render_idx, h1)
      else None
    end
  end.

(** ** Render input *)

Record ent_stat_rstate := MkStat {
  sr_render_private : Z;
  sr_model : mat4x4_t
}.

Record ent_anim_rstate := MkAnim {
  ar_render_private : Z;
  ar_model : mat4x4_t;
  ar_njoints : Z;
  ar_curr_pose : list mat4x4_t;
  ar_inv_bind_pose : list mat4x4_t
}.

Record render_input := MkInput {
  ri_cam : Z;
  ri_map : option Z;
  ri_shadows : bool;
  cam_vis_stat : list ent_stat_rstate;
  cam_vis_anim : list ent_anim_rstate;
  light_vis_stat : list ent_stat_rstate;
  light_vis_anim : list ent_anim_rstate
}.

(** [g_make_draw_list]: the loop over [ents], pushing onto the two output
    vectors. [fuel] bounds the joint walks of [A_GetRenderState]. *)
Fixpoint g_make_draw_list (fuel : nat) (h : heap) (ents : list ptr)
    (out_stat : list ent_stat_rstate) (out_anim : list ent_anim_rstate) :
    run (list ent_stat_rstate * list ent_anim_rstate) :=
  match ents with
  | [] => Ret (out_stat, out_anim)
  | p :: rest =>
    match h !! p with
    | None => Abort
    | Some curr =>
      let model := Entity_ModelMatrix curr in
      if has_flag (flags curr) ENTITY_FLAG_ANIMATED then
        match A_GetRenderState fuel curr with
        | Ret (njoints, pose, inv_bind) =>
          let rstate := MkAnim (render_private curr) model njoints pose inv_bind in
          g_make_draw_list fuel h rest out_stat (out_anim ++ [rstate])
        | Abort => Abort
        | Timeout => Timeout
        end
      else
        let rstate := MkStat (render_private curr) model in
        g_make_draw_list fuel h rest (out_stat ++ [rstate]) out_anim
    end
  end.

Definition g_create_render_input (fuel : nat) (g : gamestate) (h : heap) :
    run render_input :=
  match shadows_enabled_setting with
  | None => Abort
  | Some shadows =>
    run_bind (g_make_draw_list fuel h (gs_visible g) [] []) (fun cam_lists =>
    run_bind (g_make_draw_list fuel h (gs_light_visible g) [] []) (fun light_lists =>
      let out := MkInput ACTIVE_CAM (gs_map g) shadows
                   (fst cam_lists) (snd cam_lists)
                   (fst light_lists) (snd light_lists) in
      if negb (length (cam_vis_stat out) + length (cam_vis_anim out)
               =? length (gs_visible g))%nat then Abort
      else if negb (length (light_vis_stat out) + length (light_vis_anim out)
                    =? length (gs_light_visible g))%nat then Abort
      else Ret out))
  end.

End State.

Abbreviation heap := (gmap Z entity).

(** ** Factions, simulation state and reset *)

(** [EVENT_GAME_SIMSTATE_CHANGED] of event.h, which is not under src/. *)
Class GameEvents := { EVENT_GAME_SIMSTATE_CHANGED : Z }.

Section World.
Context `{Scalar} `{!PFMath} `{!GameEnv} `{EntityFlagBits} `{EventTypes}
        `{SDLClock} `{GameConsts} `{GameEvents}.

Definition with_ss (g : gamestate) (ss : Z) : gamestate :=
  MkGS ss (gs_map g) (gs_prev_tick_map g) (gs_active g) (gs_dynamic g)
       (gs_visible g) (gs_light_visible g) (gs_deleted g) (gs_num_factions g)
       (gs_factions g) (gs_diplomacy_table g) (gs_ws g) (gs_curr_ws_idx g).

(** [G_UpdateFaction]. Only the upper end of [faction_id] is checked: a
    negative id reaches the stores, which then fall outside
    [s_gs.factions] ([None]). *)
Definition G_UpdateFaction (faction_id : Z) (nm : string) (color : vec3_t)
    (control : bool) (g : gamestate) : option (bool * gamestate) :=
  if faction_id >=? gs_num_factions g then Some (false, g)
  else if Z.of_nat (String.length nm) >=? MAX_FAC_NAME_LEN then Some (false, g)
  else if (faction_id <? 0) || (faction_id >=? Z.of_nat (length (gs_factions g)))
  then None
  else
    Some (true,
          with_factions g (gs_num_factions g)
            (arr_set (gs_factions g) faction_id (MkFaction nm color control))
            (gs_diplomacy_table g)).

(** [strncpy(out, name, MAX_FAC_NAME_LEN); out[MAX_FAC_NAME_LEN-1] = 0] *)
Definition copy_fac_name (nm : string) : string :=
  String.substring 0 (Z.to_nat (MAX_FAC_NAME_LEN - 1)) nm.

(** The [for] loop of [G_GetFactions], [n] factions left, at index [i]:
    what is stored into [out_names], [out_colors] and [out_ctrl] (each
    only when the caller passes it). *)
Fixpoint get_factions_loop (n : nat) (i : Z) (facs : list faction) :
    option (list string * list vec3_t * list bool) :=
  match n with
  | O => Some ([], [], [])
  | Datatypes.S n' =>
    match arr_get facs i, get_factions_loop n' (i + 1) facs with
    | Some f, Some (names, colors, ctrl) =>
      Some (copy_fac_name (fac_name f) :: names, fac_color f :: colors,
            fac_controllable f :: ctrl)
    | _, _ => None
    end
  end.

(** [G_GetFactions]: the outputs and the returned count. *)
Definition G_GetFactions (g : gamestate) :
    option (list string * list vec3_t * list bool * Z) :=
  match get_factions_loop (Z.to_nat (gs_num_factions g)) 0 (gs_factions g) with
  | Some out => Some (out, gs_num_factions g)
  | None => None
  end.

(** The [kh_foreach] loop of [G_SetSimState]. *)
Fixpoint add_time_deltas (slots : list (Z * ptr)) (dt : Z) (h : heap) :
    option heap :=
  match slots with
  | [] => Some h
  | (_, curr) :: rest =>
    match h !! curr with
    | None => None
    | Some e =>
      if negb (has_flag (flags e) ENTITY_FLAG_ANIMATED)
      then add_time_deltas rest dt h
      else add_time_deltas rest dt (<[curr := A_AddTimeDelta e dt]> h)
    end
  end.

(** [G_SetSimState]. [s_gs.ss_change_tick], which the record [gamestate]
    leaves out, is passed in and handed back beside it. *)
Definition G_SetSimState (ss : Z) (g : gamestate) (ss_change_tick : Z)
    (h : heap) (q : event_queue) (clk : nat) :
    option (gamestate * Z * heap * event_queue * nat) :=
  if ss =? gs_ss g then Some (g, ss_change_tick, h, q, clk)
  else
    let '(curr_tick, clk1) := SDL_GetTicks clk in
    let resumed :=
      if ss =? G_RUNNING then
        add_time_deltas (map_to_list (gs_active g))
          (u32_sub curr_tick ss_change_tick) h
      else Some h in
    match resumed with
    | None => None
    | Some h1 =>
      Some (with_ss g ss, curr_tick, h1,
            E_Global_Notify EVENT_GAME_SIMSTATE_CHANGED ss ES_ENGINE q, clk1)
    end.

(** The [kh_foreach] loop of [g_reset]. *)
Fixpoint safe_free_all (slots : list (Z * ptr)) (g : gamestate) : gamestate :=
  match slots with
  | [] => g
  | (_, curr) :: rest => safe_free_all rest (G_SafeFree curr g)
  end.

(** [g_reset], as far as the registry goes: the selection, the cameras and
    the subsystems shut down with the map are left out. *)
Definition g_reset (g : gamestate) : gamestate :=
  let g1 := safe_free_all (map_to_list (gs_active g)) g in
  let '(map, prev) :=
    match gs_map g1 with
    | Some _ => (None, None)
    | None => (gs_map g1, gs_prev_tick_map g1)
    end in
  MkGS (gs_ss g1) map prev ∅ ∅ [] [] (gs_deleted g1) 0 (gs_factions g1)
       (gs_diplomacy_table g1) (gs_ws g1) (gs_curr_ws_idx g1).

Definition G_GetDynamicEntsSet (g : gamestate) : gmap Z ptr := gs_dynamic g.
Definition G_GetAllEntsSet (g : gamestate) : gmap Z ptr := gs_active g.

End World.

End Game.

(** * scene.c *)

Module Scene.
Import Game.

Inductive attr_type :=
  | TYPE_STRING | TYPE_FLOAT | TYPE_INT | TYPE_VEC3 | TYPE_QUAT | TYPE_BOOL.

(** ** Tokenizer

    [pf_strtok_r(line, " \t", &saveptr)] behaves as [strtok_r]: skip
    delimiters, return the run of non-delimiters that follows, overwrite
    the delimiter that ends it with NUL. The remaining text is what follows
    that delimiter; it is [None] when the token ran to the end of the
    line. *)
Definition is_delim (c : ascii) : bool :=
  Ascii.eqb c " "%char || Ascii.eqb c "009"%char.

Fixpoint skip_delims (s : string) : string :=
  match s with
  | EmptyString => EmptyString
  | String c s' => if is_delim c then skip_delims s' else s
  end.

Fixpoint take_token (s : string) : string * option string :=
  match s with
  | EmptyString => (EmptyString, None)
  | String c s' =>
    if is_delim c then (EmptyString, Some s')
    else let '(t, r) := take_token s' in (String c t, r)
  end.

(** [saveptr] is [None] once the previous token ended the line. Result
    [None]: [NULL]. *)
Definition pf_strtok_r (saveptr : option string) : option (string * option string) :=
  match saveptr with
  | None => None
  | Some s =>
    match skip_delims s with
    | EmptyString => None
    | s1 => Some (take_token s1)
    end
  end.

Section Loader.
Context `{Scalar} `{!PFMath} `{!GameEnv} `{EntityFlagBits} `{Event.EventTypes}
        `{SDLClock} `{GameConsts}.

(** [union] of the attribute values, tagged by the member last written. *)
Inductive attr_val :=
  | VString (s : string)
  | VFloat (f : R)
  | VInt (i : Z)
  | VVec3 (v : vec3_t)
  | VQuat (q : quat_t)
  | VBool (b : bool).

Record attr := MkAttr {
  key : string;
  type : attr_type;
  val : attr_val
}.

(** The input stream: the lines not read yet. *)
Abbreviation stream := (list string).

(** What scene.c calls and src/ does not hold. Every [sscanf_*] field
    stands for one format string; it yields the value returned by [sscanf]
    (the number of items assigned, or [-1] for [EOF]) and the contents of
    the output variables after the call.
    - [SDL_RWFromFile]: the lines of the file, [None] when it cannot be
      opened;
    - [sscanf_count what line]: ["num_factions %u"], ["num_entities %u"];
    - [sscanf_faction]: the format [faction "%31[^"]];
    - [sscanf_entity]: ["entity %s %s %u"];
    - [sscanf_s], [sscanf_d], [sscanf_f], [sscanf_3f], [sscanf_4f]:
      ["%63s"], ["%d"], ["%f"], ["%f %f %f"], ["%f %f %f %f"];
    - [sizeof_key]: [sizeof(out->key)];
    - [as_int_bits]: [val.as_int] read when another member was written;
    - [S_Entity_ObjFromAtts]: the script-side construction of an entity,
      which may register it in the world. *)
Class SceneEnv := {
  SDL_RWFromFile : string -> option stream;
  sscanf_count : string -> string -> Z * Z;
  sscanf_faction : string -> Z * string;
  sscanf_entity : string -> Z * (string * string * Z);
  sscanf_s : string -> Z * string;
  sscanf_d : string -> Z * Z;
  sscanf_f : string -> Z * R;
  sscanf_3f : string -> Z * vec3_t;
  sscanf_4f : string -> Z * quat_t;
  sizeof_key : Z;
  as_int_bits : attr_val -> Z;
  S_Entity_ObjFromAtts :
    string -> string -> gmap string attr -> list attr ->
    gamestate * heap -> bool * (gamestate * heap)
}.

Context `{!SceneEnv}.

(** Modelled from the spec: the [READ_LINE] macro is defined in
    asset_load.h, which is not under src/. The scene format is
    "line-oriented": the macro hands out the next line and jumps to the
    failure label when the input is exhausted. *)
Definition READ_LINE (s : stream) : option (string * stream) :=
  match s with
  | [] => None
  | line :: rest => Some (line, rest)
  end.

Definition as_int (v : attr_val) : Z :=
  match v with
  | VInt i => i
  | _ => as_int_bits v
  end.

(** [strncpy(out->key, token, sizeof(out->key)); out->key[sizeof-1] = 0] *)
Definition copy_key (token : string) : string :=
  String.substring 0 (Z.to_nat (sizeof_key - 1)) token.

(** The value part of [scene_parse_att], after the type token [token] has
    been read; [saveptr] is the tokenizer state behind it. Outer [None]: a
    [NULL] token is dereferenced or text behind the end of the line is
    read. Inner [None]: [goto fail]. *)
Definition parse_value (token : string) (saveptr : option string) :
    option (option (attr_type * attr_val)) :=
  let scalar_arg (k : string -> option (attr_type * attr_val)) :=
    match pf_strtok_r saveptr with
    | None => None
    | Some (tok, _) => Some (k tok)
    end in
  if String.eqb token "string" then
    scalar_arg (fun tok =>
      let '(ret, s) := sscanf_s tok in
      if ret =? 0 then None else Some (TYPE_STRING, VString s))
  else if String.eqb token "quat" then
    match saveptr with
    | None => None
    | Some rest =>
      let '(ret, q) := sscanf_4f rest in
      Some (if ret =? 0 then None else Some (TYPE_QUAT, VQuat q))
    end
  else if String.eqb token "vec3" then
    match saveptr with
    | None => None
    | Some rest =>
      let '(ret, v) := sscanf_3f rest in
      Some (if ret =? 0 then None else Some (TYPE_VEC3, VVec3 v))
    end
  else if String.eqb token "bool" then
    scalar_arg (fun tok =>
      let '(ret, tmp) := sscanf_d tok in
      if ret =? 0 then None
      else if negb (tmp =? 0) && negb (tmp =? 1) then None
      else Some (TYPE_BOOL, VBool (negb (tmp =? 0))))
  else if String.eqb token "float" then
    scalar_arg (fun tok =>
      let '(ret, f) := sscanf_f tok in
      if ret =? 0 then None else Some (TYPE_FLOAT, VFloat f))
  else if String.eqb token "int" then
    scalar_arg (fun tok =>
      let '(ret, i) := sscanf_d tok in
      if ret =? 0 then None else Some (TYPE_INT, VInt i))
  else Some None.

(** [scene_parse_att]. Outer [None]: the call does not return. Inner
    [None]: it returns [false]. *)
Definition scene_parse_att (s : stream) (anon : bool) :
    option (option (attr * stream)) :=
  match READ_LINE s with
  | None => Some None
  | Some (line, s1) =>
    let keyed :=
      if anon then
        match pf_strtok_r (Some line) with
        | Some (token, save) => Some (EmptyString, token, save)
        | None => None
        end
      else
        match pf_strtok_r (Some line) with
        | Some (ktok, save) =>
          match pf_strtok_r save with
          | Some (token, save1) => Some (copy_key ktok, token, save1)
          | None => None
          end
        | None => None
        end in
    match keyed with
    | None => None
    | Some (k, token, save) =>
      match parse_value token save with
      | None => None
      | Some None => Some None
      | Some (Some (ty, v)) => Some (Some (MkAttr k ty v, s1))
      end
    end
  end.

(** The inner [for] loop of [scene_load_entity] over the constructor
    arguments. *)
Fixpoint load_constructor_args (n : nat) (s : stream) (args : list attr) :
    option (option (list attr * stream)) :=
  match n with
  | O => Some (Some (args, s))
  | Datatypes.S n' =>
    match scene_parse_att s true with
    | None => None
    | Some None => Some None
    | Some (Some (const_arg, s1)) => load_constructor_args n' s1 (args ++ [const_arg])
    end
  end.

(** The outer [for] loop of [scene_load_entity] over the attributes. A
    key met twice fails the [assert] on the result of [kh_put]. *)
Fixpoint load_attrs (n : nat) (s : stream) (attr_table : gmap string attr)
    (args : list attr) : option (option (gmap string attr * list attr * stream)) :=
  match n with
  | O => Some (Some (attr_table, args, s))
  | Datatypes.S n' =>
    match scene_parse_att s false with
    | None => None
    | Some None => Some None
    | Some (Some (a, s1)) =>
      match attr_table !! key a with
      | Some _ => None
      | None =>
        let table1 := <[key a := a]> attr_table in
        if String.eqb (key a) "constructor_arguments" then
          let num_args := as_int (val a) mod 2 ^ 64 in
          match load_constructor_args (Z.to_nat num_args) s1 args with
          | None => None
          | Some None => Some None
          | Some (Some (args1, s2)) => load_attrs n' s2 table1 args1
          end
        else load_attrs n' s1 table1 args
      end
    end
  end.

(** [scene_load_entity]. [None]: the call does not return. *)
Definition scene_load_entity (s : stream) (w : gamestate * heap) :
    option (bool * stream * (gamestate * heap)) :=
  match READ_LINE s with
  | None => Some (false, s, w)
  | Some (line, s1) =>
    let '(ret, (nm, path, num_atts)) := sscanf_entity line in
    if ret =? 0 then Some (false, s1, w)
    else
      match load_attrs (Z.to_nat (num_atts mod 2 ^ 32)) s1 ∅ [] with
      | None => None
      | Some None => Some (false, s1, w)
      | Some (Some (attr_table, constructor_args, s2)) =>
        let '(ok, w1) := S_Entity_ObjFromAtts path nm attr_table constructor_args w in
        Some (ok, s2, w1)
      end
  end.

(** [scene_load_faction]. The result of [G_AddFaction] is not looked at. *)
Definition scene_load_faction (s : stream) (w : gamestate * heap) :
    option (bool * stream * (gamestate * heap)) :=
  match READ_LINE s with
  | None => Some (false, s, w)
  | Some (line, s1) =>
    let '(ret, nm) := sscanf_faction line in
    if ret =? 0 then Some (false, s1, w)
    else
      match scene_parse_att s1 false with
      | None => None
      | Some None => Some (false, s1, w)
      | Some (Some (color, s2)) =>
        match type color, val color with
        | TYPE_VEC3, VVec3 v =>
          Some (true, s2, (snd (G_AddFaction nm v (fst w)), snd w))
        | _, _ => Some (false, s2, w)
        end
      end
  end.

(** A [for] loop of [Scene_Load]: [n] records, each read by [load]. *)
Fixpoint load_records
    (load : stream -> gamestate * heap -> option (bool * stream * (gamestate * heap)))
    (n : nat) (s : stream) (w : gamestate * heap) :
    option (bool * stream * (gamestate * heap)) :=
  match n with
  | O => Some (true, s, w)
  | Datatypes.S n' =>
    match load s w with
    | None => None
    | Some (false, s1, w1) => Some (false, s1, w1)
    | Some (true, s1, w1) => load_records load n' s1 w1
    end
  end.

(** [Scene_Load]. [None]: the call does not return (an assertion fails or
    a [NULL] token is dereferenced). Otherwise the returned [bool] and the
    world as the call leaves it. *)
Definition Scene_Load (path : string) (w : gamestate * heap) :
    option (bool * (gamestate * heap)) :=
  match SDL_RWFromFile path with
  | None => Some (false, w)
  | Some s =>
    match READ_LINE s with
    | None => Some (false, w)
    | Some (line, s1) =>
      let '(ret, num_factions) := sscanf_count "num_factions" line in
      if ret =? 0 then Some (false, w)
      else
        match load_records scene_load_faction (Z.to_nat (num_factions mod 2 ^ 32)) s1 w with
        | None => None
        | Some (false, _, w1) => Some (false, w1)
        | Some (true, s2, w1) =>
          match READ_LINE s2 with
          | None => Some (false, w1)
          | Some (line2, s3) =>
            let '(ret2, num_ents) := sscanf_count "num_entities" line2 in
            if ret2 =? 0 then Some (false, w1)
            else
              match load_records scene_load_entity (Z.to_nat (num_ents mod 2 ^ 32)) s3 w1 with
              | None => None
              | Some (ok, _, w2) => Some (ok, w2)
              end
          end
        end
    end
  end.

End Loader.
End Scene.

(** * Vocabulary of the statements

    Predicates and functions in which the properties of the engine are
    stated, and the tactics shared by their proofs. *)

Import Event Anim Game.

(** Case analysis on every integer comparison of the goal. *)
Ltac zcmp :=
  repeat match goal with
  | |- context [Z.leb ?a ?b] => destruct (Z.leb_spec a b)
  | |- context [Z.ltb ?a ?b] => destruct (Z.ltb_spec a b)
  | |- context [Z.geb ?a ?b] => destruct (Z.geb_spec a b)
  | |- context [Z.gtb ?a ?b] => destruct (Z.gtb_spec a b)
  | |- context [Z.eqb ?a ?b] => destruct (Z.eqb_spec a b)
  end.

(** The diplomacy table is an [n] by [n] array. *)
Definition tbl_wf (n : Z) (t : list (list Z)) : Prop :=
  Z.of_nat (length t) = n /\ Forall (fun row => Z.of_nat (length row) = n) t.

(** [state[a][b] = state[b][a]] for all ids below [n]. *)
Definition tbl_symmetric (n : Z) (t : list (list Z)) : Prop :=
  forall a b, 0 <= a < n -> 0 <= b < n -> tbl_get t a b = tbl_get t b a.

(** The id of the surviving faction [a] once [faction] has been removed. *)
Definition renumber (faction a : Z) : Z := if a >? faction then a - 1 else a.

Section DiplomacyTerms.

Context `{Scalar} `{!PFMath} `{!GameEnv} `{EntityFlagBits} `{Event.EventTypes}
        `{SDLClock} `{GameConsts}.
Implicit Types (g : gamestate) (h : gmap Z entity).

(** The registry is consistent: every slot of [s_gs.active] holds a live
    entity filed under its own uid, and every non-static one is also in
    [s_gs.dynamic]. *)
Definition registry_ok (g : gamestate) (h : gmap Z entity) : Prop :=
  forall k p, gs_active g !! k = Some p ->
    exists e, h !! p = Some e /\ uid e = k /\
      (has_flag (flags e) ENTITY_FLAG_STATIC = false -> is_Some (gs_dynamic g !! k)).

End DiplomacyTerms.

(** The workspace index is [0] or [1] and both workspaces exist. *)
Definition ws_ok `{Scalar} (g : gamestate) : Prop :=
  (gs_curr_ws_idx g = 0 \/ gs_curr_ws_idx g = 1) /\ length (gs_ws g) = 2%nat.

Section ClassificationTerms.

Context `{Scalar} `{!PFMath} `{!GameEnv} `{EntityFlagBits} `{Event.EventTypes}
        `{SDLClock} `{GameConsts}.
Implicit Types (g : gamestate) (h : gmap Z entity).

(** [curr->flags & ENTITY_FLAG_ANIMATED] *)
Definition is_animated (e : entity) : bool :=
  has_flag (flags e) ENTITY_FLAG_ANIMATED.

(** The render state of a static entity, and what it means for an
    animated render state to be the snapshot of an entity. *)
Definition stat_rstate_of (e : entity) : ent_stat_rstate :=
  MkStat (render_private e) (Entity_ModelMatrix e).

Definition anim_rstate_of (fuel : nat) (e : entity) (r : ent_anim_rstate) : Prop :=
  exists njoints pose inv_bind,
    Anim.A_GetRenderState fuel e = Ret (njoints, pose, inv_bind) /\
    r = MkAnim (render_private e) (Entity_ModelMatrix e) njoints pose inv_bind.

(** The two lists classify [ents]: reading the entities behind the
    pointers in order, the static list holds the snapshots of exactly those
    without the animated flag and the animated list the snapshots of
    exactly those with it, both in the order of [ents]. *)
Definition classifies (fuel : nat) (h : gmap Z entity) (ents : list Z)
    (stat : list ent_stat_rstate) (anim : list ent_anim_rstate) : Prop :=
  exists es,
    Forall2 (fun p e => h !! p = Some e) ents es /\
    stat = map stat_rstate_of (List.filter (fun e => negb (is_animated e)) es) /\
    Forall2 (anim_rstate_of fuel) (List.filter is_animated es) anim.

End ClassificationTerms.

(** [n] calls of [G_Update] in a row, each returning. *)
Fixpoint G_Update_times `{Scalar} `{!PFMath} `{!GameEnv} `{EntityFlagBits}
    `{Event.EventTypes} `{SDLClock} `{GameConsts} (n : nat)
    (st : gamestate * gmap Z entity * Event.event_queue * nat) :
    option (gamestate * gmap Z entity * Event.event_queue * nat) :=
  match n with
  | O => Some st
  | S n' =>
    let '(g, h, q, clk) := st in
    match G_Update g h q clk with
    | Some st1 => G_Update_times n' st1
    | None => None
    end
  end.

Section ZombieTerms.

Context `{Scalar} `{!PFMath} `{!GameEnv} `{EntityFlagBits} `{Event.EventTypes}
        `{SDLClock} `{GameConsts}.
Implicit Types (g : gamestate) (h : gmap Z entity) (e : entity).

(** The flag word [G_Zombiefy] leaves behind. *)
Definition zombie_flags (f : Z) : Z :=
  set_flag (set_flag (set_flag
    (clear_flag (clear_flag (clear_flag (clear_flag f
       ENTITY_FLAG_SELECTABLE) ENTITY_FLAG_COLLISION) ENTITY_FLAG_COMBATABLE)
       ENTITY_FLAG_ANIMATED)
    ENTITY_FLAG_INVISIBLE) ENTITY_FLAG_STATIC) ENTITY_FLAG_ZOMBIE.

(** The flag word of a zombie, flag by flag. *)
Definition zombified (f : Z) : Prop :=
  has_flag f ENTITY_FLAG_SELECTABLE = false /\
  has_flag f ENTITY_FLAG_COLLISION = false /\
  has_flag f ENTITY_FLAG_COMBATABLE = false /\
  has_flag f ENTITY_FLAG_ANIMATED = false /\
  has_flag f ENTITY_FLAG_INVISIBLE = true /\
  has_flag f ENTITY_FLAG_STATIC = true /\
  has_flag f ENTITY_FLAG_ZOMBIE = true.

End ZombieTerms.

(** Sign-definite results: a float that is not negative. *)
Definition f32_nonneg (x : f32) : Prop :=
  match x with
  | S754_zero s => s = false
  | S754_infinity s => s = false
  | S754_nan => True
  | S754_finite s _ _ => s = false
  end.

(** The comparison of [A_Update] for [d] elapsed ticks at [k] key frames
    per second. *)
Definition period_passed (d k : Z) : bool :=
  f32_gt (f32_div (f32_of_Z d) (f32_of_Z 1000)) (f32_div (f32_of_Z 1) (f32_of_Z k)).

(** [P d k] for all pairs of positive [d], [k] with [d * k < 1000],
    checked one by one. *)
Definition each_pair_below_1000 (P : Z -> Z -> bool) : bool :=
  forallb (fun d => forallb (P d) (map Z.of_nat (seq 1 (Z.to_nat (999 / d)))))
    (map Z.of_nat (seq 1 999)).

(** For a pair with [d * k < 1000] the period has not passed. *)
Definition pair_checked (d k : Z) : bool :=
  if 1000 <=? d * k then true else negb (period_passed d k).

Section UpdateTerms.

Context `{Scalar} `{!PFMath} `{EntityFlagBits} `{Event.EventTypes} `{SDLClock}.
Implicit Types (ent : entity) (q : Event.event_queue) (clk : nat).

(** The animation context can be advanced: the active clip exists and has
    frames, the current frame lies inside it, and [idle] is the clip that a
    lookup by its own name finds, as [A_InitCtx] leaves it. *)
Definition ctx_ready (ent : entity) (act idl : anim_clip) : Prop :=
  let ctx := ent_anim_ctx ent in
  let clips := anims (anim_private ent) in
  arr_get clips (active ctx) = Some act /\
  0 < num_frames act < 2 ^ 32 /\
  0 <= curr_frame ctx < num_frames act /\
  arr_get clips (idle ctx) = Some idl /\
  a_clip_for_name ent (name idl) = Some (Some (idle ctx)).

End UpdateTerms.

(** Walking the parent chain from [j], a negative index is met within
    [n] steps. *)
Fixpoint chain_ends `{Scalar} (n : nat) (skl : skeleton) (j : Z) : bool :=
  if j <? 0 then true
  else
    match n with
    | O => false
    | S n' =>
      match arr_get (joints skl) j with
      | Some jnt => chain_ends n' skl (parent_idx jnt)
      | None => false
      end
    end.

(** The parent chain of every joint ends within [num_joints] steps. *)
Definition skeleton_acyclic `{Scalar} (skl : skeleton) : Prop :=
  forall j, 0 <= j < num_joints skl ->
    chain_ends (Z.to_nat (num_joints skl)) skl j = true.

(** The joints met by the upward walk from [j], at most [n] of them, [j]
    first. *)
Fixpoint joint_chain `{Scalar} (n : nat) (skl : skeleton) (j : Z) : list Z :=
  if j <? 0 then []
  else
    match n with
    | O => []
    | S n' =>
      match arr_get (joints skl) j with
      | Some jnt => j :: joint_chain n' skl (parent_idx jnt)
      | None => []
      end
    end.

(** The local transform of joint [j] under the SQTs [sqts]. *)
Definition local_of `{Scalar} `{!PFMath} (sqts : list SQT) (j : Z) : mat4x4_t :=
  from_option a_mat_from_sqt PFM_Mat4x4_Identity (arr_get sqts j).

(** The product of a list of matrices as the walks build it, nested to
    the right and closed by the identity: [m1 * (m2 * (... * (mn * I)))].
    No law of the scalar arithmetic is used to regroup it. *)
Definition mat_product `{Scalar} (ms : list mat4x4_t) : mat4x4_t :=
  fold_right PFM_Mat4x4_Mult4x4 PFM_Mat4x4_Identity ms.

Section BusTerms.

Context {St : Type} `{Handlers St} `{EventTypes}.
Implicit Types (table : gmap Z (list handler_desc)) (w : St * event_queue)
               (ev : event) (tr : list invocation).





End BusTerms.

Import Scene.

Section SceneLoadTerms.

Context `{Scalar} `{!PFMath} `{!GameEnv} `{EntityFlagBits} `{EventTypes}
        `{SDLClock} `{GameConsts} `{!SceneEnv}.
Implicit Types (w : gamestate * gmap Z entity) (s : list string).

(** The file opens and its first line scans as the faction count [nf];
    [s1] is what follows that line. *)
Definition scene_header (path : string) (nf : Z) (s1 : list string) : Prop :=
  exists s line ret,
    SDL_RWFromFile path = Some s /\ READ_LINE s = Some (line, s1) /\
    sscanf_count "num_factions" line = (ret, nf) /\ ret <> 0.

(** The file cannot be opened, is empty, or its first line does not scan
    as a faction count. *)
Definition no_scene_header (path : string) : Prop :=
  SDL_RWFromFile path = None \/
  exists s, SDL_RWFromFile path = Some s /\
    (READ_LINE s = None \/
     exists line s1, READ_LINE s = Some (line, s1) /\
       fst (sscanf_count "num_factions" line) = 0).

(** At the head of [s] stands a complete faction record: a line that
    scans as a faction named [nm], followed by an attribute of type vec3
    with the value [color]; [s'] is what follows the record. *)
Definition faction_record (s : list string) (nm : string) (color : vec3_t)
    (s' : list string) : Prop :=
  exists line s1 ret att,
    READ_LINE s = Some (line, s1) /\
    sscanf_faction line = (ret, nm) /\ ret <> 0 /\
    scene_parse_att s1 false = Some (Some (att, s')) /\
    type att = TYPE_VEC3 /\ val att = VVec3 color.

(** No complete faction record stands at the head of [s]. *)
Definition no_faction_record (s : list string) : Prop :=
  forall nm color s', ~ faction_record s nm color s'.

(** The [k] faction records at the head of [s] have been read, [s'] is
    what follows them, and [g'] is [g] after the [G_AddFaction] call of
    each of them, in the order of the file. *)
Inductive factions_loaded :
    nat -> list string -> gamestate -> list string -> gamestate -> Prop :=
  | factions_loaded_O s g : factions_loaded 0 s g s g
  | factions_loaded_S k s nm color s1 g s' g' :
      faction_record s nm color s1 ->
      factions_loaded k s1 (snd (G_AddFaction nm color g)) s' g' ->
      factions_loaded (S k) s g s' g'.

(** The line at the head of [s] scans as the entity count [ne]; [s'] is
    what follows it. *)
Definition entity_header (s : list string) (ne : Z) (s' : list string) : Prop :=
  exists line ret,
    READ_LINE s = Some (line, s') /\
    sscanf_count "num_entities" line = (ret, ne) /\ ret <> 0.

(** The input has ended, or its next line does not scan as an entity
    count. *)
Definition no_entity_header (s : list string) : Prop :=
  READ_LINE s = None \/
  exists line s', READ_LINE s = Some (line, s') /\
    fst (sscanf_count "num_entities" line) = 0.

(** At the head of [s] stands a complete entity record: a line that
    scans as an entity [nm] with script [path], followed by its
    attributes, which make the table [atts] and the constructor arguments
    [args]; [s'] is what follows the record. *)
Definition entity_record (s : list string) (path nm : string)
    (atts : gmap string attr) (args : list attr) (s' : list string) : Prop :=
  exists line s1 ret num_atts,
    READ_LINE s = Some (line, s1) /\
    sscanf_entity line = (ret, (nm, path, num_atts)) /\ ret <> 0 /\
    load_attrs (Z.to_nat (num_atts mod 2 ^ 32)) s1 ∅ [] = Some (Some (atts, args, s')).

(** No complete entity record stands at the head of [s]. *)
Definition no_entity_record (s : list string) : Prop :=
  forall path nm atts args s', ~ entity_record s path nm atts args s'.

(** The [m] entity records at the head of [s] have been read, [s'] is
    what follows them, and [w'] is [w] after the construction of each of
    them, in the order of the file; every construction returned [true]. *)
Inductive entities_loaded :
    nat -> list string -> gamestate * gmap Z entity ->
    list string -> gamestate * gmap Z entity -> Prop :=
  | entities_loaded_O s w : entities_loaded 0 s w s w
  | entities_loaded_S m s path nm atts args s1 w w1 s' w' :
      entity_record s path nm atts args s1 ->
      S_Entity_ObjFromAtts path nm atts args w = (true, w1) ->
      entities_loaded m s1 w1 s' w' ->
      entities_loaded (S m) s w s' w'.

(** The load fails before any faction record has been read completely:
    the file cannot be opened, is empty, its first line does not scan, or
    it announces a faction and the first faction record does not load. *)
Definition fails_before_first_faction (path : string) : Prop :=
  match SDL_RWFromFile path with
  | None => True
  | Some s =>
    match READ_LINE s with
    | None => True
    | Some (line, s1) =>
      fst (sscanf_count "num_factions" line) = 0 \/
      (0 < snd (sscanf_count "num_factions" line) mod 2 ^ 32 /\
       forall w, exists s2 w2, scene_load_faction s1 w = Some (false, s2, w2))
    end
  end.

End SceneLoadTerms.

(** A value of a 32-bit unsigned type. *)
Definition is_u32 (z : Z) : Prop := 0 <= z < 2 ^ 32.

(** What event.c relies on from the two vector operations: the search
    yields [-1] when the comparator accepts no element and otherwise the
    index of an element it accepts; deleting at an index takes out exactly
    the element there (in whatever order the rest is left). *)
Definition vec_ops_ok `{HandlerVec} : Prop :=
  (forall (vec : list handler_desc) d cmp,
     (vec_hd_indexof vec d cmp = -1 /\ Forall (fun x => cmp x d = false) vec) \/
     (exists x, arr_get vec (vec_hd_indexof vec d cmp) = Some x /\ cmp x d = true)) /\
  (forall (vec : list handler_desc) i x,
     arr_get vec i = Some x -> x :: vec_hd_del vec i ≡ₚ vec).

(** What [e_unregister_handler] does to the script side when it deletes
    [x]: a script handler has its callable and its user argument
    released. *)
Definition released {St : Type} `{Handlers St} (x : handler_desc) (s : St) : St :=
  match hd_type x with
  | HANDLER_TYPE_SCRIPT => S_Release (hd_user_arg x) (S_Release (hd_handler x) s)
  | HANDLER_TYPE_ENGINE => s
  end.

Section ClipsTerms.

Context `{Scalar} `{!PFMath} `{EntityFlagBits} `{Event.EventTypes} `{SDLClock}.
Implicit Types (ent : entity) (q : Event.event_queue) (clk : nat).

(** An animation context that [A_Update] can work on for ever: it is
    ready to advance and the idle clip it falls back to has frames. *)
Definition anim_ok (ent : entity) : Prop :=
  exists act idl, ctx_ready ent act idl /\ 0 < num_frames idl < 2 ^ 32.

End ClipsTerms.

(** [n] calls of [A_Update] in a row. *)
Fixpoint A_Update_times `{Scalar} `{!PFMath} `{EntityFlagBits}
    `{Event.EventTypes} `{SDLClock} (n : nat) (ent : entity)
    (q : Event.event_queue) (clk : nat) :
    option (entity * Event.event_queue * nat) :=
  match n with
  | O => Some (ent, q, clk)
  | S n' =>
    match A_Update ent q clk with
    | Some (ent1, q1, clk1) => A_Update_times n' ent1 q1 clk1
    | None => None
    end
  end.

(** Each of the next [n] clock reads, from read number [clk] on, comes
    more than a frame period (at [fps] key frames per second) after the
    one before; the first is compared with the tick [start]. *)
Fixpoint frames_due `{SDLClock} (fps start : Z) (clk n : nat) : Prop :=
  match n with
  | O => True
  | S n' =>
    let now := fst (SDL_GetTicks clk) in
    period_passed (u32_sub now start) fps = true /\
    frames_due fps now (S clk) n'
  end.

(** The tick at which the frame timer stands after [n] such updates. *)
Definition timer_after `{SDLClock} (start : Z) (clk n : nat) : Z :=
  match n with
  | O => start
  | S m => fst (SDL_GetTicks (clk + m))
  end.

Section RegistryTerms.

Context `{Scalar} `{!PFMath} `{!GameEnv} `{EntityFlagBits} `{Event.EventTypes}
        `{SDLClock} `{GameConsts}.
Implicit Types (g : gamestate) (h : gmap Z entity) (e : entity).

(** The two keyed sets agree: every slot of [s_gs.active] holds a live
    entity filed under its own uid, and [s_gs.dynamic] holds exactly the
    active entities without the static flag. *)
Definition registry_exact (g : gamestate) (h : gmap Z entity) : Prop :=
  (forall k p, gs_active g !! k = Some p ->
     exists e, h !! p = Some e /\ uid e = k) /\
  (forall k p, gs_dynamic g !! k = Some p <->
     gs_active g !! k = Some p /\
     exists e, h !! p = Some e /\ has_flag (flags e) ENTITY_FLAG_STATIC = false).

End RegistryTerms.

Section FactionEntitiesTerms.

Context `{Scalar} `{!PFMath} `{!GameEnv} `{EntityFlagBits} `{Event.EventTypes}
        `{SDLClock} `{GameConsts}.
Implicit Types (g : gamestate) (h : gmap Z entity) (e : entity).

(** What the entity loop of [G_RemoveFaction] has done to the entity of a
    slot: out of the registry if it belonged to the faction, its faction
    id renumbered otherwise. *)
Definition faction_gone (faction : Z) (g' : gamestate) (h' : gmap Z entity)
    (k p : Z) (e : entity) : Prop :=
  if faction_id e =? faction then
    gs_active g' !! k = None /\ gs_dynamic g' !! k = None /\ h' !! p = Some e
  else
    gs_active g' !! k = Some p /\
    h' !! p = Some (set_faction_id e (renumber faction (faction_id e))).

End FactionEntitiesTerms.

Section TickTerms.

Context `{Scalar} `{!PFMath} `{!GameEnv} `{EntityFlagBits} `{Event.EventTypes}
        `{SDLClock} `{GameConsts}.
Implicit Types (g : gamestate) (h : gmap Z entity) (e : entity)
               (q : event_queue) (clk : nat).

(** An entity that [G_Update] shows to a frustum test: it can collide and
    is not invisible. *)
Definition shown (e : entity) : bool :=
  has_flag (flags e) ENTITY_FLAG_COLLISION
  && negb (has_flag (flags e) ENTITY_FLAG_INVISIBLE).

End TickTerms.

Section PauseTerms.

Context `{Scalar} `{!PFMath} `{!GameEnv} `{EntityFlagBits} `{EventTypes}
        `{SDLClock} `{GameConsts} `{GameEvents}.
Implicit Types (g : gamestate) (h : gmap Z entity) (e : entity)
               (q : event_queue) (clk : nat).

(** The entity as the resume loop leaves it. *)
Definition resumed_entity (dt : Z) (e : entity) : entity :=
  if has_flag (flags e) ENTITY_FLAG_ANIMATED then A_AddTimeDelta e dt else e.

End PauseTerms.

Section RenderInputTerms.

Context `{Scalar} `{!PFMath} `{!GameEnv} `{EntityFlagBits} `{EventTypes}
        `{SDLClock} `{GameConsts}.
Implicit Types (g : gamestate) (h : gmap Z entity) (e : entity).

(** The entity behind [p] can be drawn: it is live and, if it is animated,
    its render state can be computed. *)
Definition drawable (fuel : nat) (h : gmap Z entity) (p : Z) : Prop :=
  exists e, h !! p = Some e /\
    (has_flag (flags e) ENTITY_FLAG_ANIMATED = true ->
     exists r, A_GetRenderState fuel e = Ret r).

End RenderInputTerms.

Section SceneSuccessTerms.

Context `{Scalar} `{!PFMath} `{!GameEnv} `{EntityFlagBits} `{EventTypes}
        `{SDLClock} `{GameConsts} `{!SceneEnv}.
Implicit Types (w : gamestate * gmap Z entity) (s : list string).



End SceneSuccessTerms.

(** * A concrete engine

    One instance of every parameter of the model, and a small world, on
    which the statements below are run. *)

Module Sample.
Import Event Anim Game Scene.

(** Exact scalars: the integers. *)
#[export] Instance Z_scalar : Scalar :=
  {| R := Z; rO := 0; rI := 1; radd := Z.add; rmul := Z.mul;
     rsub := Z.sub; ropp := Z.opp |}.

(** Scale, translation and quaternion rotation matrices, column-major. *)
Definition make_scale (x y z : Z) : mat4x4_t :=
  Mat4 x 0 0 0  0 y 0 0  0 0 z 0  0 0 0 1.

Definition make_trans (x y z : Z) : mat4x4_t :=
  Mat4 1 0 0 0  0 1 0 0  0 0 1 0  x y z 1.

Definition rot_from_quat (q : quat_t) : mat4x4_t :=
  let '(x, y, z, w) := (qx q, qy q, qz q, qw q) in
  Mat4 (1 - 2 * (y * y + z * z)) (2 * (x * y + z * w)) (2 * (x * z - y * w)) 0
       (2 * (x * y - z * w)) (1 - 2 * (x * x + z * z)) (2 * (y * z + x * w)) 0
       (2 * (x * z + y * w)) (2 * (y * z - x * w)) (1 - 2 * (x * x + y * y)) 0
       0 0 0 1.

#[export] Instance Z_pfmath : PFMath :=
  {| PFM_Mat4x4_MakeScale := make_scale;
     PFM_Mat4x4_MakeTrans := make_trans;
     PFM_Mat4x4_RotFromQuat := rot_from_quat |}.

#[export] Instance flag_bits : EntityFlagBits :=
  {| bit_ANIMATED := 0; bit_COLLISION := 1; bit_SELECTABLE := 2;
     bit_STATIC := 3; bit_COMBATABLE := 4; bit_INVISIBLE := 5;
     bit_ZOMBIE := 6 |}.

#[export] Instance event_types : EventTypes :=
  {| EVENT_UPDATE_START := 65537; EVENT_UPDATE_UI := 65538;
     EVENT_UPDATE_END := 65539; EVENT_ANIM_FINISHED := 65540;
     EVENT_ANIM_CYCLE_FINISHED := 65541 |}.

(** The clock is read every 600 ms. *)
#[export] Instance clock : SDLClock := {| SDL_ticks := fun n => 600 * Z.of_nat n |}.

#[export] Instance consts : GameConsts :=
  {| MAX_FACTIONS := 16; MAX_FAC_NAME_LEN := 32;
     DIPLOMACY_STATE_PEACE := 1; G_RUNNING := 1 |}.

(** Everything with a collision volume is in view of camera and light. *)
#[export] Instance game_env : GameEnv :=
  {| Entity_ModelMatrix := fun _ => PFM_Mat4x4_Identity;
     shadows_enabled_setting := Some true;
     cam_frustum_hit := fun _ => true;
     light_frustum_hit := fun _ => true;
     ACTIVE_CAM := 0 |}.

(** ** Animation data *)

Definition unit_sqt (tx ty tz : Z) : SQT :=
  MkSQT (Vec3 1 1 1) (Quat 0 0 0 1) (Vec3 tx ty tz).

(** A chain of three joints: 0 is the root, 1 hangs off 0, 2 off 1. *)
Definition chain3 : skeleton :=
  MkSkeleton 3 [MkJoint (-1); MkJoint 0; MkJoint 1]
    [unit_sqt 1 0 0; unit_sqt 0 2 0; unit_sqt 0 0 3] [].

Definition pose_a : anim_sample :=
  MkSample [unit_sqt 1 0 0; unit_sqt 0 2 0; unit_sqt 0 0 3].
Definition pose_b : anim_sample :=
  MkSample [unit_sqt 2 0 0; unit_sqt 0 1 0; unit_sqt 0 0 1].

Definition clip_idle : anim_clip := MkClip "idle" 2 [pose_a; pose_b].
Definition clip_die : anim_clip := MkClip "die" 1 [pose_b].

Definition anim_data0 : anim_data := MkAnimData 2 chain3 [clip_idle; clip_die].

(** Entity 7: animated and collidable, playing "idle" (2 frames, 2 key
    frames per second) in loop mode, frame 0 started at tick 0. *)
Definition ent7 : entity :=
  MkEntity 7 3 0 70 anim_data0 (MkCtx 0 0 ANIM_MODE_LOOP 2 0 0).

(** Entity 8: the same, on the last frame of "die" played once-then-hide. *)
Definition ent8 : entity :=
  MkEntity 8 3 1 80 anim_data0 (MkCtx 1 0 ANIM_MODE_ONCE_HIDE_ON_FINISH 2 0 0).

(** Entity 9: static scenery of faction 2. *)
Definition ent9 : entity :=
  MkEntity 9 10 2 90 anim_data0 (MkCtx 0 0 ANIM_MODE_LOOP 2 0 0).

(** ** A world *)

Definition heap0 : gmap Z entity := <[100 := ent7]> (<[101 := ent8]> (<[102 := ent9]> ∅)).

Definition table0 : list (list Z) := replicate 16 (replicate 16 0).

Definition no_faction : faction := MkFaction "" (Vec3 0 0 0) false.

(** Three factions, all pairs at peace; entities 7, 8 and 9 registered;
    workspace 0 being filled, workspace 1 drained by the render thread;
    entity 8 waiting on the deferred-free list. *)
Definition gs0 : gamestate :=
  MkGS 1 None None
    (<[7 := 100]> (<[8 := 101]> (<[9 := 102]> ∅)))
    (<[7 := 100]> (<[8 := 101]> ∅))
    [100; 102] [102]
    [101]
    3
    (MkFaction "red" (Vec3 1 0 0) true :: MkFaction "green" (Vec3 0 1 0) true
       :: MkFaction "blue" (Vec3 0 0 1) true :: replicate 13 no_faction)
    (tbl_set (tbl_set (tbl_set (tbl_set (tbl_set (tbl_set table0
       0 1 1) 1 0 1) 0 2 1) 2 0 1) 1 2 1) 2 1 1)
    [MkWS [11; 12] [21; 22; 23]; MkWS [13] []]
    0.

(** ** Event bus *)

(** The rest of the engine is a log of the handlers that ran; the
    simulation is running. Handlers post nothing. *)
#[export] Instance handlers : Handlers (list Z) :=
  {| Event.G_GetSimState := fun _ => 1;
     call_function := fun f _ _ w => (fst w ++ [f], snd w);
     S_RunEventHandler := fun f _ _ w => (fst w ++ [f], snd w);
     S_UnwrapIfWeakref := fun a => if a =? 0 then 1 else a;
     S_WrapEngineEventArg := fun _ _ => 1;
     S_Release := fun _ s => s |}.

(** Handler 1 always fires on update-start, handler 2 only while paused,
    handler 3 (script) and handler 4 fire on entity 7 finishing a cycle,
    handler 5 on update-end. *)
Definition table1 : gmap Z (list handler_desc) :=
  snd (E_Global_Register EVENT_UPDATE_END 5 0 7
  (snd (E_Entity_Register EVENT_ANIM_CYCLE_FINISHED 7 4 0 1
  (snd (E_Entity_ScriptRegister EVENT_ANIM_CYCLE_FINISHED 7 3 0 1
  (snd (E_Global_Register EVENT_UPDATE_START 2 0 6
  (snd (E_Global_Register EVENT_UPDATE_START 1 0 1 ∅))))))))).


(** ** Scene files *)

Definition dquote : ascii := "034"%char.

Definition is_space (c : ascii) : bool :=
  Ascii.eqb c " "%char || Ascii.eqb c "009"%char || Ascii.eqb c "010"%char.

Fixpoint skip_space (s : string) : string :=
  match s with
  | String c s' => if is_space c then skip_space s' else s
  | EmptyString => EmptyString
  end.

Fixpoint strip_prefix (p s : string) : option string :=
  match p, s with
  | EmptyString, _ => Some s
  | String a p', String b s' => if Ascii.eqb a b then strip_prefix p' s' else None
  | String _ _, EmptyString => None
  end.

Definition digit_of (c : ascii) : option Z :=
  let n := Z.of_nat (nat_of_ascii c) in
  if (48 <=? n) && (n <=? 57) then Some (n - 48) else None.

Fixpoint scan_digits (s : string) (acc : Z) (seen : bool) : option (Z * string) :=
  match s with
  | String c s' =>
    match digit_of c with
    | Some d => scan_digits s' (10 * acc + d) true
    | None => if seen then Some (acc, s) else None
    end
  | EmptyString => if seen then Some (acc, s) else None
  end.

(** An optionally signed decimal integer after optional white space. *)
Definition scan_int (s : string) : option (Z * string) :=
  match skip_space s with
  | String "-" s' =>
    match scan_digits s' 0 false with
    | Some (n, r) => Some (- n, r)
    | None => None
    end
  | s' => scan_digits s' 0 false
  end.

Fixpoint scan_until (stop : ascii -> bool) (n : nat) (s : string) : string * string :=
  match n, s with
  | S n', String c s' =>
    if stop c then (EmptyString, s)
    else let '(t, r) := scan_until stop n' s' in (String c t, r)
  | _, _ => (EmptyString, s)
  end.

(** [sscanf] for the formats of scene.c, restricted to integer numerals
    where the format has [%f]. A conversion that finds no input at all is
    [EOF] (-1); output variables that are not assigned read as 0 or as the
    empty string. *)
Definition scan_status (rest : string) : Z :=
  match skip_space rest with
  | EmptyString => -1
  | _ => 0
  end.

Definition sample_sscanf_count (what line : string) : Z * Z :=
  match strip_prefix what line with
  | None => (match line with EmptyString => -1 | _ => 0 end, 0)
  | Some rest =>
    match scan_int rest with
    | Some (n, _) => (1, n mod 2 ^ 32)
    | None => (scan_status rest, 0)
    end
  end.

Definition sample_sscanf_faction (line : string) : Z * string :=
  match strip_prefix "faction" line with
  | None => (match line with EmptyString => -1 | _ => 0 end, EmptyString)
  | Some rest =>
    match skip_space rest with
    | String c body =>
      if Ascii.eqb c dquote then
        match scan_until (Ascii.eqb dquote) 31 body with
        | (EmptyString, EmptyString) => (-1, EmptyString)
        | (EmptyString, _) => (0, EmptyString)
        | (nm, _) => (1, nm)
        end
      else (0, EmptyString)
    | EmptyString => (-1, EmptyString)
    end
  end.

Definition sample_sscanf_s (tok : string) : Z * string :=
  match scan_until is_space 63 (skip_space tok) with
  | (EmptyString, _) => (-1, EmptyString)
  | (t, _) => (1, t)
  end.

Definition sample_sscanf_d (tok : string) : Z * Z :=
  match scan_int tok with
  | Some (n, _) => (1, n)
  | None => (scan_status tok, 0)
  end.

(** Up to [n] integers, as many as the input provides. *)
Fixpoint scan_ints (n : nat) (s : string) : list Z :=
  match n with
  | O => []
  | S n' =>
    match scan_int s with
    | Some (a, r) => a :: scan_ints n' r
    | None => []
    end
  end.

Definition count_or_status (found : list Z) (rest : string) : Z :=
  match found with
  | [] => scan_status rest
  | _ => Z.of_nat (length found)
  end.

Definition sample_sscanf_3f (rest : string) : Z * vec3_t :=
  let found := scan_ints 3 rest in
  (count_or_status found rest,
   Vec3 (nth 0 found 0) (nth 1 found 0) (nth 2 found 0)).

Definition sample_sscanf_4f (rest : string) : Z * quat_t :=
  let found := scan_ints 4 rest in
  (count_or_status found rest,
   Quat (nth 0 found 0) (nth 1 found 0) (nth 2 found 0) (nth 3 found 0)).

Definition sample_sscanf_entity (line : string) : Z * (string * string * Z) :=
  match strip_prefix "entity" line with
  | None => (match line with EmptyString => -1 | _ => 0 end,
             (EmptyString, EmptyString, 0))
  | Some rest =>
    match scan_until is_space 127 (skip_space rest) with
    | (EmptyString, _) => (-1, (EmptyString, EmptyString, 0))
    | (nm, r1) =>
      match scan_until is_space 255 (skip_space r1) with
      | (EmptyString, _) => (1, (nm, EmptyString, 0))
      | (path, r2) =>
        match scan_int r2 with
        | Some (n, _) => (3, (nm, path, n mod 2 ^ 32))
        | None => (2, (nm, path, 0))
        end
      end
    end
  end.

(** A scene that announces one faction, defines it, and then ends: the
    line with the entity count is missing. *)
Definition scene_cut_short : list string :=
  ["num_factions 1";
   "faction " ++ String dquote ("Red" ++ String dquote EmptyString);
   "color vec3 1 0 0"]%string.

(** A scene whose first line is not a faction count. *)
Definition scene_bad_header : list string := ["factions: 1"]%string.

(** No script interpreter is attached: entity construction fails. *)
#[export] Instance scene_env : SceneEnv :=
  {| SDL_RWFromFile := fun path =>
       if String.eqb path "cut_short.pfscene" then Some scene_cut_short
       else if String.eqb path "bad_header.pfscene" then Some scene_bad_header
       else None;
     sscanf_count := sample_sscanf_count;
     sscanf_faction := sample_sscanf_faction;
     sscanf_entity := sample_sscanf_entity;
     sscanf_s := sample_sscanf_s;
     sscanf_d := sample_sscanf_d;
     sscanf_f := fun tok => sample_sscanf_d tok;
     sscanf_3f := sample_sscanf_3f;
     sscanf_4f := sample_sscanf_4f;
     sizeof_key := 64;
     as_int_bits := fun _ => 0;
     S_Entity_ObjFromAtts := fun _ _ _ _ w => (false, w) |}.

(** ** More of the engine *)

(** The handler vectors: the search yields the first index the comparator
    accepts, deleting keeps the order of the rest; script objects are
    equal when their addresses are. *)
Fixpoint sample_indexof (vec : list handler_desc) (d : handler_desc)
    (cmp : handler_desc -> handler_desc -> bool) : Z :=
  match vec with
  | [] => -1
  | x :: rest =>
    if cmp x d then 0
    else
      let i := sample_indexof rest d cmp in
      if i =? -1 then -1 else i + 1
  end.

#[export] Instance handler_vec : HandlerVec :=
  {| vec_hd_indexof := sample_indexof;
     vec_hd_del := fun vec idx => if idx <? 0 then vec else delete (Z.to_nat idx) vec;
     S_ObjectsEqual := Z.eqb |}.

(** The inverse of a pure translation; the joints of the sample skeleton
    have no other transform. *)
#[export] Instance Z_pfmath_inverse : PFMathInverse :=
  {| PFM_Mat4x4_Inverse := fun m =>
       Mat4 (m00 m) (m01 m) (m02 m) (m03 m)
            (m10 m) (m11 m) (m12 m) (m13 m)
            (m20 m) (m21 m) (m22 m) (m23 m)
            (- m30 m) (- m31 m) (- m32 m) (m33 m) |}.

#[export] Instance game_events : GameEvents :=
  {| EVENT_GAME_SIMSTATE_CHANGED := 65542 |}.

(** The three-joint chain with room for its inverse bind poses. *)
Definition chain3_unbound : skeleton :=
  MkSkeleton 3 (joints chain3) (bind_sqts chain3)
    (replicate 3 PFM_Mat4x4_Identity).

(** Entity 10: static scenery that is not registered yet, and the heap
    once it has been allocated at address 103. *)
Definition ent10 : entity :=
  MkEntity 10 10 0 91 anim_data0 (MkCtx 0 0 ANIM_MODE_LOOP 2 0 0).

Definition heap1 : gmap Z entity := <[103 := ent10]> heap0.

(** The sample world with the simulation paused, and with entity 10
    instead of entity 8 waiting on the deferred-free list. *)
Definition gs_paused : gamestate :=
  MkGS 2 (gs_map gs0) (gs_prev_tick_map gs0) (gs_active gs0) (gs_dynamic gs0)
       (gs_visible gs0) (gs_light_visible gs0) (gs_deleted gs0)
       (gs_num_factions gs0) (gs_factions gs0) (gs_diplomacy_table gs0)
       (gs_ws gs0) (gs_curr_ws_idx gs0).

Definition gs_settled : gamestate := with_deleted gs0 [103].




End Sample.

(** * The engine's arithmetic

    The same matrix code run on IEEE 754 binary32 scalars, every
    operation rounded to nearest even, as the C code computes on [float].
    The three constructors build the usual scale, translation and
    quaternion rotation matrices in that arithmetic. *)

Module Binary32.
Import Anim.

#[export] Instance f32_scalar : Scalar :=
  {| R := f32; rO := f32_of_Z 0; rI := f32_of_Z 1;
     radd := SFadd 24 128; rmul := SFmul 24 128;
     rsub := SFsub 24 128; ropp := SFopp |}.

Definition f32_make_scale (x y z : f32) : mat4x4_t :=
  Mat4 x rO rO rO  rO y rO rO  rO rO z rO  rO rO rO rI.

Definition f32_make_trans (x y z : f32) : mat4x4_t :=
  Mat4 rI rO rO rO  rO rI rO rO  rO rO rI rO  x y z rI.

Definition f32_rot_from_quat (q : quat_t) : mat4x4_t :=
  let '(x, y, z, w) := (qx q, qy q, qz q, qw q) in
  let dbl a := rmul (f32_of_Z 2) a in
  Mat4 (rsub rI (dbl (radd (rmul y y) (rmul z z))))
       (dbl (radd (rmul x y) (rmul z w)))
       (dbl (rsub (rmul x z) (rmul y w))) rO
       (dbl (rsub (rmul x y) (rmul z w)))
       (rsub rI (dbl (radd (rmul x x) (rmul z z))))
       (dbl (radd (rmul y z) (rmul x w))) rO
       (dbl (radd (rmul x z) (rmul y w)))
       (dbl (rsub (rmul y z) (rmul x w)))
       (rsub rI (dbl (radd (rmul x x) (rmul y y)))) rO
       rO rO rO rI.

#[export] Instance f32_pfmath : PFMath :=
  {| PFM_Mat4x4_MakeScale := f32_make_scale;
     PFM_Mat4x4_MakeTrans := f32_make_trans;
     PFM_Mat4x4_RotFromQuat := f32_rot_from_quat |}.

(** [n / d] rounded to binary32. *)
Definition frac (n d : Z) : f32 := f32_div (f32_of_Z n) (f32_of_Z d).

(** A joint that only scales along x. *)
Definition scaled (sx : f32) : SQT :=
  MkSQT (Vec3 sx rI rI) (Quat rO rO rO rI) (Vec3 rO rO rO).

(** A chain of three joints scaling by 1/3, 1/3 and 1/9, and an entity
    posed in it. *)
Definition thirds : list SQT :=
  [scaled (frac 1 3); scaled (frac 1 3); scaled (frac 1 9)].

Definition chain3_thirds : skeleton :=
  MkSkeleton 3 [MkJoint (-1); MkJoint 0; MkJoint 1] thirds [].

Definition ent_thirds : entity :=
  MkEntity 1 3 0 0
    (MkAnimData 1 chain3_thirds [MkClip "rest" 1 [MkSample thirds]])
    (MkCtx 0 0 ANIM_MODE_LOOP 1 0 0).

End Binary32.

(** * Properties *)

(** ** Arrays and tables *)

Section ArrayFacts.

Context {A : Type}.
Implicit Types (a : list A) (i j : Z) (x : A).

Lemma arr_get_nat a i : 0 <= i -> arr_get a i = a !! Z.to_nat i.
Proof. intros Hi. unfold arr_get. destruct (Z.ltb_spec i 0); [lia | done]. Qed.

Lemma arr_get_neg a i : i < 0 -> arr_get a i = None.
Proof. intros Hi. unfold arr_get. destruct (Z.ltb_spec i 0); [done | lia]. Qed.

Lemma arr_get_Some_range a i x :
  arr_get a i = Some x -> 0 <= i < Z.of_nat (length a).
Proof.
  unfold arr_get. destruct (Z.ltb_spec i 0); [done |].
  intros Hl. apply lookup_lt_Some in Hl. lia.
Qed.

Lemma arr_get_in_range a i :
  0 <= i < Z.of_nat (length a) -> exists x, arr_get a i = Some x.
Proof.
  intros [H0 H1]. rewrite arr_get_nat by done.
  apply lookup_lt_is_Some_2. lia.
Qed.

Lemma length_arr_set a i x : length (arr_set a i x) = length a.
Proof. unfold arr_set. destruct (i <? 0); [done | apply length_insert]. Qed.

Lemma arr_get_set_eq a i x :
  0 <= i < Z.of_nat (length a) -> arr_get (arr_set a i x) i = Some x.
Proof.
  intros [H0 H1]. unfold arr_get, arr_set.
  destruct (Z.ltb_spec i 0); [lia |].
  apply list_lookup_insert_eq. lia.
Qed.

Lemma arr_get_set_ne a i j x :
  i <> j -> arr_get (arr_set a i x) j = arr_get a j.
Proof.
  intros Hne. unfold arr_get, arr_set.
  destruct (Z.ltb_spec j 0); [done |].
  destruct (Z.ltb_spec i 0); [done |].
  apply list_lookup_insert_ne. lia.
Qed.

(** Reading an array after [memmove]. *)
Lemma memmove_elems_get a dst src n i :
  0 <= dst -> 0 <= src -> 0 <= n -> 0 <= i ->
  dst + n <= Z.of_nat (length a) -> src + n <= Z.of_nat (length a) ->
  arr_get (memmove_elems a dst src n) i =
  if (dst <=? i) && (i <? dst + n) then arr_get a (src + (i - dst)) else arr_get a i.
Proof.
  intros Hd Hs Hn Hi Hdl Hsl.
  rewrite (arr_get_nat _ i) by lia. rewrite (arr_get_nat a i) by lia.
  unfold memmove_elems.
  assert (Hlt : length (take (Z.to_nat dst) a) = Z.to_nat dst)
    by (apply length_take_le; lia).
  assert (Hlm : length (take (Z.to_nat n) (drop (Z.to_nat src) a)) = Z.to_nat n)
    by (apply length_take_le; rewrite length_drop; lia).
  destruct (Z.leb_spec dst i); simpl.
  - rewrite lookup_app_r by lia. rewrite Hlt.
    destruct (Z.ltb_spec i (dst + n)).
    + rewrite lookup_app_l by lia.
      rewrite lookup_take_lt by lia. rewrite lookup_drop.
      rewrite arr_get_nat by lia. f_equal. lia.
    + rewrite lookup_app_r by lia. rewrite Hlm, lookup_drop. f_equal. lia.
  - rewrite lookup_app_l by lia. apply lookup_take_lt. lia.
Qed.

Lemma length_memmove_elems a dst src n :
  0 <= dst -> 0 <= src -> 0 <= n ->
  dst + n <= Z.of_nat (length a) -> src + n <= Z.of_nat (length a) ->
  length (memmove_elems a dst src n) = length a.
Proof.
  intros. unfold memmove_elems.
  rewrite !length_app, length_drop.
  rewrite !length_take_le by (rewrite ?length_drop; lia). lia.
Qed.

End ArrayFacts.

Section TableFacts.
Implicit Types (t : list (list Z)) (row : list Z).

Lemma tbl_wf_row n t i row :
  tbl_wf n t -> arr_get t i = Some row -> Z.of_nat (length row) = n.
Proof.
  intros [_ Hrows] Hi. unfold arr_get in Hi.
  destruct (i <? 0); [done |].
  rewrite Forall_forall in Hrows. apply Hrows.
  eapply list_elem_of_lookup_2. eassumption.
Qed.

Lemma tbl_wf_has_row n t i :
  tbl_wf n t -> 0 <= i < n -> exists row, arr_get t i = Some row.
Proof. intros [Hl _] Hi. apply arr_get_in_range. lia. Qed.

Lemma tbl_set_wf n t i j v : tbl_wf n t -> tbl_wf n (tbl_set t i j v).
Proof.
  intros Hwf. unfold tbl_set.
  destruct (arr_get t i) as [row|] eqn:Hrow; [| done].
  pose proof (tbl_wf_row _ _ _ _ Hwf Hrow) as Hlen.
  destruct Hwf as [Hl Hrows]. split.
  - by rewrite length_arr_set.
  - unfold arr_set at 1. destruct (i <? 0); [done |].
    apply Forall_insert; [done |]. by rewrite length_arr_set.
Qed.

Lemma tbl_get_set_eq n t i j v :
  tbl_wf n t -> 0 <= i < n -> 0 <= j < n ->
  tbl_get (tbl_set t i j v) i j = Some v.
Proof.
  intros Hwf Hi Hj. unfold tbl_get, tbl_set.
  destruct (tbl_wf_has_row _ _ _ Hwf Hi) as [row Hrow]. rewrite Hrow.
  pose proof (tbl_wf_row _ _ _ _ Hwf Hrow) as Hlen.
  rewrite arr_get_set_eq by (destruct Hwf; lia).
  apply arr_get_set_eq. lia.
Qed.

Lemma tbl_get_set_ne t i j v a b :
  (a, b) <> (i, j) -> tbl_get (tbl_set t i j v) a b = tbl_get t a b.
Proof.
  intros Hne. unfold tbl_get, tbl_set.
  destruct (arr_get t i) as [row|] eqn:Hrow; [| done].
  destruct (Z.eq_dec a i) as [-> | Hai].
  - pose proof (arr_get_Some_range _ _ _ Hrow).
    rewrite arr_get_set_eq by lia. rewrite Hrow.
    apply arr_get_set_ne. congruence.
  - by rewrite arr_get_set_ne.
Qed.

End TableFacts.

(** ** Factions and diplomacy *)

Section Diplomacy.

Context `{Scalar} `{!PFMath} `{!GameEnv} `{EntityFlagBits} `{Event.EventTypes}
        `{SDLClock} `{GameConsts}.
Implicit Types (g : gamestate) (h : gmap Z entity).

Lemma G_SetDiplomacyState_rejects a b ds g :
  ~ (0 <= a < gs_num_factions g /\ 0 <= b < gs_num_factions g /\ a <> b) ->
  G_SetDiplomacyState a b ds g = (false, g).
Proof.
  intros Hbad. unfold G_SetDiplomacyState.
  destruct (Z.ltb_spec a 0); [done |].
  destruct (Z.geb_spec a (gs_num_factions g)); [done |].
  destruct (Z.ltb_spec b 0); [done |].
  destruct (Z.geb_spec b (gs_num_factions g)); [done |].
  destruct (Z.eqb_spec a b); [done |].
  exfalso. apply Hbad. lia.
Qed.

Lemma G_SetDiplomacyState_true a b ds g g' :
  G_SetDiplomacyState a b ds g = (true, g') ->
  (0 <= a < gs_num_factions g /\ 0 <= b < gs_num_factions g /\ a <> b) /\
  gs_num_factions g' = gs_num_factions g /\
  gs_diplomacy_table g' =
    tbl_set (tbl_set (gs_diplomacy_table g) a b ds) b a ds.
Proof.
  unfold G_SetDiplomacyState.
  destruct (Z.ltb_spec a 0); [done |].
  destruct (Z.geb_spec a (gs_num_factions g)); [done |].
  destruct (Z.ltb_spec b 0); [done |].
  destruct (Z.geb_spec b (gs_num_factions g)); [done |].
  destruct (Z.eqb_spec a b); [done |].
  simpl. intros [= <-]. simpl. repeat split; (lia || done).
Qed.

Lemma G_RemoveEntity_factions ent g h r g' :
  G_RemoveEntity ent g h = Some (r, g') ->
  gs_num_factions g' = gs_num_factions g /\
  gs_factions g' = gs_factions g /\
  gs_diplomacy_table g' = gs_diplomacy_table g.
Proof.
  unfold G_RemoveEntity. intros Hrm.
  repeat (match type of Hrm with
          | context [match ?x with _ => _ end] => destruct x eqn:?
          end; simpl in Hrm; try discriminate);
  injection Hrm as <- <-; done.
Qed.

Lemma remove_faction_ents_factions faction slots g h g' h' :
  remove_faction_ents faction slots g h = Some (g', h') ->
  gs_num_factions g' = gs_num_factions g /\
  gs_factions g' = gs_factions g /\
  gs_diplomacy_table g' = gs_diplomacy_table g.
Proof.
  revert g h. induction slots as [| [k p] rest IH]; intros g h; simpl.
  { intros [= <- <-]. done. }
  destruct (gs_active g !! k) as [curr|]; [| apply IH].
  destruct (h !! curr) as [e|]; [| done].
  destruct (faction_id e =? faction).
  - destruct (G_RemoveEntity curr g h) as [[r g1]|] eqn:Hrm; [| done].
    intros Hrest. apply IH in Hrest.
    apply G_RemoveEntity_factions in Hrm. intuition congruence.
  - destruct (faction_id e >? faction); apply IH.
Qed.

(** Row [i] of the table after the column loop of [G_RemoveFaction]. *)
Lemma shift_columns_get n i0 faction k t i :
  0 <= i0 -> 0 <= i ->
  arr_get (shift_columns n i0 faction k t) i =
  if (i0 <=? i) && (i <? i0 + Z.of_nat n)
  then option_map (fun row => memmove_elems row faction (faction + 1) k) (arr_get t i)
  else arr_get t i.
Proof.
  revert i0 t. induction n as [| n IH]; intros i0 t Hi0 Hi.
  { simpl. zcmp; simpl; try done; lia. }
  cbn [shift_columns]. rewrite IH by lia.
  destruct (Z.eq_dec i i0) as [-> | Hne].
  - destruct (arr_get t i0) as [row|] eqn:Hrow.
    + pose proof (arr_get_Some_range _ _ _ Hrow).
      rewrite arr_get_set_eq by lia.
      zcmp; simpl; try done; lia.
    + rewrite Hrow. zcmp; simpl; try done; lia.
  - assert (Hsame : arr_get
        match arr_get t i0 with
        | Some row => arr_set t i0 (memmove_elems row faction (faction + 1) k)
        | None => t
        end i = arr_get t i).
    { destruct (arr_get t i0); [| done]. apply arr_get_set_ne. lia. }
    rewrite Hsame. zcmp; simpl; try done; lia.
Qed.

Lemma G_RemoveFaction_true faction g h g' h' :
  G_RemoveFaction faction g h = Some (true, g', h') ->
  let n := gs_num_factions g in
  let k := n - faction - 1 in
  2 <= n /\ 0 <= faction < n /\
  gs_num_factions g' = n - 1 /\
  gs_diplomacy_table g' =
    shift_columns (Z.to_nat (n - 1)) 0 faction k
      (memmove_elems (gs_diplomacy_table g) faction (faction + 1) k).
Proof.
  unfold G_RemoveFaction.
  destruct (Z.ltb_spec (gs_num_factions g) 2); [done |].
  destruct (Z.ltb_spec faction 0); [done |].
  destruct (Z.geb_spec faction (gs_num_factions g)); [done |]. simpl.
  destruct (remove_faction_ents _ _ _ _) as [[g1 h1]|] eqn:Hents; [| done].
  apply remove_faction_ents_factions in Hents as (Hn & _ & Ht).
  intros [= <- <-]. simpl. rewrite Hn, Ht. repeat split; lia.
Qed.

(** The table entry of two survivors after the two [memmove] passes. *)
Lemma compacted_entry n t faction a b :
  tbl_wf n t -> 0 <= faction ->
  0 <= a -> 0 <= b -> a <> faction -> b <> faction ->
  forall m, faction < m <= n -> a < m -> b < m ->
  tbl_get (shift_columns (Z.to_nat (m - 1)) 0 faction (m - faction - 1)
             (memmove_elems t faction (faction + 1) (m - faction - 1)))
          (renumber faction a) (renumber faction b)
  = tbl_get t a b.
Proof.
  intros Hwf Hf Ha Hb Haf Hbf m Hm Ham Hbm.
  pose proof Hwf as [Hlen _].
  assert (Ha' : 0 <= renumber faction a < m - 1)
    by (unfold renumber; destruct (Z.gtb_spec a faction); lia).
  assert (Hb' : 0 <= renumber faction b < m - 1)
    by (unfold renumber; destruct (Z.gtb_spec b faction); lia).
  unfold tbl_get.
  rewrite shift_columns_get by lia.
  rewrite memmove_elems_get by lia.
  assert (Hrow : (if (faction <=? renumber faction a) &&
                     (renumber faction a <? faction + (m - faction - 1))
                  then arr_get t (faction + 1 + (renumber faction a - faction))
                  else arr_get t (renumber faction a)) = arr_get t a).
  { unfold renumber. destruct (Z.gtb_spec a faction); zcmp; simpl; try lia;
      try done; f_equal; lia. }
  rewrite Hrow.
  assert (Hin : (0 <=? renumber faction a) &&
                (renumber faction a <? 0 + Z.of_nat (Z.to_nat (m - 1))) = true).
  { zcmp; simpl; try done; lia. }
  rewrite Hin.
  destruct (arr_get t a) as [row|] eqn:Hra; simpl; [| done].
  pose proof (tbl_wf_row _ _ _ _ Hwf Hra) as Hrl.
  rewrite memmove_elems_get by lia.
  unfold renumber. destruct (Z.gtb_spec b faction); zcmp; simpl; try lia;
    try done; f_equal; lia.
Qed.

Lemma G_RemoveFaction_compacts faction g h g' h' :
  tbl_wf MAX_FACTIONS (gs_diplomacy_table g) ->
  gs_num_factions g <= MAX_FACTIONS ->
  G_RemoveFaction faction g h = Some (true, g', h') ->
  forall a b,
    0 <= a < gs_num_factions g -> 0 <= b < gs_num_factions g ->
    a <> faction -> b <> faction ->
    tbl_get (gs_diplomacy_table g') (renumber faction a) (renumber faction b)
    = tbl_get (gs_diplomacy_table g) a b.
Proof.
  intros Hwf Hmax Hrm a b Ha Hb Haf Hbf.
  apply G_RemoveFaction_true in Hrm as (Hn & Hf & _ & ->).
  apply (compacted_entry MAX_FACTIONS); try done; lia.
Qed.

Lemma renumber_surjective faction n x :
  0 <= faction < n -> 0 <= x < n - 1 ->
  exists a, 0 <= a < n /\ a <> faction /\ renumber faction a = x.
Proof.
  intros Hf Hx. destruct (Z.ltb_spec x faction).
  - exists x. unfold renumber. destruct (Z.gtb_spec x faction); lia.
  - exists (x + 1). unfold renumber. destruct (Z.gtb_spec (x + 1) faction); lia.
Qed.

Lemma G_RemoveFaction_symmetric faction g h g' h' :
  tbl_wf MAX_FACTIONS (gs_diplomacy_table g) ->
  gs_num_factions g <= MAX_FACTIONS ->
  G_RemoveFaction faction g h = Some (true, g', h') ->
  tbl_symmetric (gs_num_factions g) (gs_diplomacy_table g) ->
  tbl_symmetric (gs_num_factions g') (gs_diplomacy_table g').
Proof.
  intros Hwf Hmax Hrm Hsym x y Hx Hy.
  pose proof (G_RemoveFaction_true _ _ _ _ _ Hrm) as (Hn & Hf & Hn' & _).
  rewrite Hn' in Hx, Hy.
  destruct (renumber_surjective faction _ x Hf Hx) as (a & Ha & Haf & <-).
  destruct (renumber_surjective faction _ y Hf Hy) as (b & Hb & Hbf & <-).
  rewrite !(G_RemoveFaction_compacts _ _ _ _ _ Hwf Hmax Hrm) by done.
  by apply Hsym.
Qed.

Lemma remove_faction_ents_returns faction slots g h :
  registry_ok g h ->
  exists g' h', remove_faction_ents faction slots g h = Some (g', h').
Proof.
  revert g h. induction slots as [| [k p] rest IH]; intros g h Hok; simpl.
  { eauto. }
  destruct (gs_active g !! k) as [curr|] eqn:Hk; [| by apply IH].
  destruct (Hok _ _ Hk) as (e & He & Huid & Hdyn). rewrite He.
  destruct (faction_id e =? faction).
  - unfold G_RemoveEntity. rewrite He, Huid, Hk.
    destruct (has_flag (flags e) ENTITY_FLAG_STATIC) eqn:Hst; simpl.
    + apply IH. intros k' p' Hk'. simpl in Hk'.
      apply lookup_delete_Some in Hk' as [Hne Hk'].
      destruct (Hok _ _ Hk') as (e' & ? & ? & ?). by exists e'.
    + destruct (Hdyn eq_refl) as [d Hd]. rewrite Hd.
      apply IH. intros k' p' Hk'. simpl in Hk'.
      apply lookup_delete_Some in Hk' as [Hne Hk'].
      destruct (Hok _ _ Hk') as (e' & ? & ? & Hd'). exists e'.
      repeat split; try done. intros Hs. simpl.
      rewrite lookup_delete_ne by done. by apply Hd'.
  - destruct (faction_id e >? faction); [| by apply IH].
    apply IH. intros k' p' Hk'.
    destruct (Hok _ _ Hk') as (e' & He' & Hu' & Hd').
    destruct (decide (p' = curr)) as [-> | Hne].
    + rewrite He in He'. injection He' as <-.
      eexists. rewrite lookup_insert_eq. split; [done |]. by split.
    + exists e'. by rewrite lookup_insert_ne.
Qed.

(** X4. [G_RemoveFaction] returns on every consistent registry, and reports
    success exactly for a valid id with at least two factions present. *)
Lemma G_RemoveFaction_returns faction g h :
  registry_ok g h ->
  exists r g' h', G_RemoveFaction faction g h = Some (r, g', h') /\
    (r = true <-> 2 <= gs_num_factions g /\ 0 <= faction < gs_num_factions g).
Proof.
  intros Hok. unfold G_RemoveFaction.
  destruct (Z.ltb_spec (gs_num_factions g) 2).
  { exists false, g, h. split; [done |]. split; [done | lia]. }
  destruct (Z.ltb_spec faction 0); simpl.
  { exists false, g, h. split; [done |]. split; [done | lia]. }
  destruct (Z.geb_spec faction (gs_num_factions g)).
  { exists false, g, h. split; [done |]. split; [done | lia]. }
  destruct (remove_faction_ents_returns faction (map_to_list (gs_active g)) g h Hok)
    as (g1 & h1 & ->).
  eexists true, _, _. split; [done |]. split; [lia | done].
Qed.

(** C7. The diplomacy table stays symmetric and compacts correctly.
    [G_SetDiplomacyState a b ds] returns [false] and changes nothing when
    an id is out of range or [a = b]; when it returns [true], both
    [state[a][b]] and [state[b][a]] hold [ds] and a symmetric table stays
    symmetric. After a successful [G_RemoveFaction f] the faction count
    drops by one and, for all survivors with old ids [a], [b] (both other
    than [f]), the entry at their renumbered indices is the old
    [state[a][b]]; a symmetric table stays symmetric. *)
Theorem diplomacy_table_symmetric_and_compacting (g : gamestate) :
  tbl_wf MAX_FACTIONS (gs_diplomacy_table g) ->
  gs_num_factions g <= MAX_FACTIONS ->
  (forall a b ds,
     (~ (0 <= a < gs_num_factions g /\ 0 <= b < gs_num_factions g /\ a <> b) ->
      G_SetDiplomacyState a b ds g = (false, g)) /\
     (forall g', G_SetDiplomacyState a b ds g = (true, g') ->
        tbl_get (gs_diplomacy_table g') a b = Some ds /\
        tbl_get (gs_diplomacy_table g') b a = Some ds /\
        (tbl_symmetric (gs_num_factions g) (gs_diplomacy_table g) ->
         tbl_symmetric (gs_num_factions g') (gs_diplomacy_table g')))) /\
  (forall faction h g' h',
     G_RemoveFaction faction g h = Some (true, g', h') ->
     gs_num_factions g' = gs_num_factions g - 1 /\
     (forall a b,
        0 <= a < gs_num_factions g -> 0 <= b < gs_num_factions g ->
        a <> faction -> b <> faction ->
        tbl_get (gs_diplomacy_table g') (renumber faction a) (renumber faction b)
        = tbl_get (gs_diplomacy_table g) a b) /\
     (tbl_symmetric (gs_num_factions g) (gs_diplomacy_table g) ->
      tbl_symmetric (gs_num_factions g') (gs_diplomacy_table g'))).
Proof.
  intros Hwf Hmax. split.
  - intros a b ds. split; [apply G_SetDiplomacyState_rejects |].
    intros g' Hset.
    apply G_SetDiplomacyState_true in Hset as ((Ha & Hb & Hab) & Hn & ->).
    pose proof (tbl_set_wf _ _ a b ds Hwf) as Hwf1.
    split; [| split].
    + rewrite tbl_get_set_ne by congruence.
      apply (tbl_get_set_eq MAX_FACTIONS); (done || lia).
    + apply (tbl_get_set_eq MAX_FACTIONS); (done || lia).
    + rewrite Hn. intros Hsym x y Hx Hy.
      destruct (decide ((x, y) = (b, a))) as [[= -> ->] | Hn1].
      { rewrite (tbl_get_set_eq MAX_FACTIONS) by (done || lia).
        rewrite tbl_get_set_ne by congruence.
        by rewrite (tbl_get_set_eq MAX_FACTIONS) by (done || lia). }
      destruct (decide ((x, y) = (a, b))) as [[= -> ->] | Hn2].
      { rewrite tbl_get_set_ne by congruence.
        rewrite (tbl_get_set_eq MAX_FACTIONS) by (done || lia).
        by rewrite (tbl_get_set_eq MAX_FACTIONS) by (done || lia). }
      rewrite !tbl_get_set_ne by congruence.
      by apply Hsym.
  - intros faction h g' h' Hrm. split; [| split].
    + by apply G_RemoveFaction_true in Hrm as (_ & _ & ? & _).
    + by apply (G_RemoveFaction_compacts _ _ _ _ _ Hwf Hmax Hrm).
    + by apply (G_RemoveFaction_symmetric _ _ _ _ _ Hwf Hmax Hrm).
Qed.

End Diplomacy.

(** ** Workspace swap *)

Section Swap.

Context `{Scalar} `{!PFMath} `{!GameEnv} `{EntityFlagBits} `{Event.EventTypes}
        `{SDLClock} `{GameConsts}.
Implicit Types (g : gamestate) (h : gmap Z entity).

Lemma free_deleted_lookup del h h' :
  free_deleted del h = Some h' ->
  forall p, h' !! p = if decide (p ∈ del) then None else h !! p.
Proof.
  revert h. induction del as [| c rest IH]; intros h; simpl.
  { intros [= <-] p. destruct (decide (p ∈ [])) as [Hin|]; [| done].
    by apply elem_of_nil in Hin. }
  unfold AL_EntityFree. destruct (h !! c) eqn:Hc; [| done].
  intros Hrest p. rewrite (IH _ Hrest p).
  destruct (decide (p ∈ rest)) as [Hin | Hnin].
  - rewrite decide_True; [done | by apply list_elem_of_further].
  - destruct (decide (p = c)) as [-> | Hne].
    + rewrite decide_True by apply list_elem_of_here. apply lookup_delete_eq.
    + rewrite decide_False.
      * by apply lookup_delete_ne.
      * intros Hin. apply elem_of_cons in Hin as [? | ?]; done.
Qed.

(** The deferred frees succeed when the list names live entities, each
    once. *)
Lemma free_deleted_returns del h :
  NoDup del -> (forall p, p ∈ del -> is_Some (h !! p)) ->
  exists h', free_deleted del h = Some h'.
Proof.
  revert h. induction del as [| c rest IH]; intros h Hnd Hlive; simpl.
  { eauto. }
  apply NoDup_cons in Hnd as [Hc Hnd].
  unfold AL_EntityFree.
  destruct (Hlive c) as [e ->]; [apply list_elem_of_here |].
  apply IH; [done |]. intros p Hp.
  rewrite lookup_delete_ne by (intros ->; done).
  apply Hlive. by apply list_elem_of_further.
Qed.

Lemma flip_index i : i = 0 \/ i = 1 -> Z.rem (i + 1) 2 = 1 - i.
Proof. intros [-> | ->]; reflexivity. Qed.

(** X2. [G_SwapBuffers] returns when the frees are defined and the
    render thread has drained the workspace about to be handed over. *)
Lemma G_SwapBuffers_returns g h :
  ws_ok g ->
  NoDup (gs_deleted g) -> (forall p, p ∈ gs_deleted g -> is_Some (h !! p)) ->
  (forall w, ws_at g (G_GetRenderWS g) = Some w -> ws_commands w = []) ->
  exists g' h', G_SwapBuffers g h = Some (g', h').
Proof.
  intros [Hidx Hlen] Hnd Hlive Hdrained. unfold G_SwapBuffers.
  assert (Hdel : gs_deleted
            match gs_map g with
            | Some m => with_prev_tick_map g (Some m)
            | None => g
            end = gs_deleted g) by (by destruct (gs_map g)).
  assert (Hws : gs_ws
            (with_deleted match gs_map g with
            | Some m => with_prev_tick_map g (Some m)
            | None => g
            end []) = gs_ws g) by (by destruct (gs_map g)).
  rewrite Hdel.
  destruct (free_deleted_returns _ h Hnd Hlive) as [h1 ->].
  rewrite Hws.
  destruct (arr_get_in_range (gs_ws g) (Z.rem (gs_curr_ws_idx g + 1) 2)) as [w Hw].
  { rewrite flip_index by done. lia. }
  rewrite Hw. rewrite (Hdrained w Hw). simpl. eauto.
Qed.

(** C2. After [G_SwapBuffers] returns: the simulation workspace is the one
    the render side had before the call and vice versa (the index flips
    between 0 and 1), the new simulation workspace has an empty command
    queue and a reset arena, the workspace handed to the render side is
    untouched, and the deferred-free list is empty, every entity that was
    on it having been freed. *)
Theorem swap_buffers_hands_over (g g' : gamestate) (h h' : gmap Z entity) :
  ws_ok g ->
  G_SwapBuffers g h = Some (g', h') ->
  G_GetSimWS g' = G_GetRenderWS g /\
  G_GetRenderWS g' = G_GetSimWS g /\
  G_GetSimWS g' = 1 - G_GetSimWS g /\
  (exists w, ws_at g' (G_GetSimWS g') = Some w /\
     length (ws_commands w) = 0%nat /\ ws_args w = []) /\
  ws_at g' (G_GetRenderWS g') = ws_at g (G_GetSimWS g) /\
  gs_deleted g' = [] /\
  (forall p, p ∈ gs_deleted g -> h' !! p = None).
Proof.
  intros [Hidx Hlen] Hswap. unfold G_SwapBuffers in Hswap.
  set (g1 := match gs_map g with
             | Some m => with_prev_tick_map g (Some m)
             | None => g
             end) in Hswap.
  assert (Hdel : gs_deleted g1 = gs_deleted g) by (subst g1; by destruct (gs_map g)).
  assert (Hws : gs_ws g1 = gs_ws g) by (subst g1; by destruct (gs_map g)).
  destruct (free_deleted (gs_deleted g1) h) as [h1|] eqn:Hfree; [| done].
  simpl in Hswap. rewrite Hws in Hswap.
  rewrite flip_index in Hswap by done.
  destruct (arr_get (gs_ws g) (1 - gs_curr_ws_idx g)) as [w|] eqn:Hw; [| done].
  destruct (Z.of_nat (length (ws_commands w)) =? 0); [| done].
  injection Hswap as <- <-.
  unfold G_GetSimWS, G_GetRenderWS, ws_at. simpl.
  rewrite !flip_index by lia.
  split; [done |]. split; [lia |]. split; [done |].
  split; [| split; [| split]].
  - exists (R_ClearWS w). split; [| done].
    apply arr_get_set_eq. lia.
  - replace (1 - (1 - gs_curr_ws_idx g)) with (gs_curr_ws_idx g) by lia.
    apply arr_get_set_ne. lia.
  - done.
  - intros p Hp. rewrite (free_deleted_lookup _ _ _ Hfree).
    rewrite Hdel. by rewrite decide_True.
Qed.

End Swap.

(** ** Render input *)

Section Classification.

Context `{Scalar} `{!PFMath} `{!GameEnv} `{EntityFlagBits} `{Event.EventTypes}
        `{SDLClock} `{GameConsts}.
Implicit Types (g : gamestate) (h : gmap Z entity).

Lemma classifies_length fuel h ents stat anim :
  classifies fuel h ents stat anim ->
  (length stat + length anim = length ents)%nat.
Proof.
  intros (es & Hes & -> & Han).
  rewrite <- (Forall2_length _ _ _ Han), (Forall2_length _ _ _ Hes).
  rewrite length_map. clear. induction es as [| e es IH]; simpl; [done |].
  destruct (is_animated e); simpl; lia.
Qed.

Lemma g_make_draw_list_spec fuel h ents out_stat out_anim stat anim :
  g_make_draw_list fuel h ents out_stat out_anim = Ret (stat, anim) ->
  exists stat1 anim1,
    stat = out_stat ++ stat1 /\ anim = out_anim ++ anim1 /\
    classifies fuel h ents stat1 anim1.
Proof.
  revert out_stat out_anim.
  induction ents as [| p rest IH]; intros out_stat out_anim; simpl.
  { intros [= <- <-]. exists [], []. rewrite !app_nil_r.
    repeat split; try done. exists []. repeat split; constructor. }
  destruct (h !! p) as [curr|] eqn:Hp; [| done].
  fold (is_animated curr).
  destruct (is_animated curr) eqn:Hanim.
  - destruct (Anim.A_GetRenderState fuel curr) as [[[nj pose] ib]| |] eqn:Hrs;
      try done.
    intros Hrest.
    destruct (IH _ _ Hrest) as (stat1 & anim1 & Hs & Ha & es & Hes & Hst & Han).
    exists stat1,
      (MkAnim (render_private curr) (Entity_ModelMatrix curr) nj pose ib :: anim1).
    split; [done |]. split; [by rewrite Ha, <- app_assoc |].
    exists (curr :: es). simpl. rewrite Hanim. simpl.
    split; [by constructor |]. split; [done |].
    constructor; [| done]. by exists nj, pose, ib.
  - intros Hrest.
    destruct (IH _ _ Hrest) as (stat1 & anim1 & Hs & Ha & es & Hes & Hst & Han).
    exists (stat_rstate_of curr :: stat1), anim1.
    split; [by rewrite Hs, <- app_assoc |]. split; [done |].
    exists (curr :: es). simpl. rewrite Hanim. simpl.
    split; [by constructor |]. split; [by rewrite Hst | done].
Qed.

(** The two [assert]s of [g_create_render_input] never fire: the call
    returns as soon as the setting is there and both draw lists are
    built. *)
Lemma g_create_render_input_returns fuel g h shadows l1 l2 :
  shadows_enabled_setting = Some shadows ->
  g_make_draw_list fuel h (gs_visible g) [] [] = Ret l1 ->
  g_make_draw_list fuel h (gs_light_visible g) [] [] = Ret l2 ->
  g_create_render_input fuel g h =
    Ret (MkInput ACTIVE_CAM (gs_map g) shadows (fst l1) (snd l1) (fst l2) (snd l2)).
Proof.
  intros Hset Hd1 Hd2. unfold g_create_render_input. rewrite Hset, Hd1. simpl.
  rewrite Hd2. simpl.
  destruct l1 as [s1 a1], l2 as [s2 a2]. simpl.
  apply g_make_draw_list_spec in Hd1 as (? & ? & -> & -> & Hc1).
  apply g_make_draw_list_spec in Hd2 as (? & ? & -> & -> & Hc2).
  simpl. apply classifies_length in Hc1, Hc2.
  rewrite Hc1, Hc2, !Nat.eqb_refl. done.
Qed.

(** C3. In every render input that [g_create_render_input] produces, the
    camera-visible and the light-visible entities are each split by the
    animated flag: an entity with the flag contributes one animated render
    state and none static, an entity without it one static render state
    and none animated, so the sizes of the two lists add up to the size of
    the visibility set. *)
Theorem render_input_classifies_visible fuel (g : gamestate)
    (h : gmap Z entity) (out : render_input) :
  g_create_render_input fuel g h = Ret out ->
  classifies fuel h (gs_visible g) (cam_vis_stat out) (cam_vis_anim out) /\
  classifies fuel h (gs_light_visible g) (light_vis_stat out) (light_vis_anim out) /\
  (length (cam_vis_stat out) + length (cam_vis_anim out)
     = length (gs_visible g))%nat /\
  (length (light_vis_stat out) + length (light_vis_anim out)
     = length (gs_light_visible g))%nat.
Proof.
  unfold g_create_render_input.
  destruct shadows_enabled_setting as [shadows|]; [| done].
  destruct (g_make_draw_list fuel h (gs_visible g) [] []) as [[s1 a1]| |] eqn:Hd1;
    try done. simpl.
  destruct (g_make_draw_list fuel h (gs_light_visible g) [] []) as [[s2 a2]| |] eqn:Hd2;
    try done. simpl.
  apply g_make_draw_list_spec in Hd1 as (? & ? & -> & -> & Hc1).
  apply g_make_draw_list_spec in Hd2 as (? & ? & -> & -> & Hc2).
  simpl.
  pose proof (classifies_length _ _ _ _ _ Hc1) as Hl1.
  pose proof (classifies_length _ _ _ _ _ Hc2) as Hl2.
  rewrite Hl1, Hl2, !Nat.eqb_refl. simpl.
  intros [= <-]. simpl. done.
Qed.

End Classification.

(** ** Flag words *)

Section FlagFacts.

Lemma testbit_flag k n : 0 <= k -> Z.testbit (Z.shiftl 1 k) n = (k =? n).
Proof. intros Hk. rewrite Z.shiftl_1_l. by apply Z.pow2_bits_eqb. Qed.

Lemma has_flag_testbit f k : 0 <= k -> has_flag f (Z.shiftl 1 k) = Z.testbit f k.
Proof.
  intros Hk. unfold has_flag.
  assert (Hland : Z.land f (Z.shiftl 1 k) = if Z.testbit f k then Z.shiftl 1 k else 0).
  { apply Z.bits_inj'. intros n Hn.
    rewrite Z.land_spec, testbit_flag by done.
    destruct (Z.eqb_spec k n) as [-> | Hne].
    - rewrite andb_true_r. destruct (Z.testbit f n) eqn:Hb.
      + rewrite testbit_flag by done. by rewrite Z.eqb_refl.
      + by rewrite Z.bits_0.
    - rewrite andb_false_r. destruct (Z.testbit f k).
      + rewrite testbit_flag by done. by apply Z.eqb_neq in Hne as ->.
      + by rewrite Z.bits_0. }
  rewrite Hland. destruct (Z.testbit f k); [| done].
  rewrite Z.shiftl_1_l.
  destruct (Z.eqb_spec (2 ^ k) 0) as [Hz |]; [| done].
  pose proof (Z.pow_pos_nonneg 2 k). lia.
Qed.

Lemma testbit_set_flag f k n :
  0 <= k -> Z.testbit (set_flag f (Z.shiftl 1 k)) n = Z.testbit f n || (k =? n).
Proof. intros Hk. unfold set_flag. by rewrite Z.lor_spec, testbit_flag. Qed.

Lemma testbit_clear_flag f k n :
  0 <= k -> 0 <= n ->
  Z.testbit (clear_flag f (Z.shiftl 1 k)) n = Z.testbit f n && negb (k =? n).
Proof.
  intros Hk Hn. unfold clear_flag.
  by rewrite Z.land_spec, Z.lnot_spec, testbit_flag.
Qed.

End FlagFacts.

(** ** Zombies *)

Section Zombie.

Context `{Scalar} `{!PFMath} `{!GameEnv} `{EntityFlagBits} `{Event.EventTypes}
        `{SDLClock} `{GameConsts}.
Implicit Types (g : gamestate) (h : gmap Z entity) (e : entity).

Lemma zombie_flags_zombified f : flag_bits_wf -> zombified (zombie_flags f).
Proof.
  intros [Hnd Hrange].
  repeat (apply Forall_cons in Hrange as [[? _] Hrange]).
  unfold zombified, zombie_flags,
    ENTITY_FLAG_SELECTABLE, ENTITY_FLAG_COLLISION, ENTITY_FLAG_COMBATABLE,
    ENTITY_FLAG_ANIMATED, ENTITY_FLAG_INVISIBLE, ENTITY_FLAG_STATIC,
    ENTITY_FLAG_ZOMBIE.
  rewrite !has_flag_testbit by assumption.
  rewrite !testbit_set_flag by assumption.
  rewrite !testbit_clear_flag by assumption.
  repeat (apply NoDup_cons in Hnd as [? Hnd]).
  repeat match goal with
  | Hn : _ ∉ _ :: _ |- _ => apply not_elem_of_cons in Hn as [? ?]
  end.
  repeat match goal with
  | Hne : ?a <> ?b |- context [Z.eqb ?a ?b] =>
    rewrite (proj2 (Z.eqb_neq a b) Hne)
  | Hne : ?a <> ?b |- context [Z.eqb ?b ?a] =>
    rewrite (proj2 (Z.eqb_neq b a) (not_eq_sym Hne))
  end.
  rewrite !Z.eqb_refl. simpl.
  rewrite ?andb_false_r, ?orb_true_r. done.
Qed.

Lemma G_Zombiefy_flags ent g h g1 h1 :
  G_Zombiefy ent g h = Some (g1, h1) ->
  exists e, h !! ent = Some e /\
    h1 = <[ent := set_flags e (zombie_flags (flags e))]> h.
Proof.
  unfold G_Zombiefy. destruct (h !! ent) as [e|]; [| done].
  destruct (if negb _ then _ else _) as [d|]; [| done].
  intros [= <- <-]. by exists e.
Qed.

Lemma zombie_flags_again f : flag_bits_wf -> zombie_flags (zombie_flags f) = zombie_flags f.
Proof.
  intros [_ Hrange].
  repeat (apply Forall_cons in Hrange as [[? _] Hrange]).
  apply Z.bits_inj'. intros n Hn.
  unfold zombie_flags,
    ENTITY_FLAG_SELECTABLE, ENTITY_FLAG_COLLISION, ENTITY_FLAG_COMBATABLE,
    ENTITY_FLAG_ANIMATED, ENTITY_FLAG_INVISIBLE, ENTITY_FLAG_STATIC,
    ENTITY_FLAG_ZOMBIE.
  rewrite !testbit_set_flag by assumption.
  rewrite !testbit_clear_flag by assumption.
  rewrite !testbit_set_flag by assumption.
  rewrite !testbit_clear_flag by assumption.
  destruct (Z.testbit f n), (bit_SELECTABLE =? n), (bit_COLLISION =? n),
    (bit_COMBATABLE =? n), (bit_ANIMATED =? n), (bit_INVISIBLE =? n),
    (bit_STATIC =? n), (bit_ZOMBIE =? n); reflexivity.
Qed.

(** X3. [G_Zombiefy] leaves the entity with the flag word of a zombie
    (not selectable, collidable, combatable or animated; invisible,
    static and zombie), and a second [G_Zombiefy] of the same entity
    returns and changes nothing: the first call has made the entity
    static, so the second skips the lookup in [s_gs.dynamic] and its
    assertion, and the flag word is already the one it writes. *)
Theorem zombiefy_twice_is_once ent g h g1 h1 :
  flag_bits_wf ->
  G_Zombiefy ent g h = Some (g1, h1) ->
  (exists e1, h1 !! ent = Some e1 /\ zombified (flags e1)) /\
  G_Zombiefy ent g1 h1 = Some (g1, h1).
Proof.
  intros Hwf Hz.
  apply G_Zombiefy_flags in Hz as Hheap. destruct Hheap as (e & He & ->).
  pose proof (zombie_flags_zombified (flags e) Hwf) as Hzf.
  set (e1 := set_flags e (zombie_flags (flags e))) in *.
  split.
  { exists e1. split; [apply lookup_insert_eq | exact Hzf]. }
  destruct Hzf as (_ & _ & _ & _ & _ & Hstatic & _).
  unfold G_Zombiefy. rewrite lookup_insert_eq.
  change (flags e1) with (zombie_flags (flags e)).
  rewrite Hstatic. simpl.
  fold (zombie_flags (zombie_flags (flags e))).
  rewrite (zombie_flags_again _ Hwf).
  f_equal. f_equal.
  - by destruct g1.
  - rewrite insert_insert_eq. reflexivity.
Qed.

(** One loop iteration of [G_Update] leaves an entity alone, and out of
    both visibility vectors, when it is neither animated nor collidable. *)
Lemma update_entity_skips ss curr ent e vis lvis h q clk vis' lvis' h' q' clk' :
  h !! ent = Some e ->
  has_flag (flags e) ENTITY_FLAG_ANIMATED = false ->
  has_flag (flags e) ENTITY_FLAG_COLLISION = false ->
  ent ∉ vis -> ent ∉ lvis ->
  update_entity ss curr (vis, lvis, h, q, clk) = Some (vis', lvis', h', q', clk') ->
  h' !! ent = Some e /\ (ent ∉ vis') /\ (ent ∉ lvis').
Proof.
  intros He Hanim Hcol Hv Hlv. unfold update_entity.
  destruct (h !! curr) as [e0|] eqn:Hcurr; [| done].
  destruct (decide (curr = ent)) as [-> | Hne].
  - rewrite He in Hcurr. injection Hcurr as <-.
    rewrite Hanim, andb_false_r, Hcol. simpl.
    intros [= <- <- <- <- <-]. by rewrite lookup_insert_eq.
  - destruct (if _ && _ then _ else _) as [[[e1 q1] clk1]|]; [| done].
    assert (Hkeep : (<[curr := e1]> h) !! ent = Some e)
      by (by rewrite lookup_insert_ne).
    destruct (negb (has_flag (flags e1) ENTITY_FLAG_COLLISION)).
    { intros [= <- <- <- <- <-]. done. }
    destruct (has_flag (flags e1) ENTITY_FLAG_INVISIBLE).
    { intros [= <- <- <- <- <-]. done. }
    intros [= <- <- <- <- <-]. split; [done |].
    split.
    + destruct (cam_frustum_hit e1); [| done].
      rewrite elem_of_app, list_elem_of_singleton. intros [? | ?]; done.
    + destruct (light_frustum_hit e1); [| done].
      rewrite elem_of_app, list_elem_of_singleton. intros [? | ?]; done.
Qed.

Lemma update_entities_skips ss slots ent e vis lvis h q clk vis' lvis' h' q' clk' :
  h !! ent = Some e ->
  has_flag (flags e) ENTITY_FLAG_ANIMATED = false ->
  has_flag (flags e) ENTITY_FLAG_COLLISION = false ->
  ent ∉ vis -> ent ∉ lvis ->
  update_entities ss slots (vis, lvis, h, q, clk) = Some (vis', lvis', h', q', clk') ->
  h' !! ent = Some e /\ (ent ∉ vis') /\ (ent ∉ lvis').
Proof.
  intros He0 Hanim Hcol. revert vis lvis h q clk He0.
  induction slots as [| [k p] rest IH]; intros vis lvis h q clk He Hv Hlv;
    cbn [update_entities].
  { intros [= <- <- <- <- <-]. repeat split; assumption. }
  destruct (update_entity ss p (vis, lvis, h, q, clk))
    as [[[[[vis1 lvis1] h1] q1] clk1]|] eqn:Hstep; [| done].
  destruct (update_entity_skips _ _ _ _ _ _ _ _ _ _ _ _ _ _ He Hanim Hcol Hv Hlv Hstep)
    as (He1 & Hv1 & Hlv1).
  by apply IH.
Qed.

Lemma G_Update_skips ent e g h q clk g' h' q' clk' :
  h !! ent = Some e ->
  has_flag (flags e) ENTITY_FLAG_ANIMATED = false ->
  has_flag (flags e) ENTITY_FLAG_COLLISION = false ->
  G_Update g h q clk = Some (g', h', q', clk') ->
  h' !! ent = Some e /\ (ent ∉ gs_visible g') /\ (ent ∉ gs_light_visible g').
Proof.
  intros He Hanim Hcol. unfold G_Update.
  destruct (update_entities _ _ _) as [[[[[vis1 lvis1] h1] q1] clk1]|] eqn:Hupd;
    [| done].
  intros [= <- <- <- <-]. simpl.
  eapply update_entities_skips; try eassumption; apply not_elem_of_nil.
Qed.

Lemma G_Update_times_skips n ent e g h q clk g' h' q' clk' :
  h !! ent = Some e ->
  has_flag (flags e) ENTITY_FLAG_ANIMATED = false ->
  has_flag (flags e) ENTITY_FLAG_COLLISION = false ->
  G_Update_times (S n) (g, h, q, clk) = Some (g', h', q', clk') ->
  h' !! ent = Some e /\ (ent ∉ gs_visible g') /\ (ent ∉ gs_light_visible g').
Proof.
  intros He0 Hanim Hcol. revert g h q clk He0.
  induction n as [| n IH]; intros g h q clk He; cbn [G_Update_times].
  - destruct (G_Update g h q clk) as [[[[g1 h1] q1] clk1]|] eqn:Hupd; [| done].
    intros [= <- <- <- <-]. by eapply G_Update_skips.
  - destruct (G_Update g h q clk) as [[[[g1 h1] q1] clk1]|] eqn:Hupd; [| done].
    destruct (G_Update_skips _ _ _ _ _ _ _ _ _ _ He Hanim Hcol Hupd) as (He1 & _).
    intros Hrest. by apply (IH g1 h1 q1 clk1).
Qed.

(** C10. After [G_Zombiefy ent] returns, the selectable, collision,
    combatable and animated flags of [ent] are clear and its invisible,
    static and zombie flags are set. From then on every [G_Update] leaves
    [ent] out of the visible and of the light-visible set, and leaves its
    flags as they are. *)
Theorem zombie_never_becomes_visible (ent : Z) (g g1 : gamestate)
    (h h1 : gmap Z entity) :
  flag_bits_wf ->
  G_Zombiefy ent g h = Some (g1, h1) ->
  (exists e1, h1 !! ent = Some e1 /\ zombified (flags e1)) /\
  (forall n q clk g2 h2 q2 clk2,
     G_Update_times (S n) (g1, h1, q, clk) = Some (g2, h2, q2, clk2) ->
     (ent ∉ gs_visible g2) /\ (ent ∉ gs_light_visible g2) /\
     (exists e2, h2 !! ent = Some e2 /\ zombified (flags e2))).
Proof.
  intros Hwf Hz.
  apply G_Zombiefy_flags in Hz as (e & He & ->).
  pose proof (zombie_flags_zombified (flags e) Hwf) as Hzf.
  set (e1 := set_flags e (zombie_flags (flags e))).
  assert (He1 : (<[ent := e1]> h) !! ent = Some e1) by apply lookup_insert_eq.
  split; [by exists e1 |].
  intros n q clk g2 h2 q2 clk2 Hupd.
  destruct Hzf as (Hsel & Hcol & Hcomb & Hanim & Hrest).
  destruct (G_Update_times_skips _ _ _ _ _ _ _ _ _ _ _ He1 Hanim Hcol Hupd)
    as (He2 & Hv & Hlv).
  repeat split; try assumption.
  exists e1. split; [done |]. repeat split; try assumption; apply Hrest.
Qed.

End Zombie.

(** ** Single precision *)

Lemma binary_round_aux_nonneg m e l :
  f32_nonneg (binary_round_aux 24 128 false m e l).
Proof.
  unfold binary_round_aux.
  destruct (shr_fexp 24 128 m e l) as [mrs' e'].
  destruct (shr_fexp 24 128 _ e' loc_Exact) as [mrs'' e''].
  destruct (shr_m mrs''); simpl; try done.
  destruct (e'' <=? 128 - 24); done.
Qed.

Lemma f32_of_Z_nonneg z : 0 <= z -> f32_nonneg (f32_of_Z z).
Proof.
  intros Hz. unfold f32_of_Z, binary_normalize.
  destruct z as [| p | p]; [done | | lia].
  unfold binary_round. destruct (shl_align _ _ _) as [mz ez].
  apply binary_round_aux_nonneg.
Qed.

Lemma f32_div_nonneg x y : f32_nonneg x -> f32_nonneg y -> f32_nonneg (f32_div x y).
Proof.
  unfold f32_div, SFdiv.
  destruct x as [sx | sx | | sx mx ex], y as [sy | sy | | sy my ey]; simpl;
    intros Hx Hy; subst; try done.
  destruct (SFdiv_core_binary 24 128 (Z.pos mx) ex (Z.pos my) ey) as [[mz ez] lz].
  apply binary_round_aux_nonneg.
Qed.

(** Nothing that is not negative lies strictly below zero. *)
Lemma f32_gt_zero_l s y : f32_nonneg y -> f32_gt (S754_zero s) y = false.
Proof.
  unfold f32_gt, SFltb, SFcompare.
  destruct y as [sy | sy | | sy my ey]; simpl; try done; by intros ->.
Qed.

Lemma f32_gt_inf_r x : f32_gt x (S754_infinity false) = false.
Proof. unfold f32_gt, SFltb, SFcompare. by destruct x as [| [] | | ]. Qed.

Lemma each_pair_below_1000_spec P :
  each_pair_below_1000 P = true ->
  forall d k, 1 <= d -> 1 <= k -> d * k < 1000 -> P d k = true.
Proof.
  intros Hall d k Hd Hk Hdk.
  assert (Hin : forall n z, 1 <= z <= Z.of_nat n -> In z (map Z.of_nat (seq 1 n))).
  { intros n z Hz. apply in_map_iff. exists (Z.to_nat z). split; [lia |].
    apply in_seq. lia. }
  unfold each_pair_below_1000 in Hall.
  assert (Hd' : 1 <= d <= Z.of_nat 999) by nia.
  pose proof (proj1 (forallb_forall _ _) Hall d (Hin _ d Hd')) as Hrow.
  apply (proj1 (forallb_forall _ _) Hrow k). apply Hin.
  assert (k <= 999 / d) by (apply Z.div_le_lower_bound; lia).
  lia.
Qed.

Lemma small_pairs_checked : each_pair_below_1000 pair_checked = true.
Proof. vm_compute. reflexivity. Qed.

Lemma period_not_passed_small d k :
  1 <= d -> 1 <= k -> d * k < 1000 -> period_passed d k = false.
Proof.
  intros Hd Hk Hdk.
  pose proof (each_pair_below_1000_spec _ small_pairs_checked d k Hd Hk Hdk) as Hp.
  unfold pair_checked in Hp.
  destruct (Z.leb_spec 1000 (d * k)); [lia |].
  by apply negb_true_iff in Hp.
Qed.

(** Before a full frame period has gone by, the test of [A_Update] is
    false: [d / 1000 < 1 / k], that is [d * k < 1000]; for [k = 0] the
    period is infinite. *)
Lemma period_not_passed d k :
  0 <= d -> 0 <= k -> d * k < 1000 -> period_passed d k = false.
Proof.
  intros Hd Hk Hdk. unfold period_passed.
  destruct (Z.eq_dec k 0) as [-> | Hk0].
  { change (f32_div (f32_of_Z 1) (f32_of_Z 0)) with (S754_infinity false).
    apply f32_gt_inf_r. }
  destruct (Z.eq_dec d 0) as [-> | Hd0].
  { change (f32_div (f32_of_Z 0) (f32_of_Z 1000)) with (S754_zero false).
    apply f32_gt_zero_l. apply f32_div_nonneg; apply f32_of_Z_nonneg; lia. }
  apply period_not_passed_small; lia.
Qed.

(** ** Frame advance *)

Section Update.

Context `{Scalar} `{!PFMath} `{EntityFlagBits} `{Event.EventTypes} `{SDLClock}.
Implicit Types (ent : entity) (q : Event.event_queue) (clk : nat).

Lemma frame_elapsed_period_passed (ctx : anim_ctx) now :
  frame_elapsed ctx now = period_passed (elapsed_ticks ctx now) (key_fps ctx).
Proof. reflexivity. Qed.

Lemma elapsed_ticks_range (ctx : anim_ctx) now :
  0 <= elapsed_ticks ctx now < 2 ^ 32.
Proof. unfold elapsed_ticks, u32_sub. apply Z.mod_pos_bound. lia. Qed.

(** C5. While the time elapsed since the current frame started is below
    [1 / key_fps] seconds (in ticks: [elapsed * key_fps < 1000]; a
    [key_fps] of zero makes the period infinite), [A_Update] changes
    nothing: the entity with its animation context and the event queue
    come back as they were, only the clock has been read once. In
    particular this holds with zero elapsed time. *)
Theorem A_Update_idle_before_period ent q clk :
  0 <= key_fps (ent_anim_ctx ent) ->
  elapsed_ticks (ent_anim_ctx ent) (fst (SDL_GetTicks clk))
    * key_fps (ent_anim_ctx ent) < 1000 ->
  A_Update ent q clk = Some (ent, q, S clk).
Proof.
  intros Hfps Hearly. unfold A_Update.
  destruct (SDL_GetTicks clk) as [now clk1] eqn:Hnow.
  assert (clk1 = S clk) as -> by (unfold SDL_GetTicks in Hnow; congruence).
  simpl in Hearly.
  rewrite frame_elapsed_period_passed.
  rewrite period_not_passed; [done | | done | done].
  apply elapsed_ticks_range.
Qed.

Lemma a_clip_for_name_loop_found n i clips nm j :
  a_clip_for_name_loop n i clips nm = Some (Some j) ->
  exists c, arr_get clips j = Some c /\ name c = nm.
Proof.
  revert i. induction n as [| n IH]; intros i; simpl; [done |].
  destruct (arr_get clips i) as [curr|] eqn:Hi; [| done].
  destruct (String.eqb_spec (name curr) nm) as [Heq | Hne].
  - intros [= <-]. by exists curr.
  - apply IH.
Qed.

(** [A_InitCtx] leaves [idle] pointing at the clip found under its name. *)
Lemma A_InitCtx_idle ent idle_clip fps clk ent' clk' :
  A_InitCtx ent idle_clip fps clk = Some (ent', clk') ->
  exists idl,
    arr_get (anims (anim_private ent')) (idle (ent_anim_ctx ent')) = Some idl /\
    a_clip_for_name ent' (name idl) = Some (Some (idle (ent_anim_ctx ent'))) /\
    active (ent_anim_ctx ent') = idle (ent_anim_ctx ent') /\
    mode (ent_anim_ctx ent') = ANIM_MODE_LOOP /\
    curr_frame (ent_anim_ctx ent') = 0.
Proof.
  unfold A_InitCtx.
  destruct (a_clip_for_name ent idle_clip) as [[j|]|] eqn:Hfind; try done.
  unfold A_SetActiveClip. unfold a_clip_for_name in *. simpl.
  rewrite Hfind. simpl. intros [= <- <-]. simpl.
  apply a_clip_for_name_loop_found in Hfind as Hc.
  destruct Hc as (c & Hc & Hname).
  exists c. rewrite Hname. done.
Qed.

(** C4. When [A_Update] sees more than one frame period elapsed, on a
    context that is ready to advance, it moves [curr_frame] one step
    forward modulo the clip length and restarts the frame timer. If that
    wraps to frame 0 it posts exactly one [EVENT_ANIM_CYCLE_FINISHED] for
    the entity; in the two once-modes it posts [EVENT_ANIM_FINISHED] after
    it and makes the idle clip active in loop mode from frame 0; only the
    once-then-hide mode sets the invisible flag. Nothing else changes. *)
Theorem A_Update_advances_frame ent q clk act idl :
  ctx_ready ent act idl ->
  frame_elapsed (ent_anim_ctx ent) (fst (SDL_GetTicks clk)) = true ->
  let ctx := ent_anim_ctx ent in
  let now := fst (SDL_GetTicks clk) in
  let later := fst (SDL_GetTicks (S clk)) in
  let frame := (curr_frame ctx + 1) mod num_frames act in
  let advanced :=
    MkCtx (active ctx) (idle ctx) (mode ctx) (key_fps ctx) frame now in
  let restarted :=
    MkCtx (idle ctx) (idle ctx) ANIM_MODE_LOOP (key_fps ctx) 0 later in
  let cycle := Ev EVENT_ANIM_CYCLE_FINISHED 0 ES_ENGINE (uid ent) in
  let finished := Ev EVENT_ANIM_FINISHED 0 ES_ENGINE (uid ent) in
  A_Update ent q clk =
    if frame =? 0 then
      match mode ctx with
      | ANIM_MODE_LOOP =>
        Some (set_anim_ctx ent advanced, q ++ [cycle], S clk)
      | ANIM_MODE_ONCE =>
        Some (set_anim_ctx ent restarted, q ++ [cycle; finished], S (S clk))
      | ANIM_MODE_ONCE_HIDE_ON_FINISH =>
        Some (set_anim_ctx
                (set_flags ent (set_flag (flags ent) ENTITY_FLAG_INVISIBLE))
                restarted,
              q ++ [cycle; finished], S (S clk))
      end
    else Some (set_anim_ctx ent advanced, q, S clk).
Proof.
  intros (Hact & Hn & Hframe & Hidl & Hfind) Helapsed. cbv zeta.
  unfold A_Update. unfold SDL_GetTicks at 1. cbv beta iota zeta.
  unfold SDL_GetTicks in Helapsed. simpl in Helapsed. rewrite Helapsed.
  rewrite Hact.
  destruct (Z.eqb_spec (num_frames act) 0) as [Hz | _]; [lia |].
  rewrite (Z.mod_small (curr_frame (ent_anim_ctx ent) + 1) (2 ^ 32)) by lia.
  destruct (Z.eqb_spec ((curr_frame (ent_anim_ctx ent) + 1) mod num_frames act) 0)
    as [Hzero | Hnz]; [| reflexivity].
  rewrite Hzero. simpl.
  unfold E_Entity_Notify, queue_event_push.
  destruct (mode (ent_anim_ctx ent)); [reflexivity | |].
  - rewrite Hidl. unfold A_SetActiveClip. simpl.
    unfold a_clip_for_name in *. simpl. rewrite Hfind.
    rewrite <- app_assoc. reflexivity.
  - rewrite Hidl. unfold A_SetActiveClip. simpl.
    unfold a_clip_for_name in *. simpl. rewrite Hfind.
    rewrite <- app_assoc. reflexivity.
Qed.

End Update.

(** ** Joint walks *)

Section Walk.

Context `{Scalar} `{!PFMath}.
Implicit Types (skl : skeleton) (sqts : list SQT) (acc m : mat4x4_t).

(** One more unit of fuel never changes a result. *)
Lemma a_walk_loop_fuel_S fuel skl sqts j acc r :
  a_walk_loop fuel skl sqts j acc = Ret r ->
  a_walk_loop (S fuel) skl sqts j acc = Ret r.
Proof.
  revert j acc r. induction fuel as [| fuel IH]; intros j acc r.
  - simpl. destruct (j >=? 0); [done |]. done.
  - intros Hrun. cbn [a_walk_loop] in Hrun |- *.
    destruct (j >=? 0); [| done].
    destruct (arr_get (joints skl) j) as [jnt|]; [| done].
    destruct (arr_get sqts j) as [sqt|]; [| done].
    destruct (a_walk_loop fuel skl sqts (parent_idx jnt) _) as [[m k]| |] eqn:Hrec;
      try done.
    apply IH in Hrec. cbn [a_walk_loop] in Hrec. by rewrite Hrec.
Qed.

Lemma a_walk_loop_fuel_le fuel fuel' skl sqts j acc r :
  (fuel <= fuel')%nat ->
  a_walk_loop fuel skl sqts j acc = Ret r ->
  a_walk_loop fuel' skl sqts j acc = Ret r.
Proof.
  induction 1 as [| fuel' Hle IH]; [done |].
  intros Hrun. by apply a_walk_loop_fuel_S, IH.
Qed.

(** Termination: a chain that ends within [n] steps is walked in at most
    [n] iterations, whatever the accumulator. *)
Lemma a_walk_loop_terminates n skl sqts j acc :
  (length (joints skl) <= length sqts)%nat ->
  chain_ends n skl j = true ->
  exists m k, a_walk_loop n skl sqts j acc = Ret (m, k) /\ (k <= n)%nat.
Proof.
  intros Hlen. revert j acc. induction n as [| n IH]; intros j acc; simpl.
  - destruct (Z.ltb_spec j 0), (Z.geb_spec j 0); try lia; try done.
    intros _. exists acc, O. done.
  - destruct (Z.ltb_spec j 0), (Z.geb_spec j 0); try lia.
    { intros _. exists acc, O. split; [done | lia]. }
    destruct (arr_get (joints skl) j) as [jnt|] eqn:Hj; [| done].
    intros Hchain.
    destruct (arr_get_in_range sqts j) as [sqt ->].
    { apply arr_get_Some_range in Hj. lia. }
    destruct (IH (parent_idx jnt) (PFM_Mat4x4_Mult4x4 (a_mat_from_sqt sqt) acc) Hchain)
      as (m & k & -> & Hk).
    exists m, (S k). split; [done | lia].
Qed.

(** The walk multiplies the local transforms of the chain onto the
    accumulator, the joint it starts from innermost and the root
    outermost. *)
Lemma a_walk_loop_product fuel skl sqts j acc m k :
  a_walk_loop fuel skl sqts j acc = Ret (m, k) ->
  length (joint_chain k skl j) = k /\
  m = fold_right PFM_Mat4x4_Mult4x4 acc
        (map (local_of sqts) (rev (joint_chain k skl j))).
Proof.
  revert j acc m k. induction fuel as [| fuel IH]; intros j acc m k; simpl.
  - destruct (Z.geb_spec j 0) as [Hj | Hj]; [done |].
    intros [= <- <-]. simpl. by destruct (Z.ltb_spec j 0); [| lia].
  - destruct (Z.geb_spec j 0) as [Hj | Hj].
    + destruct (arr_get (joints skl) j) as [jnt |] eqn:Hjnt; [| done].
      destruct (arr_get sqts j) as [sqt |] eqn:Hsqt; [| done].
      destruct (a_walk_loop fuel skl sqts (parent_idx jnt) _)
        as [[m' k'] | |] eqn:Hrec; try done.
      intros [= <- <-]. apply IH in Hrec as [Hlen ->].
      cbn [joint_chain]. destruct (Z.ltb_spec j 0); [lia |].
      rewrite Hjnt. simpl. split; [by rewrite Hlen |].
      assert (Hloc : local_of sqts j = a_mat_from_sqt sqt)
        by (unfold local_of; rewrite Hsqt; reflexivity).
      rewrite map_app, fold_right_app. simpl. by rewrite Hloc.
    + intros [= <- <-]. simpl. by destruct (Z.ltb_spec j 0); [| lia].
Qed.

(** The number of iterations does not depend on the accumulator. *)
Lemma a_walk_loop_count fuel skl sqts j acc acc' m k :
  a_walk_loop fuel skl sqts j acc = Ret (m, k) ->
  exists m', a_walk_loop fuel skl sqts j acc' = Ret (m', k).
Proof.
  revert j acc acc' m k. induction fuel as [| fuel IH]; intros j acc acc' m k; simpl.
  - destruct (j >=? 0); [done |]. intros [= <- <-]. by eexists.
  - destruct (j >=? 0); [| intros [= <- <-]; by eexists].
    destruct (arr_get (joints skl) j) as [jnt |]; [| done].
    destruct (arr_get sqts j) as [sqt |]; [| done].
    destruct (a_walk_loop fuel skl sqts (parent_idx jnt)
                (PFM_Mat4x4_Mult4x4 (a_mat_from_sqt sqt) acc))
      as [[m1 k1] | |] eqn:Hrec; try done.
    intros [= <- <-].
    destruct (IH _ _ (PFM_Mat4x4_Mult4x4 (a_mat_from_sqt sqt) acc') _ _ Hrec)
      as [m' ->].
    by eexists.
Qed.

End Walk.

(** ** Termination of the joint walks *)

Section Termination.

Context `{Scalar} `{!PFMath} `{EntityFlagBits} `{EventTypes} `{SDLClock}.

(** C9. In a skeleton whose parent chains all end within [num_joints]
    steps, the upward walks of [a_make_bind_mat] and of [a_make_pose_mat]
    terminate for every joint after at most [num_joints] iterations: run
    with [num_joints] units of fuel (or more) they return, and the
    iteration count is at most [num_joints]. *)
Theorem joint_walks_terminate (ent : entity) (skl : skeleton)
    (sample : anim_sample) (j : Z) (fuel : nat) :
  skeleton_acyclic skl ->
  (length (joints skl) <= length (bind_sqts skl))%nat ->
  (length (joints skl) <= length (local_joint_poses sample))%nat ->
  curr_sample ent = Some sample ->
  0 <= j < num_joints skl ->
  (Z.to_nat (num_joints skl) <= fuel)%nat ->
  (exists m k, a_make_bind_mat fuel j skl = Ret (m, k)
               /\ Z.of_nat k <= num_joints skl) /\
  (exists m k, a_make_pose_mat fuel ent j skl = Ret (m, k)
               /\ Z.of_nat k <= num_joints skl).
Proof.
  intros Hacyclic Hbind Hpose Hsample Hj Hfuel.
  specialize (Hacyclic j Hj).
  split.
  - destruct (a_walk_loop_terminates _ skl (bind_sqts skl) j PFM_Mat4x4_Identity
                Hbind Hacyclic) as (m & k & Hrun & Hk).
    exists m, k. split; [| lia].
    unfold a_make_bind_mat. by eapply a_walk_loop_fuel_le.
  - destruct (a_walk_loop_terminates _ skl (local_joint_poses sample) j
                PFM_Mat4x4_Identity Hpose Hacyclic) as (m & k & Hrun & Hk).
    exists m, k. split; [| lia].
    unfold a_make_pose_mat. rewrite Hsample. by eapply a_walk_loop_fuel_le.
Qed.

End Termination.

(** ** Pose matrices *)

Section PoseLaw.

Context `{Scalar} `{!PFMath} `{EntityFlagBits} `{EventTypes} `{SDLClock}.

(** C6, as the code computes it. The local transform of a joint is
    [T * (R * S)], the product translation times rotation times scale.
    Whenever the upward walk of [a_make_pose_mat] returns for a joint [j],
    its result is the product of the local transforms along the parent
    chain of [j], the root leftmost, nested to the right and closed by
    the identity, and the walk has made one iteration per joint of the
    chain. If [j] is a root (negative parent index, [-1] in the asset
    format) this is its own local transform times the identity; otherwise
    the walk also returns for the parent, and the factors of the pose
    matrix of [j] are those of the parent's pose matrix followed by the
    local transform of [j]. No law of the scalar arithmetic is assumed:
    the statement holds for the engine's floats. *)
Theorem pose_matrix_is_chain_product (ent : entity) (skl : skeleton)
    (sample : anim_sample) (fuel : nat) (j : Z) (jnt : joint) (sqt : SQT)
    (m : mat4x4_t) (k : nat) :
  curr_sample ent = Some sample ->
  arr_get (joints skl) j = Some jnt ->
  arr_get (local_joint_poses sample) j = Some sqt ->
  a_make_pose_mat fuel ent j skl = Ret (m, k) ->
  let local := local_of (local_joint_poses sample) in
  a_mat_from_sqt sqt =
    PFM_Mat4x4_Mult4x4
      (PFM_Mat4x4_MakeTrans (vx (trans sqt)) (vy (trans sqt)) (vz (trans sqt)))
      (PFM_Mat4x4_Mult4x4
         (PFM_Mat4x4_RotFromQuat (quat_rotation sqt))
         (PFM_Mat4x4_MakeScale (vx (scale sqt)) (vy (scale sqt)) (vz (scale sqt))))
  /\
  length (joint_chain k skl j) = k /\
  m = mat_product (map local (rev (joint_chain k skl j))) /\
  (if parent_idx jnt <? 0 then
     m = PFM_Mat4x4_Mult4x4 (a_mat_from_sqt sqt) PFM_Mat4x4_Identity /\
     k = 1%nat
   else
     exists parent_pose k',
       a_make_pose_mat fuel ent (parent_idx jnt) skl = Ret (parent_pose, k') /\
       k = S k' /\
       parent_pose = mat_product (map local (rev (joint_chain k' skl (parent_idx jnt)))) /\
       m = mat_product (map local (rev (joint_chain k' skl (parent_idx jnt)))
                        ++ [a_mat_from_sqt sqt])).
Proof.
  intros Hsample Hj Hsqt Hrun local. split; [reflexivity |].
  unfold a_make_pose_mat in *. rewrite Hsample in *.
  pose proof (arr_get_Some_range _ _ _ Hj) as Hrange.
  pose proof (a_walk_loop_product _ _ _ _ _ _ _ Hrun) as [Hlen Hm].
  split; [exact Hlen |]. split; [exact Hm |].
  destruct fuel as [| fuel]; simpl in Hrun.
  { destruct (Z.geb_spec j 0); [done | lia]. }
  destruct (Z.geb_spec j 0); [| lia].
  rewrite Hj, Hsqt in Hrun.
  destruct (a_walk_loop fuel skl (local_joint_poses sample) (parent_idx jnt) _)
    as [[m' k'] | |] eqn:Hparent; try done.
  injection Hrun as <- <-.
  destruct (Z.ltb_spec (parent_idx jnt) 0) as [Hroot | Hchild].
  - destruct fuel; simpl in Hparent;
      (destruct (Z.geb_spec (parent_idx jnt) 0); [lia |]);
      by injection Hparent as <- <-.
  - pose proof (a_walk_loop_product _ _ _ _ _ _ _ Hparent) as [_ Hm'].
    destruct (a_walk_loop_count fuel skl (local_joint_poses sample) (parent_idx jnt)
                _ PFM_Mat4x4_Identity _ _ Hparent) as [mp Hfromid].
    pose proof (a_walk_loop_product _ _ _ _ _ _ _ Hfromid) as [_ Hmp].
    exists mp, k'. split; [by apply a_walk_loop_fuel_S |].
    split; [reflexivity |]. split; [exact Hmp |].
    unfold mat_product. rewrite fold_right_app. exact Hm'.
Qed.

End PoseLaw.

(** ** Event dispatch *)

(** The handler key keeps the receiver id and the event type apart. *)
Lemma e_key_injective id ty id' ty' :
  0 <= id < 2 ^ 32 -> 0 <= ty < 2 ^ 32 ->
  0 <= id' < 2 ^ 32 -> 0 <= ty' < 2 ^ 32 ->
  e_key id ty = e_key id' ty' -> id = id' /\ ty = ty'.
Proof.
  assert (Hkey : forall a b, 0 <= a < 2 ^ 32 -> 0 <= b < 2 ^ 32 ->
            Z.shiftr (e_key a b) 32 = a /\ Z.land (e_key a b) (Z.ones 32) = b).
  { intros a b Ha Hb. unfold e_key.
    rewrite Z.shiftl_mul_pow2 by lia.
    rewrite (Z.mod_small (a * 2 ^ 32)) by lia.
    rewrite (Z.mod_small b) by lia.
    rewrite <- Z.shiftl_mul_pow2 by lia. split.
    - rewrite Z.shiftr_lor, Z.shiftr_shiftl_l by lia.
      rewrite Z.sub_diag, Z.shiftl_0_r.
      rewrite (Z.shiftr_div_pow2 b) by lia.
      rewrite Z.div_small by lia. apply Z.lor_0_r.
    - rewrite Z.land_lor_distr_l, !Z.land_ones by lia.
      rewrite Z.shiftl_mul_pow2 by lia.
      rewrite Z.mod_mul by lia. rewrite Z.mod_small by lia. apply Z.lor_0_l. }
  intros Hid Hty Hid' Hty' Heq.
  destruct (Hkey id ty Hid Hty) as [H1 H2].
  destruct (Hkey id' ty' Hid' Hty') as [H1' H2'].
  rewrite Heq in H1, H2. split; congruence.
Qed.

Section Bus.

Context {St : Type} `{Handlers St} `{EventTypes}.
Implicit Types (table : gmap Z (list handler_desc)) (w : St * event_queue)
               (ev : event) (tr : list invocation).

(** Registration appends: the new handler comes last under its key, and no
    other key is touched. *)
Lemma e_register_handler_appends key desc table :
  let table' := snd (e_register_handler key desc table) in
  fst (e_register_handler key desc table) = true /\
  table' !! key = Some (default [] (table !! key) ++ [desc]) /\
  (forall key', key' <> key -> table' !! key' = table !! key').
Proof.
  unfold e_register_handler.
  destruct (table !! key) as [vec|] eqn:Hk; simpl;
    (split; [done |]); (split; [by rewrite lookup_insert_eq |]);
    intros key' Hne; by rewrite lookup_insert_ne.
Qed.









End Bus.

(** ** Scene loading *)

Section SceneLoad.

Context `{Scalar} `{!PFMath} `{!GameEnv} `{EntityFlagBits} `{EventTypes}
        `{SDLClock} `{GameConsts} `{!SceneEnv}.
Implicit Types (w : gamestate * gmap Z entity) (s : list string).

(** [scene_load_faction] returns [true] exactly on a complete faction
    record, after one [G_AddFaction] call with the name and the colour
    of the record; when it returns [false] the world is as it was. *)
Lemma scene_load_faction_reads s w ok s' w' :
  scene_load_faction s w = Some (ok, s', w') ->
  if ok then
    exists nm color,
      faction_record s nm color s' /\
      w' = (snd (G_AddFaction nm color (fst w)), snd w)
  else no_faction_record s /\ w' = w.
Proof.
  unfold scene_load_faction, no_faction_record, faction_record.
  destruct (READ_LINE s) as [[line s1]|] eqn:Hline.
  2: { intros [= <- <- <-]. split; [| done].
       intros nm color s2 (l & s3 & r & a & Hl & _). done. }
  destruct (sscanf_faction line) as [ret nm] eqn:Hscan.
  destruct (Z.eqb_spec ret 0) as [-> | Hret].
  { intros [= <- <- <-]. split; [| done].
    intros nm' color s2 (l & s3 & r & a & [= <- <-] & Hs & Hr & _).
    rewrite Hscan in Hs. by injection Hs as <- _. }
  destruct (scene_parse_att s1 false) as [[[att s2]|]|] eqn:Hatt; [ | | done].
  - destruct (type att) eqn:Hty, (val att) eqn:Hval; intros [= <- <- <-];
      try (split; [| done];
           intros nm' color s4 (l & s3 & r & a & [= <- <-] & _ & _ & Ha & Hty' & Hval');
           rewrite Hatt in Ha; injection Ha as <- <-; congruence).
    exists nm, v. split; [| done].
    by exists line, s1, ret, att.
  - intros [= <- <- <-]. split; [| done].
    intros nm' color s4 (l & s3 & r & a & [= <- <-] & _ & _ & Ha & _).
    rewrite Hatt in Ha. done.
Qed.

(** The faction loop: when it returns [true] all [n] records have been
    read; when it returns [false], the records before the one that did
    not load have been read and their factions added. *)
Lemma load_factions_reads n s w ok s' w' :
  load_records scene_load_faction n s w = Some (ok, s', w') ->
  snd w' = snd w /\
  if ok then factions_loaded n s (fst w) s' (fst w')
  else exists k s2,
         (k < n)%nat /\ factions_loaded k s (fst w) s2 (fst w') /\
         no_faction_record s2.
Proof.
  revert s w. induction n as [| n IH]; intros s w; simpl.
  { intros [= <- <- <-]. split; [done | constructor]. }
  destruct (scene_load_faction s w) as [[[[] s1] w1]|] eqn:Hone; [| | done].
  - apply scene_load_faction_reads in Hone as (nm & color & Hrec & ->).
    intros Hrest. apply IH in Hrest as [Hh Hrest]. split; [done |].
    destruct ok.
    + by eapply factions_loaded_S.
    + destruct Hrest as (k & s2 & Hk & Hloaded & Hno).
      exists (S k), s2. split; [lia |]. split; [| done].
      by eapply factions_loaded_S.
  - apply scene_load_faction_reads in Hone as [Hno ->].
    intros [= <- <- <-]. split; [done |].
    exists 0%nat, s. split; [lia |]. split; [constructor | done].
Qed.

(** [scene_load_entity] returns [true] exactly on a complete entity
    record whose construction returned [true]; when it returns [false],
    either no complete record stands at the head of the stream and the
    world is as it was, or the construction returned [false] and the
    world is as the construction left it. *)
Lemma scene_load_entity_reads s w ok s' w' :
  scene_load_entity s w = Some (ok, s', w') ->
  (no_entity_record s /\ ok = false /\ w' = w) \/
  exists path nm atts args,
    entity_record s path nm atts args s' /\
    S_Entity_ObjFromAtts path nm atts args w = (ok, w').
Proof.
  unfold scene_load_entity, no_entity_record, entity_record.
  destruct (READ_LINE s) as [[line s1]|] eqn:Hline.
  2: { intros [= <- <- <-]. left. split; [| done].
       intros path nm atts args s2 (l & s3 & r & a & Hl & _). done. }
  destruct (sscanf_entity line) as [ret [[nm path] num_atts]] eqn:Hscan.
  destruct (Z.eqb_spec ret 0) as [-> | Hret].
  { intros [= <- <- <-]. left. split; [| done].
    intros path' nm' atts args s2 (l & s3 & r & a & [= <- <-] & Hs & Hr & _).
    rewrite Hscan in Hs. by injection Hs as <- _. }
  destruct (load_attrs _ s1 ∅ []) as [[[[atts args] s2]|]|] eqn:Hatts; [ | | done].
  - destruct (S_Entity_ObjFromAtts path nm atts args w) as [ok1 w1] eqn:Hobj.
    intros [= <- <- <-]. right. exists path, nm, atts, args.
    split; [| done]. by exists line, s1, ret, num_atts.
  - intros [= <- <- <-]. left. split; [| done].
    intros path' nm' atts args s2 (l & s3 & r & a & [= <- <-] & Hs & _ & Ha).
    rewrite Hscan in Hs. injection Hs as <- <- <- <-.
    rewrite Hatts in Ha. done.
Qed.

(** The entity loop: the records before the one that did not load have
    been read and constructed; the last step either found no complete
    record or a record whose construction returned [false], the effect
    of which stays. *)
Lemma load_entities_reads n s w s' w' :
  load_records scene_load_entity n s w = Some (false, s', w') ->
  exists m s4 w2,
    (m < n)%nat /\ entities_loaded m s w s4 w2 /\
    ((no_entity_record s4 /\ w' = w2) \/
     exists path nm atts args s5,
       entity_record s4 path nm atts args s5 /\
       S_Entity_ObjFromAtts path nm atts args w2 = (false, w')).
Proof.
  revert s w. induction n as [| n IH]; intros s w; simpl; [done |].
  destruct (scene_load_entity s w) as [[[[] s1] w1]|] eqn:Hone; [| | done].
  - apply scene_load_entity_reads in Hone
      as [(_ & Hok & _) | (path & nm & atts & args & Hrec & Hobj)]; [done |].
    intros Hrest. apply IH in Hrest as (m & s4 & w2 & Hm & Hloaded & Hlast).
    exists (S m), s4, w2. split; [lia |]. split; [| done].
    by eapply entities_loaded_S.
  - intros [= <- <-].
    exists 0%nat, s, w. split; [lia |]. split; [constructor |].
    apply scene_load_entity_reads in Hone
      as [(Hno & _ & ->) | (path & nm & atts & args & Hrec & Hobj)].
    + by left.
    + right. by exists path, nm, atts, args, s1.
Qed.

(** C1, as the code has it. When [Scene_Load] returns [false] nothing is
    rolled back: the world is exactly the one left by the complete
    records that precede the failing step. Either the header could not
    be read and the world is as it was; or [k] faction records were read,
    each followed by its [G_AddFaction] call, and then the next faction
    record, or the line with the entity count, could not be read; or all
    announced factions were added, [m] entities were constructed, and
    then the next entity record could not be read or its construction
    returned [false] (whatever that construction did to the world
    stays). If the load fails before the first faction record has been
    read completely, [Scene_Load] returns [false] and the world is
    unmodified. *)
Theorem scene_load_failure_keeps_loaded_prefix (path : string)
    (w : gamestate * gmap Z entity) :
  (forall w', Scene_Load path w = Some (false, w') ->
     (no_scene_header path /\ w' = w) \/
     exists nf s1 k s2 g1,
       scene_header path nf s1 /\
       factions_loaded k s1 (fst w) s2 g1 /\
       (((k < Z.to_nat (nf mod 2 ^ 32))%nat /\
         no_faction_record s2 /\ w' = (g1, snd w)) \/
        (k = Z.to_nat (nf mod 2 ^ 32) /\
         ((no_entity_header s2 /\ w' = (g1, snd w)) \/
          exists ne s3 m s4 w2,
            entity_header s2 ne s3 /\
            entities_loaded m s3 (g1, snd w) s4 w2 /\
            (m < Z.to_nat (ne mod 2 ^ 32))%nat /\
            ((no_entity_record s4 /\ w' = w2) \/
             exists epath nm atts args s5,
               entity_record s4 epath nm atts args s5 /\
               S_Entity_ObjFromAtts epath nm atts args w2 = (false, w')))))) /\
  (fails_before_first_faction path -> Scene_Load path w = Some (false, w)).
Proof.
  split.
  - intros w'. unfold Scene_Load.
    destruct (SDL_RWFromFile path) as [s|] eqn:Hfile.
    2: { intros [= <-]. left. split; [by left | done]. }
    destruct (READ_LINE s) as [[line s1]|] eqn:Hline.
    2: { intros [= <-]. left. split; [| done]. right. exists s. split; [done | by left]. }
    destruct (sscanf_count "num_factions" line) as [ret nf] eqn:Hscan.
    destruct (Z.eqb_spec ret 0) as [-> | Hret].
    { intros [= <-]. left. split; [| done]. right. exists s. split; [done |].
      right. exists line, s1. by rewrite Hscan. }
    assert (Hhead : scene_header path nf s1) by by exists s, line, ret.
    destruct (load_records scene_load_faction _ s1 w) as [[[ok s2] w1]|] eqn:Hfac;
      [| done].
    apply load_factions_reads in Hfac as [Hh Hfac].
    assert (Hw1 : w1 = (fst w1, snd w)) by (destruct w1; simpl in *; congruence).
    destruct ok.
    2: { intros [= <-]. right. destruct Hfac as (k & s3 & Hk & Hloaded & Hno).
         exists nf, s1, k, s3, (fst w1). split; [done |]. split; [done |].
         left. done. }
    intros Hrest. right. exists nf, s1, (Z.to_nat (nf mod 2 ^ 32)), s2, (fst w1).
    split; [done |]. split; [done |]. right. split; [done |].
    destruct (READ_LINE s2) as [[line2 s3]|] eqn:Hline2.
    2: { injection Hrest as <-. left. split; [by left | done]. }
    destruct (sscanf_count "num_entities" line2) as [ret2 ne] eqn:Hscan2.
    destruct (Z.eqb_spec ret2 0) as [-> | Hret2].
    { injection Hrest as <-. left. split; [| done].
      right. exists line2, s3. by rewrite Hscan2. }
    destruct (load_records scene_load_entity _ s3 w1) as [[[ok2 s4] w2]|] eqn:Hent;
      [| done].
    injection Hrest as -> <-.
    apply load_entities_reads in Hent as (m & s5 & w3 & Hm & Hloaded & Hlast).
    right. exists ne, s3, m, s5, w3.
    split; [by exists line2, ret2 |]. rewrite <- Hw1. done.
  - unfold fails_before_first_faction, Scene_Load.
    destruct (SDL_RWFromFile path) as [s|]; [| done].
    destruct (READ_LINE s) as [[line s1]|]; [| done].
    destruct (sscanf_count "num_factions" line) as [ret n]. simpl.
    intros [-> | [Hn Hfail]]; [done |].
    destruct (ret =? 0); [done |].
    destruct (Z.to_nat (n mod 2 ^ 32)) as [| k] eqn:Hk; [lia |].
    simpl. destruct (Hfail w) as (s2 & w2 & Hone). rewrite Hone.
    apply scene_load_faction_reads in Hone as [_ ->]. done.
Qed.

End SceneLoad.

(** ** Registration and dispatch *)

Section BusRegistration.

Context {St : Type} `{Handlers St} `{EventTypes}.
Implicit Types (table : gmap Z (list handler_desc)) (w : St * event_queue)
               (ev : event) (tr : list invocation).

Lemma e_handle_event_other_key key desc table ev w :
  e_key (ev_receiver_id ev) (ev_type ev) <> key ->
  e_handle_event (snd (e_register_handler key desc table)) ev w
  = e_handle_event table ev w.
Proof.
  intros Hne. unfold e_handle_event.
  destruct (e_register_handler_appends key desc table) as (_ & _ & Hother).
  rewrite (Hother _ Hne). reflexivity.
Qed.

Lemma GLOBAL_ID_u32 : is_u32 GLOBAL_ID.
Proof. unfold is_u32, GLOBAL_ID. rewrite Z.ones_equiv. simpl. lia. Qed.

Lemma e_key_differs id ty id' ty' :
  is_u32 id -> is_u32 ty -> is_u32 id' -> is_u32 ty' ->
  (id', ty') <> (id, ty) -> e_key id' ty' <> e_key id ty.
Proof.
  intros Hi Ht Hi' Ht' Hne Hk.
  apply e_key_injective in Hk as [-> ->]; [| assumption ..].
  apply Hne. reflexivity.
Qed.

(** X5. Registering a handler, by any of the four register calls, changes
    the dispatch of no event with another receiver id or another event
    type: handlers are kept apart by the exact (receiver, type) pair. *)
Theorem registration_touches_one_key event ent_uid handler user_arg simmask
    table ev w :
  is_u32 event -> is_u32 ent_uid ->
  is_u32 (ev_type ev) -> is_u32 (ev_receiver_id ev) ->
  ((ev_receiver_id ev, ev_type ev) <> (ent_uid, event) ->
   e_handle_event
     (snd (E_Entity_Register event ent_uid handler user_arg simmask table)) ev w
   = e_handle_event table ev w /\
   e_handle_event
     (snd (E_Entity_ScriptRegister event ent_uid handler user_arg simmask table)) ev w
   = e_handle_event table ev w) /\
  ((ev_receiver_id ev, ev_type ev) <> (GLOBAL_ID, event) ->
   e_handle_event
     (snd (E_Global_Register event handler user_arg simmask table)) ev w
   = e_handle_event table ev w /\
   e_handle_event
     (snd (E_Global_ScriptRegister event handler user_arg simmask table)) ev w
   = e_handle_event table ev w).
Proof.
  intros He Hu Ht Hr. split; intros Hne.
  - split; apply e_handle_event_other_key; apply e_key_differs; assumption.
  - split; apply e_handle_event_other_key;
      apply e_key_differs; auto using GLOBAL_ID_u32.
Qed.



End BusRegistration.

(** ** Unregistering *)

Section BusUnregister.

Context {St : Type} `{Handlers St} `{HandlerVec}.
Implicit Types (table : gmap Z (list handler_desc)) (s : St).

(** X7. [e_unregister_handler] returns [false] and changes nothing when no
    handler under the key equals the given one (in particular when the
    key has no handler vector); otherwise it returns [true] after taking
    exactly one equal handler out of the key's vector, releasing its
    script objects if it is a script handler, and leaves every other key
    alone. *)
Theorem unregister_removes_one_match key desc table s :
  vec_ops_ok ->
  match e_unregister_handler key desc table s with
  | Some (false, table', s') =>
    table' = table /\ s' = s /\
    Forall (fun x => handlers_equal x desc = false) (default [] (table !! key))
  | Some (true, table', s') =>
    exists x rest,
      handlers_equal x desc = true /\
      table' !! key = Some rest /\
      x :: rest ≡ₚ default [] (table !! key) /\
      (forall key', key' <> key -> table' !! key' = table !! key') /\
      s' = released x s
  | None => False
  end.
Proof.
  intros [Hidx Hdel]. unfold e_unregister_handler.
  destruct (table !! key) as [vec |] eqn:Hvec; simpl.
  - destruct (Hidx vec desc handlers_equal) as [[-> Hnone] | (x & Hx & Heq)].
    + simpl. repeat split. assumption.
    + destruct (Z.eqb_spec (vec_hd_indexof vec desc handlers_equal) (-1)) as [Hm | _].
      { rewrite Hm in Hx. rewrite arr_get_neg in Hx by lia. discriminate Hx. }
      rewrite Hx. exists x, (vec_hd_del vec (vec_hd_indexof vec desc handlers_equal)).
      split; [assumption |].
      split; [apply lookup_insert_eq |].
      split; [apply (Hdel _ _ _ Hx) |].
      split; [| reflexivity].
      intros key' Hne. apply lookup_insert_ne. congruence.
  - repeat split. constructor.
Qed.

(** X8. Registering an engine handler and then unregistering it, when no
    equal handler was registered under the key before, succeeds and
    leaves under the key the handlers that were there before (as a
    collection; every other key is as it was). *)
Theorem register_then_unregister event ent_uid handler user_arg simmask table s :
  vec_ops_ok ->
  let key := e_key ent_uid event in
  let hd := HandlerDesc HANDLER_TYPE_ENGINE handler user_arg simmask in
  Forall (fun x => handlers_equal x hd = false) (default [] (table !! key)) ->
  exists table' rest,
    E_Entity_Unregister event ent_uid handler
      (snd (E_Entity_Register event ent_uid handler user_arg simmask table)) s
    = Some (true, table', s) /\
    table' !! key = Some rest /\
    rest ≡ₚ default [] (table !! key) /\
    (forall key', key' <> key -> table' !! key' = table !! key').
Proof.
  intros Hok key hd Hfresh.
  destruct (e_register_handler_appends key hd table) as (_ & Hkey & Hother).
  unfold E_Entity_Unregister, E_Entity_Register.
  fold key. fold hd.
  set (table1 := snd (e_register_handler key hd table)) in *.
  set (desc := HandlerDesc HANDLER_TYPE_ENGINE handler 0 0).
  assert (Hsame : forall x, handlers_equal x desc = handlers_equal x hd).
  { intros x. unfold handlers_equal. reflexivity. }
  destruct Hok as [Hidx Hdel]. unfold e_unregister_handler.
  rewrite Hkey.
  set (vec := default [] (table !! key) ++ [hd]).
  destruct (Hidx vec desc handlers_equal) as [[_ Hnone] | (x & Hx & Heq)].
  { exfalso. apply Forall_app in Hnone as [_ Hlast].
    rewrite Forall_singleton in Hlast.
    unfold handlers_equal, hd, desc in Hlast. cbn in Hlast.
    rewrite Z.eqb_refl in Hlast. discriminate Hlast. }
  destruct (Z.eqb_spec (vec_hd_indexof vec desc handlers_equal) (-1)) as [Hm | _].
  { rewrite Hm in Hx. rewrite arr_get_neg in Hx by lia. discriminate Hx. }
  rewrite Hx.
  assert (Hxhd : x = hd).
  { apply arr_get_Some_range in Hx as Hrange.
    rewrite arr_get_nat in Hx by lia.
    apply list_elem_of_lookup_2 in Hx.
    apply elem_of_app in Hx as [Hold | Hnew].
    - rewrite Forall_forall in Hfresh. specialize (Hfresh _ Hold).
      rewrite <- Hsame in Hfresh. congruence.
    - apply list_elem_of_singleton in Hnew. exact Hnew. }
  pose proof (Hdel _ _ _ Hx) as Hperm. subst x.
  eexists _, _. split; [reflexivity |].
  split; [apply lookup_insert_eq |].
  split.
  - apply (Permutation_cons_inv (a := hd)).
    rewrite Hperm. unfold vec.
    symmetry. apply Permutation_cons_append.
  - intros key' Hne. rewrite lookup_insert_ne by congruence.
    apply Hother. exact Hne.
Qed.

End BusUnregister.

(** ** Clips *)

Section Clips.

Context `{Scalar} `{!PFMath} `{EntityFlagBits} `{Event.EventTypes} `{SDLClock}.
Implicit Types (ent : entity) (q : Event.event_queue) (clk : nat).

(** The search loop of [a_clip_for_name]: what each of its three outcomes
    says about the clips from index [i] on. *)
Lemma a_clip_for_name_loop_first n i clips nm :
  0 <= i ->
  match a_clip_for_name_loop n i clips nm with
  | Some (Some j) =>
    i <= j < i + Z.of_nat n /\
    (exists c, arr_get clips j = Some c /\ name c = nm) /\
    (forall j' c', i <= j' < j -> arr_get clips j' = Some c' -> name c' <> nm)
  | Some None =>
    forall j', i <= j' < i + Z.of_nat n ->
      exists c', arr_get clips j' = Some c' /\ name c' <> nm
  | None =>
    forall j' c', i <= j' < i + Z.of_nat n ->
      arr_get clips j' = Some c' -> name c' <> nm
  end.
Proof.
  revert i. induction n as [| n IH]; intros i Hi; simpl.
  - intros j' Hj'. lia.
  - destruct (arr_get clips i) as [curr |] eqn:Hcurr.
    + destruct (String.eqb_spec (name curr) nm) as [Heq | Hne].
      * split; [lia |]. split; [by exists curr |]. intros j' c' Hj'. lia.
      * specialize (IH (i + 1) ltac:(lia)).
        destruct (a_clip_for_name_loop n (i + 1) clips nm) as [[j |] |].
        -- destruct IH as (Hj & Hc & Hbefore).
           split; [lia |]. split; [exact Hc |].
           intros j' c' Hj' Hc'.
           destruct (Z.eq_dec j' i) as [-> | Hji]; [congruence |].
           apply (Hbefore j' c'); [lia | exact Hc'].
        -- intros j' Hj'.
           destruct (Z.eq_dec j' i) as [-> | Hji]; [by exists curr |].
           apply IH. lia.
        -- intros j' c' Hj' Hc'.
           destruct (Z.eq_dec j' i) as [-> | Hji]; [congruence |].
           apply (IH j' c'); [lia | exact Hc'].
    + intros j' c' Hj' Hc'.
      apply arr_get_Some_range in Hc'.
      assert (Hout : Z.of_nat (length clips) <= i).
      { unfold arr_get in Hcurr. destruct (Z.ltb_spec i 0); [lia |].
        apply lookup_ge_None in Hcurr. lia. }
      lia.
Qed.

(** X9. [A_SetActiveClip] makes the first clip carrying the given name the
    active one, in the given mode and frame rate, at frame 0 with the
    frame timer restarted at the current tick; the idle clip and
    everything else about the entity stay. When none of the entity's
    clips carries the name the call does not return (its [assert]
    fails). *)
Theorem A_SetActiveClip_picks_first_match ent nm md fps clk :
  match A_SetActiveClip ent nm md fps clk with
  | Some (ent', clk') =>
    exists i c,
      arr_get (anims (anim_private ent)) i = Some c /\ name c = nm /\
      0 <= i < num_anims (anim_private ent) /\
      (forall j c', 0 <= j < i ->
         arr_get (anims (anim_private ent)) j = Some c' -> name c' <> nm) /\
      ent' = set_anim_ctx ent
               (MkCtx i (idle (ent_anim_ctx ent)) md fps 0 (fst (SDL_GetTicks clk))) /\
      clk' = S clk
  | None =>
    forall j c', 0 <= j < num_anims (anim_private ent) ->
      arr_get (anims (anim_private ent)) j = Some c' -> name c' <> nm
  end.
Proof.
  unfold A_SetActiveClip, a_clip_for_name.
  pose proof (a_clip_for_name_loop_first
                (Z.to_nat (num_anims (anim_private ent))) 0
                (anims (anim_private ent)) nm ltac:(lia)) as Hloop.
  destruct (a_clip_for_name_loop _ 0 _ nm) as [[i |] |].
  - destruct Hloop as (Hi & (c & Hc & Hname) & Hbefore). simpl.
    exists i, c. repeat split; try assumption; lia.
  - intros j c' Hj Hc'. destruct (Hloop j ltac:(lia)) as (c'' & Hc'' & Hne).
    congruence.
  - intros j c' Hj. apply Hloop. lia.
Qed.

(** X10. [A_InitCtx] on an entity whose clips all have frames leaves a
    valid animation context, and [A_Update] keeps it valid: it always
    returns, [curr_frame] stays inside the active clip, and the idle clip,
    the frame rate, the animation data and the uid never change. *)
Theorem animation_context_stays_valid :
  (forall ent nm fps clk ent' clk',
     A_InitCtx ent nm fps clk = Some (ent', clk') ->
     (forall i c, arr_get (anims (anim_private ent)) i = Some c ->
                  0 < num_frames c < 2 ^ 32) ->
     anim_ok ent') /\
  (forall ent q clk,
     anim_ok ent ->
     exists ent' q' clk',
       A_Update ent q clk = Some (ent', q', clk') /\
       anim_ok ent' /\
       anim_private ent' = anim_private ent /\ uid ent' = uid ent /\
       idle (ent_anim_ctx ent') = idle (ent_anim_ctx ent) /\
       key_fps (ent_anim_ctx ent') = key_fps (ent_anim_ctx ent)).
Proof.
  split.
  - intros ent nm fps clk ent' clk' Hinit Hframes.
    assert (Hpriv : anim_private ent' = anim_private ent).
    { revert Hinit. unfold A_InitCtx.
      destruct (a_clip_for_name ent nm) as [[j |] |]; try done.
      unfold A_SetActiveClip, a_clip_for_name. simpl.
      destruct (a_clip_for_name_loop _ _ _ _) as [[j' |] |]; try done.
      intros [= <- <-]. reflexivity. }
    apply A_InitCtx_idle in Hinit as (idl & Hidl & Hfind & Hact & Hmode & Hframe).
    exists idl, idl. rewrite Hpriv in Hidl.
    split; [| by apply (Hframes _ _ Hidl)].
    unfold ctx_ready. rewrite Hact, Hframe, Hpriv.
    pose proof (Hframes _ _ Hidl). repeat split; try assumption; lia.
  - intros ent q clk (act & idl & (Hact & Hn & Hframe & Hidl & Hfind) & Hidln).
    unfold A_Update. unfold SDL_GetTicks at 1. cbv beta iota zeta.
    destruct (frame_elapsed _ _).
    2:{ eexists _, _, _. split; [reflexivity |].
        split; [| done]. exists act, idl. done. }
    rewrite Hact.
    destruct (Z.eqb_spec (num_frames act) 0) as [Hz | _]; [lia |].
    rewrite (Z.mod_small (curr_frame (ent_anim_ctx ent) + 1) (2 ^ 32)) by lia.
    pose proof (Z.mod_pos_bound (curr_frame (ent_anim_ctx ent) + 1)
                  (num_frames act) ltac:(lia)) as Hmod.
    assert (Hadv : forall now e1,
      anim_private e1 = anim_private ent ->
      ent_anim_ctx e1 =
        MkCtx (active (ent_anim_ctx ent)) (idle (ent_anim_ctx ent))
              (mode (ent_anim_ctx ent)) (key_fps (ent_anim_ctx ent))
              ((curr_frame (ent_anim_ctx ent) + 1) mod num_frames act) now ->
      anim_ok e1).
    { intros now e1 Hp Hc. exists act, idl. split; [| assumption].
      unfold ctx_ready, a_clip_for_name in *. rewrite Hp, Hc. simpl. done. }
    assert (Hback : forall later e1,
      anim_private e1 = anim_private ent ->
      ent_anim_ctx e1 =
        MkCtx (idle (ent_anim_ctx ent)) (idle (ent_anim_ctx ent))
              ANIM_MODE_LOOP (key_fps (ent_anim_ctx ent)) 0 later ->
      anim_ok e1).
    { intros later e1 Hp Hc. exists idl, idl. split; [| assumption].
      unfold ctx_ready, a_clip_for_name in *. rewrite Hp, Hc. simpl.
      repeat split; try assumption; lia. }
    destruct (Z.eqb_spec ((curr_frame (ent_anim_ctx ent) + 1) mod num_frames act) 0)
      as [Hzero | Hnz].
    + simpl. destruct (mode (ent_anim_ctx ent)) eqn:Hmode.
      * eexists _, _, _. split; [reflexivity |].
        split; [| done]. eapply Hadv; reflexivity.
      * rewrite Hidl. unfold A_SetActiveClip, a_clip_for_name in *. simpl.
        rewrite Hfind. simpl.
        eexists _, _, _. split; [reflexivity |].
        split; [| done]. eapply Hback; reflexivity.
      * rewrite Hidl. unfold A_SetActiveClip, a_clip_for_name in *. simpl.
        rewrite Hfind. simpl.
        eexists _, _, _. split; [reflexivity |].
        split; [| done]. eapply Hback; reflexivity.
    + eexists _, _, _. split; [reflexivity |].
      split; [| done]. eapply Hadv; reflexivity.
Qed.

End Clips.

(** ** Playing a clip in a loop *)

Section Looping.

Context `{Scalar} `{!PFMath} `{EntityFlagBits} `{Event.EventTypes} `{SDLClock}.
Implicit Types (ent : entity) (q : Event.event_queue) (clk : nat).

(** One update of a looping clip after a full frame period. *)
Lemma A_Update_loop_step ent q clk act idl :
  ctx_ready ent act idl ->
  mode (ent_anim_ctx ent) = ANIM_MODE_LOOP ->
  frame_elapsed (ent_anim_ctx ent) (fst (SDL_GetTicks clk)) = true ->
  let ctx := ent_anim_ctx ent in
  let frame := (curr_frame ctx + 1) mod num_frames act in
  A_Update ent q clk =
    Some (set_anim_ctx ent
            (MkCtx (active ctx) (idle ctx) ANIM_MODE_LOOP (key_fps ctx) frame
                   (fst (SDL_GetTicks clk))),
          q ++ (if frame =? 0
                then [Ev EVENT_ANIM_CYCLE_FINISHED 0 ES_ENGINE (uid ent)] else []),
          S clk).
Proof.
  intros (Hact & Hn & Hframe & Hidl & Hfind) Hmode Helapsed. cbv zeta.
  unfold A_Update. unfold SDL_GetTicks at 1. cbv beta iota zeta.
  unfold SDL_GetTicks in Helapsed. simpl in Helapsed. rewrite Helapsed.
  rewrite Hact.
  destruct (Z.eqb_spec (num_frames act) 0) as [Hz | _]; [lia |].
  rewrite (Z.mod_small (curr_frame (ent_anim_ctx ent) + 1) (2 ^ 32)) by lia.
  rewrite Hmode.
  destruct (Z.eqb_spec ((curr_frame (ent_anim_ctx ent) + 1) mod num_frames act) 0)
    as [Hzero | Hnz].
  - rewrite Hzero. reflexivity.
  - rewrite app_nil_r. reflexivity.
Qed.

(** X11. A looping clip of [N] frames wraps around: after [n] updates that
    each come more than a frame period after the one before, a clip that
    stood at frame [f] stands at frame [(f + n) mod N], and exactly
    [(f + n) / N] cycle-finished events (one per pass through frame 0)
    have been queued for the entity, and nothing else. From frame 0, [N]
    updates lead back to frame 0 with exactly one such event. *)
Theorem looping_clip_wraps_around n ent q clk act idl :
  ctx_ready ent act idl ->
  mode (ent_anim_ctx ent) = ANIM_MODE_LOOP ->
  frames_due (key_fps (ent_anim_ctx ent))
    (curr_frame_start_ticks (ent_anim_ctx ent)) clk n ->
  let ctx := ent_anim_ctx ent in
  let f := curr_frame ctx in
  let N := num_frames act in
  A_Update_times n ent q clk =
    Some (set_anim_ctx ent
            (MkCtx (active ctx) (idle ctx) ANIM_MODE_LOOP (key_fps ctx)
                   ((f + Z.of_nat n) mod N)
                   (timer_after (curr_frame_start_ticks ctx) clk n)),
          q ++ replicate (Z.to_nat ((f + Z.of_nat n) / N))
                 (Ev EVENT_ANIM_CYCLE_FINISHED 0 ES_ENGINE (uid ent)),
          (clk + n)%nat).
Proof.
  revert ent q clk. induction n as [| n IH]; intros ent q clk Hready Hmode Hdue.
  - destruct Hready as (Hact & Hn & Hframe & Hidl & Hfind). cbv zeta. simpl.
    rewrite Z.add_0_r, Z.mod_small, Z.div_small by lia.
    simpl. rewrite app_nil_r, Nat.add_0_r.
    destruct ent as [u fl fa rp ap [a i m k cf st]]. simpl in *. by subst m.
  - cbv zeta. simpl in Hdue. destruct Hdue as [Hnow Hrest].
    cbn [A_Update_times].
    rewrite (A_Update_loop_step ent q clk act idl Hready Hmode)
      by (rewrite frame_elapsed_period_passed; exact Hnow).
    cbv zeta.
    destruct Hready as (Hact & Hn & Hframe & Hidl & Hfind).
    set (N := num_frames act) in *.
    set (f := curr_frame (ent_anim_ctx ent)) in *.
    set (ent1 := set_anim_ctx ent _).
    assert (Hready1 : ctx_ready ent1 act idl).
    { unfold ctx_ready, a_clip_for_name in *. simpl.
      pose proof (Z.mod_pos_bound (f + 1) N ltac:(lia)). done. }
    rewrite (IH ent1 _ (S clk) Hready1 eq_refl Hrest). simpl.
    assert (Hframe1 : ((f + 1) mod N + Z.of_nat n) mod N
                      = (f + Z.pos (Pos.of_succ_nat n)) mod N).
    { rewrite Zplus_mod_idemp_l. f_equal. lia. }
    assert (Hcount :
      (if (f + 1) mod N =? 0
       then [Ev EVENT_ANIM_CYCLE_FINISHED 0 ES_ENGINE (uid ent)] else [])
      ++ replicate (Z.to_nat (((f + 1) mod N + Z.of_nat n) / N))
           (Ev EVENT_ANIM_CYCLE_FINISHED 0 ES_ENGINE (uid ent))
      = replicate (Z.to_nat ((f + Z.pos (Pos.of_succ_nat n)) / N))
          (Ev EVENT_ANIM_CYCLE_FINISHED 0 ES_ENGINE (uid ent))).
    { destruct (Z.eq_dec (f + 1) N) as [Hwrap | Hnowrap].
      - rewrite Hwrap, Z_mod_same_full. simpl.
        replace (f + Z.pos (Pos.of_succ_nat n)) with (1 * N + Z.of_nat n) by lia.
        rewrite Z.div_add_l by lia.
        pose proof (Z.div_pos (Z.of_nat n) N ltac:(lia) ltac:(lia)).
        rewrite Z2Nat.inj_add by lia. reflexivity.
      - rewrite (Z.mod_small (f + 1) N) by lia.
        destruct (Z.eqb_spec (f + 1) 0); [lia |]. simpl.
        replace (f + Z.pos (Pos.of_succ_nat n)) with (f + 1 + Z.of_nat n) by lia.
        reflexivity. }
    rewrite <- app_assoc, Hcount, Hframe1.
    f_equal. f_equal; [| lia]. f_equal.
    unfold timer_after. destruct n as [| m]; simpl.
    + rewrite Nat.add_0_r.
      destruct ent as [u fl fa rp ap [a i md k cf st]]. reflexivity.
    + replace (clk + S m)%nat with (S (clk + m)) by lia.
      destruct ent as [u fl fa rp ap [a i md k cf st]]. reflexivity.
Qed.

End Looping.

(** ** Bind pose *)

Section BindPose.

Context `{Scalar} `{!PFMath} `{!PFMathInverse}.
Implicit Types (skl : skeleton) (sqts : list SQT).


End BindPose.

Section InverseBind.

Context `{Scalar} `{!PFMath} `{!PFMathInverse}.
Implicit Types (skl : skeleton) (sqts : list SQT).

(** The walk reads the joint array of the skeleton and nothing else of
    it. *)
Lemma a_walk_loop_joints fuel skl skl' sqts j acc :
  joints skl' = joints skl ->
  a_walk_loop fuel skl' sqts j acc = a_walk_loop fuel skl sqts j acc.
Proof.
  intros Hj. revert j acc. induction fuel as [| fuel IH]; intros j acc; simpl.
  - reflexivity.
  - rewrite Hj. destruct (j >=? 0); [| reflexivity].
    destruct (arr_get (joints skl) j); [| reflexivity].
    destruct (arr_get sqts j); [| reflexivity].
    by rewrite IH.
Qed.

Lemma prepare_inv_bind_loop_spec fuel n i skl :
  0 <= i ->
  i + Z.of_nat n <= Z.of_nat (length (inv_bind_poses skl)) ->
  (forall j, i <= j < i + Z.of_nat n ->
     exists m k, a_make_bind_mat fuel j skl = Ret (m, k)) ->
  exists skl',
    prepare_inv_bind_loop fuel n i skl = Ret skl' /\
    num_joints skl' = num_joints skl /\
    joints skl' = joints skl /\
    bind_sqts skl' = bind_sqts skl /\
    length (inv_bind_poses skl') = length (inv_bind_poses skl) /\
    (forall j, i <= j < i + Z.of_nat n ->
       exists m k, a_make_bind_mat fuel j skl = Ret (m, k) /\
         arr_get (inv_bind_poses skl') j = Some (PFM_Mat4x4_Inverse m)) /\
    (forall j, ~ (i <= j < i + Z.of_nat n) ->
       arr_get (inv_bind_poses skl') j = arr_get (inv_bind_poses skl) j).
Proof.
  revert i skl. induction n as [| n IH]; intros i skl Hi Hlen Hbind.
  - exists skl. simpl. repeat split; try done. intros j Hj. lia.
  - cbn [prepare_inv_bind_loop].
    destruct (Hbind i ltac:(lia)) as (bm & kb & Hbm). rewrite Hbm.
    destruct (Z.ltb_spec i 0); [lia |].
    destruct (Z.geb_spec i (Z.of_nat (length (inv_bind_poses skl)))); [lia |].
    simpl.
    set (skl1 := set_inv_bind_poses skl _).
    assert (Hsame : forall j, a_make_bind_mat fuel j skl1 = a_make_bind_mat fuel j skl).
    { intros j. unfold a_make_bind_mat. by apply a_walk_loop_joints. }
    destruct (IH (i + 1) skl1) as (skl' & Hrun & Hnum & Hjoints & Hsqts & Hl & Hdone & Hframe).
    + lia.
    + unfold skl1. simpl. rewrite length_arr_set. lia.
    + intros j Hj. rewrite Hsame. apply Hbind. lia.
    + exists skl'. split; [exact Hrun |].
      split; [exact Hnum |]. split; [exact Hjoints |]. split; [exact Hsqts |].
      split; [by rewrite Hl; unfold skl1; simpl; rewrite length_arr_set |].
      split.
      * intros j Hj. destruct (Z.eq_dec j i) as [-> | Hne].
        -- exists bm, kb. split; [exact Hbm |].
           rewrite Hframe by lia. unfold skl1. simpl.
           apply arr_get_set_eq. lia.
        -- destruct (Hdone j ltac:(lia)) as (m & k & Hm & Hinv).
           exists m, k. by rewrite <- Hsame.
      * intros j Hj. rewrite Hframe by lia. unfold skl1. simpl.
        apply arr_get_set_ne. lia.
Qed.

(** X13. On a skeleton whose parent chains end, [A_PrepareInvBindMatrices]
    returns; it stores, for every joint, the inverse of that joint's bind
    matrix in [inv_bind_poses], and changes nothing else of the
    skeleton. *)
Theorem inverse_bind_matrices_prepared fuel skl :
  skeleton_acyclic skl ->
  (length (joints skl) <= length (bind_sqts skl))%nat ->
  num_joints skl <= Z.of_nat (length (inv_bind_poses skl)) ->
  (Z.to_nat (num_joints skl) <= fuel)%nat ->
  exists skl',
    A_PrepareInvBindMatrices fuel skl = Ret skl' /\
    num_joints skl' = num_joints skl /\
    joints skl' = joints skl /\
    bind_sqts skl' = bind_sqts skl /\
    length (inv_bind_poses skl') = length (inv_bind_poses skl) /\
    (forall j, 0 <= j < num_joints skl ->
       exists m k, a_make_bind_mat fuel j skl = Ret (m, k) /\
         arr_get (inv_bind_poses skl') j = Some (PFM_Mat4x4_Inverse m)) /\
    (forall j, num_joints skl <= j ->
       arr_get (inv_bind_poses skl') j = arr_get (inv_bind_poses skl) j).
Proof.
  intros Hacyclic Hsqts Hinv Hfuel. unfold A_PrepareInvBindMatrices.
  destruct (prepare_inv_bind_loop_spec fuel (Z.to_nat (num_joints skl)) 0 skl)
    as (skl' & Hrun & Hnum & Hjoints & Hbs & Hlen & Hdone & Hframe).
  - lia.
  - lia.
  - intros j Hj.
    destruct (a_walk_loop_terminates _ skl (bind_sqts skl) j PFM_Mat4x4_Identity
                Hsqts (Hacyclic j ltac:(lia))) as (m & k & Hwalk & _).
    exists m, k. unfold a_make_bind_mat. by eapply a_walk_loop_fuel_le.
  - exists skl'. repeat split; try assumption.
    + intros j Hj. apply Hdone. lia.
    + intros j Hj. apply Hframe. lia.
Qed.

End InverseBind.

(** ** Render state of an animated entity *)

Section RenderState.

Context `{Scalar} `{!PFMath} `{EntityFlagBits} `{Event.EventTypes} `{SDLClock}.

Lemma pose_mats_spec fuel ent skl n j0 ms :
  0 <= j0 ->
  pose_mats fuel ent skl n j0 = Ret ms ->
  length ms = n /\
  forall j, j0 <= j < j0 + Z.of_nat n ->
    exists m k, a_make_pose_mat fuel ent j skl = Ret (m, k) /\
      ms !! Z.to_nat (j - j0) = Some m.
Proof.
  revert j0 ms. induction n as [| n IH]; intros j0 ms Hj0; simpl.
  - intros [= <-]. split; [done |]. intros j Hj. lia.
  - destruct (a_make_pose_mat fuel ent j0 skl) as [[m k] | |] eqn:Hm; try done.
    destruct (pose_mats fuel ent skl n (j0 + 1)) as [ms' | |] eqn:Hrest; try done.
    intros [= <-]. apply IH in Hrest as [Hlen Hnth]; [| lia].
    split; [simpl; by rewrite Hlen |].
    intros j Hj. destruct (Z.eq_dec j j0) as [-> | Hne].
    + exists m, k. split; [exact Hm |]. by rewrite Z.sub_diag.
    + destruct (Hnth j ltac:(lia)) as (m' & k' & Hm' & Hl).
      exists m', k'. split; [exact Hm' |].
      replace (Z.to_nat (j - j0)) with (S (Z.to_nat (j - (j0 + 1)))) by lia.
      exact Hl.
Qed.

(** X14. [A_GetRenderState] does not return for an entity without the
    animated flag (its [assert] fails). When it returns, it reports the
    joint count and the inverse bind poses of the entity's skeleton and
    one current pose matrix per joint, the matrix at index [j] being the
    pose matrix of joint [j]. *)
Theorem A_GetRenderState_one_pose_per_joint fuel ent :
  (has_flag (flags ent) ENTITY_FLAG_ANIMATED = false ->
   A_GetRenderState fuel ent = Abort) /\
  (forall njoints pose inv_bind,
     A_GetRenderState fuel ent = Ret (njoints, pose, inv_bind) ->
     let skl := skel (anim_private ent) in
     njoints = num_joints skl /\ inv_bind = inv_bind_poses skl /\
     length pose = Z.to_nat njoints /\
     forall j, 0 <= j < njoints ->
       exists m k, a_make_pose_mat fuel ent j skl = Ret (m, k) /\
         arr_get pose j = Some m).
Proof.
  unfold A_GetRenderState. split.
  - intros ->. reflexivity.
  - intros njoints pose inv_bind.
    destruct (has_flag _ _); [| done].
    destruct (pose_mats _ _ _ _ _) as [ms | |] eqn:Hposes; try done.
    intros [= <- <- <-]. cbv zeta.
    apply pose_mats_spec in Hposes as [Hlen Hnth]; [| lia].
    repeat split; try done.
    intros j Hj. destruct (Hnth j ltac:(lia)) as (m & k & Hm & Hl).
    exists m, k. split; [exact Hm |].
    rewrite arr_get_nat by lia. by rewrite Z.sub_0_r in Hl.
Qed.

End RenderState.

(** ** The entity registry *)

Section Registry.

Context `{Scalar} `{!PFMath} `{!GameEnv} `{EntityFlagBits} `{Event.EventTypes}
        `{SDLClock} `{GameConsts}.
Implicit Types (g : gamestate) (h : gmap Z entity) (e : entity).

Lemma registry_exact_ok g h : registry_exact g h -> registry_ok g h.
Proof.
  intros [Hact Hdyn] k p Hk. destruct (Hact _ _ Hk) as (e & He & Hu).
  exists e. split; [done |]. split; [done |]. intros Hs.
  exists p. apply Hdyn. split; [done |]. by exists e.
Qed.

Lemma registry_exact_dynamic_None g h k :
  registry_exact g h -> gs_active g !! k = None -> gs_dynamic g !! k = None.
Proof.
  intros [_ Hdyn] Hk. destruct (gs_dynamic g !! k) as [p |] eqn:Hd; [| done].
  apply Hdyn in Hd as [Hd _]. congruence.
Qed.

(** X15. Adding an entity that is not registered and removing it again
    brings the registry back: [G_AddEntity] returns [true] and files the
    entity under its uid (in the dynamic set too unless it is static),
    and [G_RemoveEntity] then returns [true] and leaves the game state as
    it was before the two calls. *)
Theorem add_then_remove_entity ent e g h :
  h !! ent = Some e ->
  gs_active g !! uid e = None ->
  gs_dynamic g !! uid e = None ->
  exists g1,
    G_AddEntity ent g h = Some (true, g1) /\
    gs_active g1 !! uid e = Some ent /\
    (gs_dynamic g1 !! uid e =
       if has_flag (flags e) ENTITY_FLAG_STATIC then None else Some ent) /\
    G_RemoveEntity ent g1 h = Some (true, g).
Proof.
  intros He Hact Hdyn. unfold G_AddEntity, G_RemoveEntity.
  rewrite He, Hact. destruct g as [ss mp pm act dyn vis lvis del nf fs dt ws ci].
  simpl in *.
  destruct (has_flag (flags e) ENTITY_FLAG_STATIC) eqn:Hst; simpl.
  - eexists. split; [reflexivity |]. simpl.
    rewrite lookup_insert_eq. split; [done |]. split; [done |].
    unfold with_active. simpl.
    by rewrite delete_insert_id.
  - rewrite Hdyn. eexists. split; [reflexivity |]. simpl.
    rewrite !lookup_insert_eq. split; [done |]. split; [done |].
    unfold with_dynamic, with_active. simpl.
    by rewrite !delete_insert_id.
Qed.

Lemma G_AddEntity_exact ent e g h :
  registry_exact g h -> h !! ent = Some e ->
  exists r g', G_AddEntity ent g h = Some (r, g') /\ registry_exact g' h /\
    (r = true <-> gs_active g !! uid e = None).
Proof.
  intros Hinv He. pose proof Hinv as [Hact Hdyn]. unfold G_AddEntity. rewrite He.
  destruct (gs_active g !! uid e) as [p0 |] eqn:Hk.
  { exists false, g. split; [done |]. split; [done |]. split; done. }
  pose proof (registry_exact_dynamic_None _ _ _ Hinv Hk) as Hd.
  destruct (has_flag (flags e) ENTITY_FLAG_STATIC) eqn:Hst.
  - eexists true, _. split; [reflexivity |]. split; [| done].
    split; simpl.
    + intros k p Hkp. apply lookup_insert_Some in Hkp as [[<- <-] | [Hne Hkp]].
      * by exists e.
      * by apply Hact.
    + intros k p. rewrite Hdyn. split.
      * intros [Hkp He']. split; [| done].
        rewrite lookup_insert_ne; [done |]. congruence.
      * intros [Hkp (e' & He' & Hs')].
        apply lookup_insert_Some in Hkp as [[<- <-] | [Hne Hkp]].
        -- congruence.
        -- split; [done |]. by exists e'.
  - simpl. rewrite Hd.
    eexists true, _. split; [reflexivity |]. split; [| done].
    split; simpl.
    + intros k p Hkp. apply lookup_insert_Some in Hkp as [[<- <-] | [Hne Hkp]].
      * by exists e.
      * by apply Hact.
    + intros k p. split.
      * intros Hkp. apply lookup_insert_Some in Hkp as [[<- <-] | [Hne Hkp]].
        -- rewrite lookup_insert_eq. split; [done |]. by exists e.
        -- rewrite lookup_insert_ne by done. by apply Hdyn.
      * intros [Hkp He'].
        apply lookup_insert_Some in Hkp as [[<- <-] | [Hne Hkp]].
        -- by rewrite lookup_insert_eq.
        -- rewrite lookup_insert_ne by done. by apply Hdyn.
Qed.

Lemma G_RemoveEntity_exact ent e g h :
  registry_exact g h -> h !! ent = Some e ->
  gs_active g !! uid e = Some ent \/ gs_active g !! uid e = None ->
  exists r g', G_RemoveEntity ent g h = Some (r, g') /\ registry_exact g' h /\
    gs_active g' = delete (uid e) (gs_active g) /\
    (r = true <-> gs_active g !! uid e = Some ent).
Proof.
  intros Hinv He Hreg. pose proof Hinv as [Hact Hdyn].
  unfold G_RemoveEntity. rewrite He.
  destruct Hreg as [Hk | Hk]; rewrite Hk.
  2:{ exists false, g. split; [done |]. split; [done |].
      split; [by rewrite delete_id | done]. }
  assert (Hrest : forall k p, delete (uid e) (gs_active g) !! k = Some p ->
            exists e', h !! p = Some e' /\ uid e' = k).
  { intros k p Hkp. apply lookup_delete_Some in Hkp as [_ Hkp]. by apply Hact. }
  destruct (has_flag (flags e) ENTITY_FLAG_STATIC) eqn:Hst; simpl.
  - eexists true, _. split; [reflexivity |]. split; [| done].
    split; simpl; [exact Hrest |].
    intros k p. rewrite Hdyn. split.
    + intros [Hkp He']. split; [| done].
      apply lookup_delete_Some. split; [| done].
      intros <-. destruct He' as (e' & He' & Hs'). congruence.
    + intros [Hkp He']. apply lookup_delete_Some in Hkp as [_ Hkp]. done.
  - assert (Hd : gs_dynamic g !! uid e = Some ent).
    { apply Hdyn. split; [done |]. by exists e. }
    rewrite Hd. eexists true, _. split; [reflexivity |]. split; [| done].
    split; simpl; [exact Hrest |].
    intros k p. rewrite lookup_delete_Some, lookup_delete_Some, Hdyn. tauto.
Qed.

Lemma G_Zombiefy_exact ent e g h :
  flag_bits_wf ->
  registry_exact g h -> h !! ent = Some e ->
  gs_active g !! uid e = Some ent ->
  exists g' h', G_Zombiefy ent g h = Some (g', h') /\ registry_exact g' h' /\
    gs_active g' = gs_active g /\ gs_dynamic g' !! uid e = None.
Proof.
  intros Hwf Hinv He Hk. pose proof Hinv as [Hact Hdyn].
  assert (Hret : exists g' h', G_Zombiefy ent g h = Some (g', h')).
  { unfold G_Zombiefy. rewrite He.
    destruct (has_flag (flags e) ENTITY_FLAG_STATIC) eqn:Hs; simpl; [eauto |].
    assert (gs_dynamic g !! uid e = Some ent) as ->; [| eauto].
    apply Hdyn. split; [done |]. by exists e. }
  destruct Hret as (g' & h' & Hrun).
  exists g', h'. split; [exact Hrun |].
  apply G_Zombiefy_flags in Hrun as Hheap.
  destruct Hheap as (e0 & He0 & ->). rewrite He in He0. injection He0 as <-.
  pose proof (zombie_flags_zombified (flags e) Hwf) as (_ & _ & _ & _ & _ & Hstatic & _).
  revert Hrun. unfold G_Zombiefy. rewrite He.
  assert (Hgoal : forall d,
    (forall k p, d !! k = Some p <->
       k <> uid e /\ gs_dynamic g !! k = Some p) ->
    registry_exact (with_dynamic g d)
      (<[ent := set_flags e (zombie_flags (flags e))]> h)).
  { intros d Hd. split; simpl.
    - intros k p Hkp. destruct (Hact _ _ Hkp) as (e' & He' & Hu').
      destruct (decide (p = ent)) as [-> | Hne].
      + rewrite lookup_insert_eq. eexists. split; [done |].
        rewrite He in He'. by injection He' as <-.
      + rewrite lookup_insert_ne by done. by exists e'.
    - intros k p. rewrite Hd, Hdyn. split.
      + intros (Hne & Hkp & e' & He' & Hs'). split; [done |].
        destruct (decide (p = ent)) as [-> | Hp].
        * rewrite He in He'. injection He' as <-.
          destruct (Hact _ _ Hkp) as (e'' & He'' & Hu'').
          rewrite He in He''. injection He'' as <-. done.
        * exists e'. by rewrite lookup_insert_ne.
      + intros (Hkp & e' & He' & Hs').
        destruct (decide (p = ent)) as [-> | Hp].
        * rewrite lookup_insert_eq in He'. injection He' as <-.
          simpl in Hs'. congruence.
        * rewrite lookup_insert_ne in He' by done.
          split; [| split; [done | by exists e']].
          intros ->. rewrite Hk in Hkp. congruence. }
  destruct (has_flag (flags e) ENTITY_FLAG_STATIC) eqn:Hst; simpl.
  - intros [= <-]. split; [| split; [done |]].
    + apply Hgoal. intros k p. split.
      * intros Hkp. split; [| done]. intros ->.
        apply Hdyn in Hkp as [Hkp (e' & He' & Hs')].
        rewrite Hk in Hkp. injection Hkp as <-. congruence.
      * tauto.
    + simpl. destruct (gs_dynamic g !! uid e) as [p |] eqn:Hd; [| done].
      apply Hdyn in Hd as [Hkp (e' & He' & Hs')].
      rewrite Hk in Hkp. injection Hkp as <-. congruence.
  - destruct (gs_dynamic g !! uid e) eqn:Hd; [| done].
    intros [= <-]. split; [| split; [done |]].
    + apply Hgoal. intros k p. rewrite lookup_delete_Some.
      split; intros [Hne Hkp]; (split; [congruence | exact Hkp]).
    + simpl. apply lookup_delete_eq.
Qed.

End Registry.

(** ** Removing a faction: the entities *)

Section FactionEntities.

Context `{Scalar} `{!PFMath} `{!GameEnv} `{EntityFlagBits} `{Event.EventTypes}
        `{SDLClock} `{GameConsts}.
Implicit Types (g : gamestate) (h : gmap Z entity) (e : entity).

Lemma set_faction_id_same e : set_faction_id e (faction_id e) = e.
Proof. by destruct e. Qed.

Lemma registry_exact_pointers g h k k' p :
  registry_exact g h ->
  gs_active g !! k = Some p -> gs_active g !! k' = Some p -> k = k'.
Proof.
  intros [Hact _] Hk Hk'.
  destruct (Hact _ _ Hk) as (e & He & <-).
  destruct (Hact _ _ Hk') as (e' & He' & <-). congruence.
Qed.

Lemma registry_exact_refile g h p e fid :
  registry_exact g h -> h !! p = Some e ->
  registry_exact g (<[p := set_faction_id e fid]> h).
Proof.
  intros [Hact Hdyn] He. split.
  - intros k p' Hk. destruct (Hact _ _ Hk) as (e' & He' & Hu).
    destruct (decide (p' = p)) as [-> | Hne].
    + rewrite lookup_insert_eq. eexists. split; [done |].
      rewrite He in He'. by injection He' as <-.
    + rewrite lookup_insert_ne by done. by exists e'.
  - intros k p'. rewrite Hdyn.
    destruct (decide (p' = p)) as [-> | Hne].
    + rewrite lookup_insert_eq. split; intros [Hk (e' & He' & Hs)]; (split; [done |]).
      * rewrite He in He'. injection He' as <-. eexists. split; [done |]. done.
      * injection He' as <-. by exists e.
    + by rewrite lookup_insert_ne.
Qed.

Lemma remove_faction_ents_spec faction slots g h g' h' :
  registry_exact g h ->
  NoDup (slots.*1) ->
  (forall k p, (k, p) ∈ slots -> gs_active g !! k = Some p) ->
  remove_faction_ents faction slots g h = Some (g', h') ->
  registry_exact g' h' /\
  (forall k p e, (k, p) ∈ slots -> h !! p = Some e ->
     faction_gone faction g' h' k p e) /\
  (forall k, k ∉ slots.*1 ->
     gs_active g' !! k = gs_active g !! k /\
     gs_dynamic g' !! k = gs_dynamic g !! k) /\
  (forall p, (forall k, (k, p) ∉ slots) -> h' !! p = h !! p).
Proof.
  revert g h. induction slots as [| [k p] rest IH]; intros g h Hinv Hnd Hin; simpl.
  { intros [= <- <-]. split; [done |]. split; [| done].
    intros k p e Hkp. by apply elem_of_nil in Hkp. }
  apply NoDup_cons in Hnd as [Hk_rest Hnd].
  assert (Hk : gs_active g !! k = Some p) by (apply Hin; left).
  rewrite Hk. pose proof Hinv as [Hact Hdyn].
  destruct (Hact _ _ Hk) as (e & He & Hu). rewrite He.
  assert (Hp_rest : forall k', (k', p) ∉ rest).
  { intros k' Hk'. apply Hk_rest.
    assert (k' = k) as ->.
    { eapply registry_exact_pointers; [done | | done]. apply Hin. by right. }
    eapply list_elem_of_fmap_2'; [exact Hk' | reflexivity]. }
  assert (Hfinish : forall g1 h1,
    registry_exact g1 h1 ->
    (forall k', k' <> k -> gs_active g1 !! k' = gs_active g !! k' /\
                          gs_dynamic g1 !! k' = gs_dynamic g !! k') ->
    (forall p', p' <> p -> h1 !! p' = h !! p') ->
    (forall g2 h2,
       gs_active g2 !! k = gs_active g1 !! k ->
       gs_dynamic g2 !! k = gs_dynamic g1 !! k ->
       h2 !! p = h1 !! p -> faction_gone faction g2 h2 k p e) ->
    remove_faction_ents faction rest g1 h1 = Some (g', h') ->
    registry_exact g' h' /\
    (forall k0 p0 e0, (k0, p0) ∈ (k, p) :: rest -> h !! p0 = Some e0 ->
       faction_gone faction g' h' k0 p0 e0) /\
    (forall k0, k0 ∉ k :: rest.*1 ->
       gs_active g' !! k0 = gs_active g !! k0 /\
       gs_dynamic g' !! k0 = gs_dynamic g !! k0) /\
    (forall p0, (forall k0, (k0, p0) ∉ (k, p) :: rest) -> h' !! p0 = h !! p0)).
  { intros g1 h1 Hinv1 Hsame Hheap Hhead Hrun.
    destruct (IH g1 h1 Hinv1 Hnd) as (Hinv' & Hslots & Hother & Hptr); [| exact Hrun |].
    { intros k' p' Hk'. destruct (Hsame k') as [-> _].
      - intros Heq. subst k'. apply Hk_rest.
        eapply list_elem_of_fmap_2'; [exact Hk' | reflexivity].
      - apply Hin. by right. }
    split; [exact Hinv' |]. split; [| split].
    - intros k0 p0 e0 Hk0 He0.
      apply elem_of_cons in Hk0 as [[= -> ->] | Hk0].
      + rewrite He in He0. injection He0 as <-.
        destruct (Hother k Hk_rest) as [Ha Hd].
        apply Hhead; [done | done |]. apply Hptr. exact Hp_rest.
      + apply Hslots; [done |]. rewrite Hheap; [done |].
        intros ->. by apply (Hp_rest k0).
    - intros k0 Hk0. apply not_elem_of_cons in Hk0 as [Hne Hk0].
      destruct (Hother k0 Hk0) as [-> ->]. by apply Hsame.
    - intros p0 Hp0. rewrite Hptr.
      + apply Hheap. intros ->. apply (Hp0 k). left.
      + intros k0 Hk0. apply (Hp0 k0). by right. }
  destruct (Z.eqb_spec (faction_id e) faction) as [Hfid | Hfid].
  - destruct (G_RemoveEntity_exact p e g h Hinv He) as (r & g1 & Hrem & Hinv1 & Hact1 & _).
    { left. by rewrite Hu. }
    rewrite Hrem. apply Hfinish; try done.
    + intros k' Hne. rewrite Hact1, Hu, lookup_delete_ne by done.
      split; [done |]. revert Hrem. unfold G_RemoveEntity. rewrite He, Hu, Hk.
      destruct (negb _); [| by intros [= _ <-]].
      destruct (gs_dynamic _ !! k); [| done]. intros [= _ <-]. simpl.
      by rewrite lookup_delete_ne.
    + intros g2 h2 Ha Hd Hh. unfold faction_gone.
      destruct (Z.eqb_spec (faction_id e) faction); [| done].
      rewrite Ha, Hd, Hh, Hact1, Hu, lookup_delete_eq.
      split; [done |]. split; [| done].
      destruct (gs_dynamic g1 !! k) as [pd |] eqn:Hpd; [| done].
      destruct Hinv1 as [_ Hdyn1]. apply Hdyn1 in Hpd as [Hpd _].
      by rewrite Hact1, Hu, lookup_delete_eq in Hpd.
  - destruct (Z.gtb_spec (faction_id e) faction) as [Hgt | Hle].
    + apply Hfinish; try done.
      * by apply registry_exact_refile.
      * intros p' Hne. by rewrite lookup_insert_ne.
      * intros g2 h2 Ha Hd Hh. unfold faction_gone, renumber.
        destruct (Z.eqb_spec (faction_id e) faction); [done |].
        destruct (Z.gtb_spec (faction_id e) faction); [| lia].
        by rewrite Ha, Hh, lookup_insert_eq.
    + apply Hfinish; try done.
      intros g2 h2 Ha Hd Hh. unfold faction_gone, renumber.
      destruct (Z.eqb_spec (faction_id e) faction); [done |].
      destruct (Z.gtb_spec (faction_id e) faction); [lia |].
      by rewrite Ha, Hh, set_faction_id_same.
Qed.

(** X16. A successful [G_RemoveFaction] takes every entity of the removed
    faction out of the registry (out of both keyed sets; the entity
    itself is not freed), gives every other registered entity its
    renumbered faction id, touches no other entity, and keeps the two
    keyed sets consistent. *)
Theorem remove_faction_renumbers_entities faction g h g' h' :
  registry_exact g h ->
  G_RemoveFaction faction g h = Some (true, g', h') ->
  registry_exact g' h' /\
  (forall k p e, gs_active g !! k = Some p -> h !! p = Some e ->
     faction_gone faction g' h' k p e) /\
  (forall k, gs_active g !! k = None -> gs_active g' !! k = None) /\
  (forall p, (forall k, gs_active g !! k <> Some p) -> h' !! p = h !! p).
Proof.
  intros Hinv. unfold G_RemoveFaction.
  destruct (gs_num_factions g <? 2); [done |].
  destruct ((faction <? 0) || (faction >=? gs_num_factions g)); [done |].
  destruct (remove_faction_ents _ _ _ _) as [[g1 h1] |] eqn:Hloop; [| done].
  intros [= <- <-].
  apply remove_faction_ents_spec in Hloop as (Hinv1 & Hslots & Hother & Hptr);
    [| done | apply NoDup_fst_map_to_list
     | by intros k p Hkp; apply elem_of_map_to_list in Hkp].
  split; [exact Hinv1 |]. split; [| split].
  - intros k p e Hk He.
    specialize (Hslots k p e ltac:(by apply elem_of_map_to_list) He).
    unfold faction_gone in *. by destruct (faction_id e =? faction).
  - intros k Hk. simpl. destruct (Hother k) as [-> _]; [| done].
    intros Hin. apply list_elem_of_fmap in Hin as ([k' p] & -> & Hin).
    apply elem_of_map_to_list in Hin. simpl in Hk. congruence.
  - intros p Hp. apply Hptr. intros k Hin.
    apply elem_of_map_to_list in Hin. by apply (Hp k).
Qed.

End FactionEntities.

(** ** Registry calls keep the keyed sets consistent *)

Section RegistryKept.

Context `{Scalar} `{!PFMath} `{!GameEnv} `{EntityFlagBits} `{Event.EventTypes}
        `{SDLClock} `{GameConsts}.
Implicit Types (g : gamestate) (h : gmap Z entity) (e : entity).

(** X17. On a consistent registry, for a live entity: [G_AddEntity]
    returns, with [true] exactly when the uid was free; [G_RemoveEntity]
    and [G_Zombiefy] of a registered entity return (their assertions
    hold), the first taking the uid out of [s_gs.active], the second
    leaving [s_gs.active] alone and taking the entity out of
    [s_gs.dynamic]; and after each of the three the registry is
    consistent again. *)
Theorem registry_stays_consistent ent e g h :
  registry_exact g h ->
  h !! ent = Some e ->
  (exists r g', G_AddEntity ent g h = Some (r, g') /\ registry_exact g' h /\
     (r = true <-> gs_active g !! uid e = None)) /\
  (gs_active g !! uid e = Some ent ->
     exists g', G_RemoveEntity ent g h = Some (true, g') /\
       registry_exact g' h /\
       gs_active g' = delete (uid e) (gs_active g)) /\
  (flag_bits_wf -> gs_active g !! uid e = Some ent ->
     exists g' h', G_Zombiefy ent g h = Some (g', h') /\
       registry_exact g' h' /\
       gs_active g' = gs_active g /\ gs_dynamic g' !! uid e = None).
Proof.
  intros Hinv He. split; [| split].
  - by apply G_AddEntity_exact.
  - intros Hk.
    destruct (G_RemoveEntity_exact ent e g h Hinv He (or_introl Hk))
      as (r & g' & Hrun & Hinv' & Hact & Hr).
    assert (r = true) as -> by (by apply Hr).
    by exists g'.
  - intros Hwf Hk. by apply G_Zombiefy_exact.
Qed.

End RegistryKept.

(** ** The per-tick update *)

Section Tick.

Context `{Scalar} `{!PFMath} `{!GameEnv} `{EntityFlagBits} `{Event.EventTypes}
        `{SDLClock} `{GameConsts}.
Implicit Types (g : gamestate) (h : gmap Z entity) (e : entity)
               (q : event_queue) (clk : nat).

Lemma update_entities_paused ss slots vis lvis h q clk vis' lvis' h' q' clk' :
  ss <> G_RUNNING ->
  update_entities ss slots (vis, lvis, h, q, clk) = Some (vis', lvis', h', q', clk') ->
  h' = h /\ q' = q /\ clk' = clk.
Proof.
  intros Hss. revert vis lvis.
  induction slots as [| [k p] rest IH]; intros vis lvis; cbn [update_entities].
  - by intros [= _ _ <- <- <-].
  - unfold update_entity.
    destruct (h !! p) as [e0 |] eqn:He0; [| done].
    destruct (Z.eqb_spec ss G_RUNNING) as [Heq | _]; [done |].
    cbn [andb]. rewrite (insert_id h p e0 He0).
    destruct (negb (has_flag (flags e0) ENTITY_FLAG_COLLISION)); [apply IH |].
    destruct (has_flag (flags e0) ENTITY_FLAG_INVISIBLE); [apply IH |].
    apply IH.
Qed.

(** X18. While the simulation is not running, [G_Update] advances no
    animation: every entity, the event queue and the clock come back as
    they were; only the two visibility vectors are rebuilt. *)
Theorem paused_update_changes_no_entity g h q clk g' h' q' clk' :
  gs_ss g <> G_RUNNING ->
  G_Update g h q clk = Some (g', h', q', clk') ->
  h' = h /\ q' = q /\ clk' = clk /\
  gs_active g' = gs_active g /\ gs_dynamic g' = gs_dynamic g /\
  gs_ss g' = gs_ss g.
Proof.
  intros Hss. unfold G_Update.
  destruct (update_entities _ _ _) as [[[[[vis lvis] h1] q1] clk1] |] eqn:Hrun;
    [| done].
  intros [= <- <- <- <-].
  apply (update_entities_paused _ _ _ _ _ _ _ _ _ _ _ _ Hss) in Hrun
    as (-> & -> & ->).
  done.
Qed.

Lemma update_entity_spec ss p vis lvis h q clk st' :
  update_entity ss p (vis, lvis, h, q, clk) = Some st' ->
  exists e q' clk',
    st' = (vis ++ (if shown e && cam_frustum_hit e then [p] else []),
           lvis ++ (if shown e && light_frustum_hit e then [p] else []),
           <[p := e]> h, q', clk').
Proof.
  unfold update_entity, shown.
  destruct (h !! p) as [e0 |]; [| done].
  destruct (if (ss =? G_RUNNING) && has_flag (flags e0) ENTITY_FLAG_ANIMATED
            then A_Update e0 q clk else Some (e0, q, clk))
    as [[[e q1] clk1] |]; [| done].
  intros Hst. exists e, q1, clk1.
  destruct (has_flag (flags e) ENTITY_FLAG_COLLISION); simpl in *.
  - destruct (has_flag (flags e) ENTITY_FLAG_INVISIBLE); simpl in *.
    + injection Hst as <-. by rewrite !app_nil_r.
    + injection Hst as <-.
      destruct (cam_frustum_hit e), (light_frustum_hit e);
        by rewrite ?app_nil_r.
  - injection Hst as <-. by rewrite !app_nil_r.
Qed.

Lemma update_entities_spec ss slots vis lvis h q clk vis' lvis' h' q' clk' :
  NoDup (slots.*2) ->
  update_entities ss slots (vis, lvis, h, q, clk) = Some (vis', lvis', h', q', clk') ->
  exists vis1 lvis1,
    vis' = vis ++ vis1 /\ lvis' = lvis ++ lvis1 /\
    NoDup vis1 /\ NoDup lvis1 /\
    (forall p, p ∈ vis1 <->
       p ∈ slots.*2 /\
       exists e, h' !! p = Some e /\ shown e = true /\ cam_frustum_hit e = true) /\
    (forall p, p ∈ lvis1 <->
       p ∈ slots.*2 /\
       exists e, h' !! p = Some e /\ shown e = true /\ light_frustum_hit e = true) /\
    (forall p, p ∉ slots.*2 -> h' !! p = h !! p).
Proof.
  revert vis lvis h q clk.
  induction slots as [| [k p] rest IH]; intros vis lvis h q clk Hnd;
    cbn [update_entities].
  - intros [= <- <- <- <- <-]. exists [], [].
    rewrite !app_nil_r.
    split; [done |]. split; [done |].
    split; [constructor |]. split; [constructor |].
    split; [| split; [| done]]; intros p;
      (split; [intros Hp | intros [Hp _]]; by apply elem_of_nil in Hp).
  - cbn [fmap list_fmap] in Hnd. apply NoDup_cons in Hnd as [Hp_rest Hnd].
    destruct (update_entity ss p (vis, lvis, h, q, clk)) as [st1 |] eqn:Hstep;
      [| done].
    apply update_entity_spec in Hstep as (e & q1 & clk1 & ->).
    intros Hrun.
    apply IH in Hrun as (vis1 & lvis1 & -> & -> & Hndv & Hndl & Hvis & Hlvis & Hheap);
      [| exact Hnd].
    assert (Hp : h' !! p = Some e).
    { rewrite Hheap by exact Hp_rest. apply lookup_insert_eq. }
    assert (Hsplit : forall (hit : entity -> bool) (l1 : list Z),
      NoDup l1 ->
      (forall p0, p0 ∈ l1 <->
         p0 ∈ rest.*2 /\
         exists e0, h' !! p0 = Some e0 /\ shown e0 = true /\ hit e0 = true) ->
      NoDup ((if shown e && hit e then [p] else []) ++ l1) /\
      (forall p0, p0 ∈ (if shown e && hit e then [p] else []) ++ l1 <->
         p0 ∈ p :: rest.*2 /\
         exists e0, h' !! p0 = Some e0 /\ shown e0 = true /\ hit e0 = true)).
    { intros hit l1 Hnd1 Hl1. split.
      - destruct (shown e && hit e); [| done]. simpl.
        apply NoDup_cons. split; [| done]. intros Hin. apply Hl1 in Hin as [Hin _].
        done.
      - intros p0. rewrite elem_of_app, Hl1, elem_of_cons. split.
        + intros [Hhead | [Hin Hshown]].
          * destruct (shown e && hit e) eqn:Hs; [| by apply elem_of_nil in Hhead].
            apply list_elem_of_singleton in Hhead as ->.
            apply andb_true_iff in Hs as [Hs1 Hs2].
            split; [by left |]. by exists e.
          * split; [by right | done].
        + intros [[-> | Hin] (e0 & He0 & Hs1 & Hs2)].
          * left. rewrite Hp in He0. injection He0 as <-.
            rewrite Hs1, Hs2. simpl. by apply list_elem_of_singleton.
          * right. split; [done |]. by exists e0. }
    destruct (Hsplit cam_frustum_hit vis1 Hndv Hvis) as [Hndv' Hvis'].
    destruct (Hsplit light_frustum_hit lvis1 Hndl Hlvis) as [Hndl' Hlvis'].
    eexists _, _. rewrite <- !app_assoc.
    split; [reflexivity |]. split; [reflexivity |].
    split; [exact Hndv' |]. split; [exact Hndl' |].
    split; [exact Hvis' |]. split; [exact Hlvis' |].
    intros p0 Hp0. cbn [fmap list_fmap] in Hp0.
    apply not_elem_of_cons in Hp0 as [Hne Hp0].
    rewrite Hheap by exact Hp0. by rewrite lookup_insert_ne.
Qed.

(** X19. After [G_Update] on a consistent registry the visible set holds,
    once each, exactly the registered entities that (as the update left
    them) have the collision flag, lack the invisible flag and pass the
    camera frustum test; the light-visible set likewise with the light
    frustum. Entities that are not registered are not touched. *)
Theorem update_rebuilds_visibility g h q clk g' h' q' clk' :
  registry_exact g h ->
  G_Update g h q clk = Some (g', h', q', clk') ->
  NoDup (gs_visible g') /\ NoDup (gs_light_visible g') /\
  (forall p, p ∈ gs_visible g' <->
     exists k e, gs_active g !! k = Some p /\ h' !! p = Some e /\
       shown e = true /\ cam_frustum_hit e = true) /\
  (forall p, p ∈ gs_light_visible g' <->
     exists k e, gs_active g !! k = Some p /\ h' !! p = Some e /\
       shown e = true /\ light_frustum_hit e = true) /\
  (forall p, (forall k, gs_active g !! k <> Some p) -> h' !! p = h !! p).
Proof.
  intros Hinv. unfold G_Update.
  destruct (update_entities _ _ _) as [[[[[vis lvis] h1] q1] clk1] |] eqn:Hrun;
    [| done].
  intros [= <- <- <- <-].
  assert (Hmem : forall p, p ∈ (map_to_list (gs_active g)).*2 <->
                           exists k, gs_active g !! k = Some p).
  { intros p. rewrite list_elem_of_fmap. split.
    - intros ([k p'] & -> & Hin). exists k. by apply elem_of_map_to_list.
    - intros [k Hk]. exists (k, p). split; [done |]. by apply elem_of_map_to_list. }
  apply update_entities_spec in Hrun
    as (vis1 & lvis1 & -> & -> & Hndv & Hndl & Hvis & Hlvis & Hheap).
  - simpl. split; [exact Hndv |]. split; [exact Hndl |].
    split; [| split].
    + intros p. rewrite Hvis, Hmem. split.
      * intros [[k Hk] (e & He)]. by exists k, e.
      * intros (k & e & Hk & He). split; [by exists k | by exists e].
    + intros p. rewrite Hlvis, Hmem. split.
      * intros [[k Hk] (e & He)]. by exists k, e.
      * intros (k & e & Hk & He). split; [by exists k | by exists e].
    + intros p Hp. apply Hheap. rewrite Hmem. intros [k Hk]. by apply (Hp k).
  - apply NoDup_fmap_2_strong; [| apply NoDup_map_to_list].
    intros [k1 p1] [k2 p2] Hin1 Hin2 Heq. simpl in Heq. subst p2.
    apply elem_of_map_to_list in Hin1, Hin2.
    by rewrite (registry_exact_pointers g h k1 k2 p1 Hinv Hin1 Hin2).
Qed.

End Tick.

(** ** Adding a faction *)

Section AddFaction.

Context `{Scalar} `{!PFMath} `{!GameEnv} `{EntityFlagBits} `{Event.EventTypes}
        `{SDLClock} `{GameConsts}.
Implicit Types (g : gamestate) (t : list (list Z)).

(** The table after the loop of [G_AddFaction] has run for the factions
    [i], ..., [i + cnt - 1]. *)
Lemma add_faction_peace_get n cnt i new t a b :
  tbl_wf n t -> 0 <= i -> i + Z.of_nat cnt <= new -> new < n ->
  tbl_wf n (add_faction_peace cnt i new t) /\
  tbl_get (add_faction_peace cnt i new t) a b =
    if ((a =? new) && (i <=? b) && (b <? i + Z.of_nat cnt))
       || ((b =? new) && (i <=? a) && (a <? i + Z.of_nat cnt))
    then Some DIPLOMACY_STATE_PEACE
    else tbl_get t a b.
Proof.
  revert i t. induction cnt as [| cnt IH]; intros i t Hwf Hi Hcnt Hnew.
  - split; [done |]. cbn [add_faction_peace]. zcmp; simpl; try done; lia.
  - cbn [add_faction_peace].
    set (t1 := tbl_set t i new DIPLOMACY_STATE_PEACE).
    set (t2 := tbl_set t1 new i DIPLOMACY_STATE_PEACE).
    assert (Hwf1 : tbl_wf n t1) by by apply tbl_set_wf.
    assert (Hwf2 : tbl_wf n t2) by by apply tbl_set_wf.
    destruct (IH (i + 1) t2 Hwf2 ltac:(lia) ltac:(lia) Hnew) as [Hwf' ->].
    split; [exact Hwf' |].
    destruct (decide ((a, b) = (new, i))) as [[= -> ->] | Hne2].
    { unfold t2. rewrite (tbl_get_set_eq n) by (done || lia).
      zcmp; simpl; try done; lia. }
    unfold t2 at 1. rewrite tbl_get_set_ne by done.
    destruct (decide ((a, b) = (i, new))) as [[= -> ->] | Hne1].
    { unfold t1. rewrite (tbl_get_set_eq n) by (done || lia).
      zcmp; simpl; try done; lia. }
    unfold t1. rewrite tbl_get_set_ne by done.
    zcmp; simpl; try done; try lia; exfalso;
      (apply Hne1; f_equal; lia) || (apply Hne2; f_equal; lia).
Qed.

(** X20. [G_AddFaction] refuses, changing nothing, when the faction array
    is full or the name does not fit. Otherwise the new faction gets the
    next id and is at peace with every faction that was there, in both
    directions; no entry between two older factions changes, and a
    symmetric table stays symmetric. *)
Theorem new_faction_is_at_peace nm color g :
  tbl_wf MAX_FACTIONS (gs_diplomacy_table g) ->
  0 <= gs_num_factions g <= MAX_FACTIONS ->
  let n := gs_num_factions g in
  match G_AddFaction nm color g with
  | (false, g') =>
    g' = g /\ (n = MAX_FACTIONS \/ MAX_FAC_NAME_LEN <= Z.of_nat (String.length nm))
  | (true, g') =>
    n < MAX_FACTIONS /\ Z.of_nat (String.length nm) < MAX_FAC_NAME_LEN /\
    gs_num_factions g' = n + 1 /\
    (forall i, 0 <= i < n ->
       tbl_get (gs_diplomacy_table g') i n = Some DIPLOMACY_STATE_PEACE /\
       tbl_get (gs_diplomacy_table g') n i = Some DIPLOMACY_STATE_PEACE) /\
    (forall a b, a <> n -> b <> n ->
       tbl_get (gs_diplomacy_table g') a b = tbl_get (gs_diplomacy_table g) a b) /\
    (tbl_symmetric n (gs_diplomacy_table g) ->
     tbl_symmetric (n + 1) (gs_diplomacy_table g'))
  end.
Proof.
  intros Hwf Hn n. unfold G_AddFaction. fold n.
  change (0 <= n <= MAX_FACTIONS) in Hn. clearbody n.
  destruct (Z.eqb_spec n MAX_FACTIONS) as [Hfull | Hroom].
  { split; [done | by left]. }
  destruct (Z.geb_spec (Z.of_nat (String.length nm)) MAX_FAC_NAME_LEN) as [Hlong | Hfits].
  { split; [done | right; lia]. }
  cbn [gs_num_factions gs_diplomacy_table with_factions].
  assert (Hget : forall a b,
    tbl_get (add_faction_peace (Z.to_nat n) 0 n (gs_diplomacy_table g)) a b =
      if ((a =? n) && (0 <=? b) && (b <? n)) || ((b =? n) && (0 <=? a) && (a <? n))
      then Some DIPLOMACY_STATE_PEACE
      else tbl_get (gs_diplomacy_table g) a b).
  { intros a b.
    destruct (add_faction_peace_get MAX_FACTIONS (Z.to_nat n) 0 n
                (gs_diplomacy_table g) a b Hwf) as [_ ->]; try lia.
    rewrite Z2Nat.id by lia. reflexivity. }
  split; [lia |]. split; [lia |]. split; [reflexivity |].
  split; [| split].
  - intros i Hi. rewrite !Hget. split; zcmp; simpl; try done; lia.
  - intros a b Ha Hb. rewrite Hget. zcmp; simpl; try done; lia.
  - intros Hsym a b Ha Hb. rewrite !Hget.
    zcmp; simpl; try done; try lia; try (apply Hsym; lia); congruence.
Qed.

End AddFaction.

(** ** Diplomacy through the two calls *)

Section DiplomacyCalls.

Context `{Scalar} `{!PFMath} `{!GameEnv} `{EntityFlagBits} `{Event.EventTypes}
        `{SDLClock} `{GameConsts}.
Implicit Types (g : gamestate).

(** X21. What [G_SetDiplomacyState] stores, [G_GetDiplomacyState] reads
    back: after a successful set of the pair [(a, b)] to [ds], a get of
    [(a, b)] and of [(b, a)] yields [ds], and a get of any other pair
    yields what it yielded before. A get fails for exactly the pairs for
    which a set fails (an id out of range, or twice the same id). *)
Theorem diplomacy_set_then_get a b ds g :
  tbl_wf MAX_FACTIONS (gs_diplomacy_table g) ->
  gs_num_factions g <= MAX_FACTIONS ->
  (fst (G_SetDiplomacyState a b ds g) = false <-> G_GetDiplomacyState a b g = None) /\
  (forall g', G_SetDiplomacyState a b ds g = (true, g') ->
     G_GetDiplomacyState a b g' = Some ds /\
     G_GetDiplomacyState b a g' = Some ds /\
     forall c d, (c, d) <> (a, b) -> (c, d) <> (b, a) ->
       G_GetDiplomacyState c d g' = G_GetDiplomacyState c d g).
Proof.
  intros Hwf Hn. split.
  - unfold G_SetDiplomacyState, G_GetDiplomacyState.
    destruct (Z.ltb_spec a 0); [done |].
    destruct (Z.geb_spec a (gs_num_factions g)); [done |].
    destruct (Z.ltb_spec b 0); [done |].
    destruct (Z.geb_spec b (gs_num_factions g)); [done |].
    destruct (Z.eqb_spec a b); [done |]. simpl. split; [done |].
    intros Hnone. exfalso. revert Hnone.
    destruct (tbl_wf_has_row _ _ a Hwf ltac:(lia)) as [row Hrow].
    unfold tbl_get. rewrite Hrow.
    pose proof (tbl_wf_row _ _ _ _ Hwf Hrow) as Hlen.
    destruct (arr_get_in_range row b ltac:(lia)) as [x ->]. done.
  - intros g' Hset.
    apply G_SetDiplomacyState_true in Hset as ((Ha & Hb & Hab) & Hnum & Htbl).
    unfold G_GetDiplomacyState. rewrite Hnum, Htbl.
    assert (Hwf1 : tbl_wf MAX_FACTIONS (tbl_set (gs_diplomacy_table g) a b ds))
      by by apply tbl_set_wf.
    split; [| split].
    + destruct (Z.ltb_spec a 0); [lia |].
      destruct (Z.geb_spec a (gs_num_factions g)); [lia |].
      destruct (Z.ltb_spec b 0); [lia |].
      destruct (Z.geb_spec b (gs_num_factions g)); [lia |].
      destruct (Z.eqb_spec a b); [lia |]. simpl.
      rewrite tbl_get_set_ne by congruence.
      apply (tbl_get_set_eq MAX_FACTIONS); (done || lia).
    + destruct (Z.ltb_spec b 0); [lia |].
      destruct (Z.geb_spec b (gs_num_factions g)); [lia |].
      destruct (Z.ltb_spec a 0); [lia |].
      destruct (Z.geb_spec a (gs_num_factions g)); [lia |].
      destruct (Z.eqb_spec b a); [lia |]. simpl.
      apply (tbl_get_set_eq MAX_FACTIONS); (done || lia).
    + intros c d Hne1 Hne2.
      by rewrite !tbl_get_set_ne by done.
Qed.

End DiplomacyCalls.

(** ** The list of factions *)

Section FactionList.

Context `{Scalar} `{!PFMath} `{!GameEnv} `{EntityFlagBits} `{Event.EventTypes}
        `{SDLClock} `{GameConsts}.
Implicit Types (g : gamestate) (facs rows : list faction).

Lemma substring_whole (s : string) (n : nat) :
  (String.length s <= n)%nat -> String.substring 0 n s = s.
Proof.
  revert n. induction s as [| c s IH]; intros n Hn; destruct n as [| n];
    simpl in *; try done; try lia.
  rewrite IH by lia. reflexivity.
Qed.

Lemma copy_fac_name_fits nm :
  Z.of_nat (String.length nm) < MAX_FAC_NAME_LEN -> copy_fac_name nm = nm.
Proof. intros Hfits. unfold copy_fac_name. apply substring_whole. lia. Qed.

Lemma get_factions_loop_rows cnt i facs :
  0 <= i -> i + Z.of_nat cnt <= Z.of_nat (length facs) ->
  let rows := take cnt (drop (Z.to_nat i) facs) in
  get_factions_loop cnt i facs =
    Some ((fun f => copy_fac_name (fac_name f)) <$> rows,
          fac_color <$> rows, fac_controllable <$> rows).
Proof.
  revert i. induction cnt as [| cnt IH]; intros i Hi Hlen; cbv zeta.
  - reflexivity.
  - cbn [get_factions_loop].
    destruct (arr_get_in_range facs i ltac:(lia)) as [f Hf]. rewrite Hf.
    rewrite IH by lia. cbv zeta.
    rewrite arr_get_nat in Hf by lia.
    rewrite (drop_S facs f (Z.to_nat i) Hf).
    replace (Z.to_nat (i + 1)) with (S (Z.to_nat i)) by lia.
    reflexivity.
Qed.

Lemma G_GetFactions_rows g :
  0 <= gs_num_factions g <= Z.of_nat (length (gs_factions g)) ->
  let rows := take (Z.to_nat (gs_num_factions g)) (gs_factions g) in
  G_GetFactions g =
    Some ((fun f => copy_fac_name (fac_name f)) <$> rows,
          fac_color <$> rows, fac_controllable <$> rows,
          gs_num_factions g).
Proof.
  intros Hn. unfold G_GetFactions.
  rewrite get_factions_loop_rows by lia. reflexivity.
Qed.

Lemma take_memmove_delete {A : Type} (a : list A) (f n : nat) :
  (f < n <= length a)%nat ->
  take (n - 1)
    (memmove_elems a (Z.of_nat f) (Z.of_nat f + 1) (Z.of_nat n - Z.of_nat f - 1))
  = delete f (take n a).
Proof.
  intros Hfn. unfold memmove_elems.
  replace (Z.to_nat (Z.of_nat f)) with f by lia.
  replace (Z.to_nat (Z.of_nat f + 1)) with (S f) by lia.
  replace (Z.to_nat (Z.of_nat n - Z.of_nat f - 1)) with (n - f - 1)%nat by lia.
  rewrite app_assoc, take_app_length'.
  - rewrite delete_take_drop, take_take.
    replace (f `min` n)%nat with f by lia.
    f_equal. rewrite take_drop_commute. f_equal. f_equal. lia.
  - rewrite length_app, !length_take, length_drop. lia.
Qed.

(** X22. [G_GetFactions] reports the first [num_factions] entries of the
    faction array (the names cut to what fits the caller's buffers, the
    colours, the control flags), and the other faction calls change its
    report as their names say: a successful [G_AddFaction] appends the new faction,
    controllable, at the end; a successful [G_UpdateFaction] replaces the
    entry of the given id, which then lies in range; a successful
    [G_RemoveFaction] deletes the entry of the given id, the later ones
    moving up in order. [G_UpdateFaction] does not reject a negative id:
    with a name that fits, its stores fall outside the array. *)
Theorem faction_list_follows_the_calls g :
  Z.of_nat (length (gs_factions g)) = MAX_FACTIONS ->
  0 <= gs_num_factions g <= MAX_FACTIONS ->
  let n := gs_num_factions g in
  let rows := take (Z.to_nat n) (gs_factions g) in
  let names := map (fun f => copy_fac_name (fac_name f)) rows in
  let colors := map fac_color rows in
  let ctrl := map fac_controllable rows in
  G_GetFactions g = Some (names, colors, ctrl, n) /\
  (forall nm color g',
     G_AddFaction nm color g = (true, g') ->
     G_GetFactions g' =
       Some (names ++ [nm], colors ++ [color], ctrl ++ [true], n + 1)) /\
  (forall id nm color control g',
     G_UpdateFaction id nm color control g = Some (true, g') ->
     0 <= id < n /\
     G_GetFactions g' =
       Some (<[Z.to_nat id := nm]> names, <[Z.to_nat id := color]> colors,
             <[Z.to_nat id := control]> ctrl, n)) /\
  (forall id nm color control,
     id < 0 -> Z.of_nat (String.length nm) < MAX_FAC_NAME_LEN ->
     G_UpdateFaction id nm color control g = None) /\
  (forall faction h g' h',
     G_RemoveFaction faction g h = Some (true, g', h') ->
     G_GetFactions g' =
       Some (delete (Z.to_nat faction) names, delete (Z.to_nat faction) colors,
             delete (Z.to_nat faction) ctrl, n - 1)).
Proof.
  intros Hlen Hn n rows names colors ctrl. subst rows names colors ctrl.
  split; [apply G_GetFactions_rows; lia |].
  split; [| split; [| split]].
  - intros nm color g'. unfold G_AddFaction. fold n.
    destruct (Z.eqb_spec n MAX_FACTIONS) as [| Hroom]; [done |].
    destruct (Z.geb_spec (Z.of_nat (String.length nm)) MAX_FAC_NAME_LEN)
      as [| Hfits]; [done |].
    intros [= <-].
    rewrite G_GetFactions_rows
      by (cbn [gs_num_factions gs_factions with_factions];
          rewrite length_arr_set; lia).
    cbn [gs_num_factions gs_factions with_factions]. cbv zeta.
    unfold arr_set. destruct (Z.ltb_spec n 0); [lia |].
    replace (Z.to_nat (n + 1)) with (S (Z.to_nat n)) by lia.
    rewrite (take_S_r _ _ (MkFaction nm color true))
      by (apply list_lookup_insert_eq; lia).
    rewrite take_insert_ge by lia.
    rewrite !fmap_app. simpl. by rewrite copy_fac_name_fits by lia.
  - intros id nm color control g'. unfold G_UpdateFaction. fold n.
    destruct (Z.geb_spec id n); [done |].
    destruct (Z.geb_spec (Z.of_nat (String.length nm)) MAX_FAC_NAME_LEN)
      as [| Hfits]; [done |].
    destruct (Z.ltb_spec id 0); [done |].
    destruct (Z.geb_spec id (Z.of_nat (length (gs_factions g)))); [done |].
    simpl. intros [= <-]. split; [lia |].
    rewrite G_GetFactions_rows
      by (cbn [gs_num_factions gs_factions with_factions];
          rewrite length_arr_set; lia).
    cbn [gs_num_factions gs_factions with_factions]. cbv zeta.
    unfold arr_set. destruct (Z.ltb_spec id 0); [lia |].
    rewrite take_insert_lt by lia.
    rewrite !list_fmap_insert. simpl. by rewrite copy_fac_name_fits by lia.
  - intros id nm color control Hneg Hfits. unfold G_UpdateFaction. fold n.
    destruct (Z.geb_spec id n); [lia |].
    destruct (Z.geb_spec (Z.of_nat (String.length nm)) MAX_FAC_NAME_LEN); [lia |].
    destruct (Z.ltb_spec id 0); [done | lia].
  - intros faction h g' h' Hrem.
    assert (Hfacs : exists g1 h1,
              remove_faction_ents faction (map_to_list (gs_active g)) g h
                = Some (g1, h1) /\
              2 <= n /\ 0 <= faction < n /\
              g' = with_factions g1 (n - 1)
                     (memmove_elems (gs_factions g) faction (faction + 1)
                        (n - faction - 1))
                     (gs_diplomacy_table g')).
    { revert Hrem. unfold G_RemoveFaction. fold n.
      destruct (Z.ltb_spec n 2); [done |].
      destruct (Z.ltb_spec faction 0); [done |].
      destruct (Z.geb_spec faction n); [done |]. simpl.
      destruct (remove_faction_ents _ _ _ _) as [[g1 h1] |] eqn:Hloop; [| done].
      apply remove_faction_ents_factions in Hloop as Hsame.
      destruct Hsame as (Hnum & Hfs & _).
      intros [= <- <-]. exists g1, h1. rewrite Hnum, Hfs. fold n.
      split; [done |]. split; [lia |]. split; [lia |]. reflexivity. }
    destruct Hfacs as (g1 & h1 & _ & Hn2 & Hf & ->).
    rewrite G_GetFactions_rows.
    2:{ cbn [gs_num_factions gs_factions with_factions].
        rewrite length_memmove_elems by lia. lia. }
    cbn [gs_num_factions gs_factions with_factions]. cbv zeta.
    replace (Z.to_nat (n - 1)) with (Z.to_nat n - 1)%nat by lia.
    pose proof (take_memmove_delete (gs_factions g) (Z.to_nat faction) (Z.to_nat n)
                  ltac:(lia)) as Htake.
    rewrite !Z2Nat.id in Htake by lia. rewrite Htake.
    by rewrite !list_fmap_delete.
Qed.

End FactionList.

(** ** Pausing and resuming *)

Section Pause.

Context `{Scalar} `{!PFMath} `{!GameEnv} `{EntityFlagBits} `{EventTypes}
        `{SDLClock} `{GameConsts} `{GameEvents}.
Implicit Types (g : gamestate) (h : gmap Z entity) (e : entity)
               (q : event_queue) (clk : nat).

Lemma add_time_deltas_spec slots dt h :
  NoDup (slots.*2) ->
  (forall p, p ∈ slots.*2 -> is_Some (h !! p)) ->
  exists h',
    add_time_deltas slots dt h = Some h' /\
    (forall p e, p ∈ slots.*2 -> h !! p = Some e ->
       h' !! p = Some (resumed_entity dt e)) /\
    (forall p, p ∉ slots.*2 -> h' !! p = h !! p).
Proof.
  revert h. induction slots as [| [k p] rest IH]; intros h Hnd Hlive.
  { exists h. split; [done |]. split; [| done].
    intros p e Hp. by apply elem_of_nil in Hp. }
  cbn [fmap list_fmap snd] in *. apply NoDup_cons in Hnd as [Hp_rest Hnd].
  cbn [add_time_deltas].
  destruct (Hlive p ltac:(left)) as [e He]. rewrite He.
  set (h1 := if negb (has_flag (flags e) ENTITY_FLAG_ANIMATED) then h
             else <[p := A_AddTimeDelta e dt]> h).
  assert (Hh1 : h1 !! p = Some (resumed_entity dt e)).
  { unfold h1, resumed_entity.
    destruct (has_flag (flags e) ENTITY_FLAG_ANIMATED); simpl;
      [apply lookup_insert_eq | exact He]. }
  assert (Hother : forall p', p' <> p -> h1 !! p' = h !! p').
  { intros p' Hne. unfold h1.
    destruct (negb _); [done | by rewrite lookup_insert_ne]. }
  destruct (IH h1 Hnd) as (h' & Hrun & Hin & Hout).
  { intros p' Hp'. rewrite Hother; [apply Hlive; by right |].
    intros ->. done. }
  exists h'. split.
  { revert Hrun. unfold h1. by destruct (negb _). }
  split.
  - intros p' e' Hp' He'. apply elem_of_cons in Hp' as [-> | Hp'].
    + rewrite Hout by exact Hp_rest. rewrite Hh1. congruence.
    + apply Hin; [exact Hp' |]. rewrite Hother; [exact He' |].
      intros ->. done.
  - intros p' Hp'. apply not_elem_of_cons in Hp' as [Hne Hp'].
    rewrite Hout by exact Hp'. by apply Hother.
Qed.

(** A frame timer pushed forward by the length [t2 - t1] of a pause shows,
    at every tick, the pause taken off the elapsed time; at [t2] it shows
    what it showed at [t1]. *)
Lemma elapsed_ticks_after_pause e t1 t2 t :
  elapsed_ticks (ent_anim_ctx (A_AddTimeDelta e (u32_sub t2 t1))) t
  = u32_sub (elapsed_ticks (ent_anim_ctx e) t) (u32_sub t2 t1) /\
  elapsed_ticks (ent_anim_ctx (A_AddTimeDelta e (u32_sub t2 t1))) t2
  = elapsed_ticks (ent_anim_ctx e) t1.
Proof.
  unfold A_AddTimeDelta, elapsed_ticks, u32_sub, u32_add. simpl.
  set (s := curr_frame_start_ticks (ent_anim_ctx e)).
  assert (Hshift : forall t',
    (t' - (s + (t2 - t1) mod 2 ^ 32) mod 2 ^ 32) mod 2 ^ 32
    = (t' - s - (t2 - t1)) mod 2 ^ 32).
  { intros t'. rewrite Zminus_mod_idemp_r.
    replace (t' - (s + (t2 - t1) mod 2 ^ 32))
      with (t' - s - (t2 - t1) mod 2 ^ 32) by lia.
    apply Zminus_mod_idemp_r. }
  split.
  - rewrite Hshift, Zminus_mod_idemp_r, Zminus_mod_idemp_l. reflexivity.
  - rewrite Hshift. f_equal. lia.
Qed.

(** X23. Pausing a running simulation and resuming it costs the animations
    no time. Both [G_SetSimState] calls return and queue one
    simulation-state event each; the pause changes no entity; the resume
    pushes the frame timer of every registered animated entity forward by
    the length of the pause, so that at the resume its elapsed frame time
    is what it was at the pause, and leaves every other entity alone. *)
Theorem pause_and_resume_cost_no_time paused g sct h q clk :
  registry_exact g h ->
  gs_ss g = G_RUNNING -> paused <> G_RUNNING ->
  let t1 := fst (SDL_GetTicks clk) in
  let t2 := fst (SDL_GetTicks (S clk)) in
  let changed ss := Ev EVENT_GAME_SIMSTATE_CHANGED ss ES_ENGINE GLOBAL_ID in
  exists h2,
    G_SetSimState paused g sct h q clk
      = Some (with_ss g paused, t1, h, q ++ [changed paused], S clk) /\
    G_SetSimState G_RUNNING (with_ss g paused) t1 h (q ++ [changed paused]) (S clk)
      = Some (with_ss (with_ss g paused) G_RUNNING, t2, h2,
              q ++ [changed paused; changed G_RUNNING], S (S clk)) /\
    (forall k p e, gs_active g !! k = Some p -> h !! p = Some e ->
       h2 !! p = Some (resumed_entity (u32_sub t2 t1) e) /\
       (has_flag (flags e) ENTITY_FLAG_ANIMATED = true ->
        elapsed_ticks (ent_anim_ctx (resumed_entity (u32_sub t2 t1) e)) t2
        = elapsed_ticks (ent_anim_ctx e) t1)) /\
    (forall p, (forall k, gs_active g !! k <> Some p) -> h2 !! p = h !! p).
Proof.
  intros Hinv Hrun Hpaused t1 t2 changed.
  assert (Hmem : forall p, p ∈ (map_to_list (gs_active g)).*2 <->
                           exists k, gs_active g !! k = Some p).
  { intros p. rewrite list_elem_of_fmap. split.
    - intros ([k p'] & -> & Hin). exists k. by apply elem_of_map_to_list.
    - intros [k Hk]. exists (k, p). split; [done |]. by apply elem_of_map_to_list. }
  destruct (add_time_deltas_spec (map_to_list (gs_active g)) (u32_sub t2 t1) h)
    as (h2 & Hloop & Hin & Hout).
  { apply NoDup_fmap_2_strong; [| apply NoDup_map_to_list].
    intros [k1 p1] [k2 p2] Hin1 Hin2 Heq. simpl in Heq. subst p2.
    apply elem_of_map_to_list in Hin1, Hin2.
    by rewrite (registry_exact_pointers g h k1 k2 p1 Hinv Hin1 Hin2). }
  { intros p Hp. apply Hmem in Hp as [k Hk].
    destruct Hinv as [Hact _]. destruct (Hact _ _ Hk) as (e & He & _). by exists e. }
  exists h2. split; [| split; [| split]].
  - unfold G_SetSimState. rewrite Hrun.
    destruct (Z.eqb_spec paused G_RUNNING) as [| _]; [done |].
    reflexivity.
  - subst t1 t2 changed. unfold G_SetSimState, SDL_GetTicks in *.
    cbn [fst gs_ss with_ss gs_active] in *.
    destruct (Z.eqb_spec G_RUNNING paused) as [Heq | _]; [by symmetry in Heq |].
    rewrite Z.eqb_refl, Hloop. unfold E_Global_Notify, queue_event_push.
    by rewrite <- app_assoc.
  - intros k p e Hk He. split.
    + apply Hin; [| exact He]. apply Hmem. by exists k.
    + unfold resumed_entity. intros ->.
      exact (proj2 (elapsed_ticks_after_pause e t1 t2 0)).
  - intros p Hp. apply Hout. rewrite Hmem. intros [k Hk]. by apply (Hp k).
Qed.

End Pause.

(** ** Resetting the game *)

Section Reset.

Context `{Scalar} `{!PFMath} `{!GameEnv} `{EntityFlagBits} `{EventTypes}
        `{SDLClock} `{GameConsts} `{GameEvents}.
Implicit Types (g : gamestate) (h : gmap Z entity) (e : entity).

Lemma safe_free_all_deleted slots g :
  safe_free_all slots g = with_deleted g (gs_deleted g ++ slots.*2).
Proof.
  revert g. induction slots as [| [k p] rest IH]; intros g; simpl.
  - rewrite app_nil_r. by destruct g.
  - rewrite IH. unfold G_SafeFree, with_deleted. simpl.
    by rewrite <- app_assoc.
Qed.

(** X24. [g_reset] empties the registry, the visibility vectors and the
    faction count, and puts every entity that was registered on the
    deferred-free list; at the next [G_SwapBuffers] all of them are
    freed, and no other entity is. The swap returns provided the entities
    already waiting on the list were live, listed once and no longer
    registered, and the render thread has drained its workspace. *)
Theorem reset_frees_every_entity_at_swap g h :
  registry_exact g h ->
  ws_ok g ->
  NoDup (gs_deleted g) ->
  (forall p, p ∈ gs_deleted g ->
     is_Some (h !! p) /\ forall k, gs_active g !! k <> Some p) ->
  (forall w, ws_at g (G_GetRenderWS g) = Some w -> ws_commands w = []) ->
  let g0 := g_reset g in
  gs_active g0 = ∅ /\ gs_dynamic g0 = ∅ /\
  gs_visible g0 = [] /\ gs_light_visible g0 = [] /\
  gs_num_factions g0 = 0 /\ gs_map g0 = None /\
  (forall p, p ∈ gs_deleted g0 <->
     p ∈ gs_deleted g \/ exists k, gs_active g !! k = Some p) /\
  exists g' h',
    G_SwapBuffers g0 h = Some (g', h') /\
    gs_active g' = ∅ /\ gs_deleted g' = [] /\
    (forall p, h' !! p =
       if decide (p ∈ gs_deleted g0) then None else h !! p).
Proof.
  intros Hinv [Hidx Hlen] Hnd Hdel Hdrained g0.
  assert (Hmem : forall p, p ∈ (map_to_list (gs_active g)).*2 <->
                           exists k, gs_active g !! k = Some p).
  { intros p. rewrite list_elem_of_fmap. split.
    - intros ([k p'] & -> & Hin). exists k. by apply elem_of_map_to_list.
    - intros [k Hk]. exists (k, p). split; [done |]. by apply elem_of_map_to_list. }
  assert (Hg0 : gs_deleted g0 = gs_deleted g ++ (map_to_list (gs_active g)).*2
                /\ gs_ws g0 = gs_ws g /\ gs_curr_ws_idx g0 = gs_curr_ws_idx g
                /\ gs_active g0 = ∅ /\ gs_dynamic g0 = ∅
                /\ gs_visible g0 = [] /\ gs_light_visible g0 = []
                /\ gs_num_factions g0 = 0 /\ gs_map g0 = None).
  { unfold g0, g_reset. rewrite safe_free_all_deleted.
    cbn [gs_map gs_prev_tick_map with_deleted].
    by destruct (gs_map g). }
  destruct Hg0 as (Hd0 & Hws0 & Hidx0 & Ha0 & Hdy0 & Hv0 & Hl0 & Hn0 & Hm0).
  split; [exact Ha0 |]. split; [exact Hdy0 |]. split; [exact Hv0 |].
  split; [exact Hl0 |]. split; [exact Hn0 |]. split; [exact Hm0 |].
  split.
  { intros p. rewrite Hd0, elem_of_app, Hmem. reflexivity. }
  destruct (free_deleted_returns (gs_deleted g0) h) as [h' Hfree].
  { rewrite Hd0. apply NoDup_app. split; [exact Hnd |]. split.
    - intros p Hp Hp'. apply Hmem in Hp' as [k Hk].
      destruct (Hdel p Hp) as [_ Hfree]. by apply (Hfree k).
    - apply NoDup_fmap_2_strong; [| apply NoDup_map_to_list].
      intros [k1 p1] [k2 p2] Hin1 Hin2 Heq. simpl in Heq. subst p2.
      apply elem_of_map_to_list in Hin1, Hin2.
      by rewrite (registry_exact_pointers g h k1 k2 p1 Hinv Hin1 Hin2). }
  { intros p. rewrite Hd0, elem_of_app, Hmem. intros [Hp | [k Hk]].
    - by apply Hdel.
    - destruct Hinv as [Hact _]. destruct (Hact _ _ Hk) as (e & He & _).
      by exists e. }
  unfold G_SwapBuffers. rewrite Hm0. rewrite Hfree.
  cbn [gs_ws with_deleted]. rewrite Hws0, Hidx0.
  rewrite flip_index by exact Hidx.
  destruct (arr_get_in_range (gs_ws g) (1 - gs_curr_ws_idx g) ltac:(lia))
    as [w Hw]. rewrite Hw.
  assert (Hcmds : ws_commands w = []).
  { apply Hdrained. unfold ws_at, G_GetRenderWS.
    by rewrite flip_index by exact Hidx. }
  rewrite Hcmds. simpl.
  eexists _, _. split; [reflexivity |]. simpl.
  split; [exact Ha0 |]. split; [reflexivity |].
  apply (free_deleted_lookup _ _ _ Hfree).
Qed.

End Reset.

(** ** Producing the render input *)

Section RenderInput.

Context `{Scalar} `{!PFMath} `{!GameEnv} `{EntityFlagBits} `{EventTypes}
        `{SDLClock} `{GameConsts}.
Implicit Types (g : gamestate) (h : gmap Z entity) (e : entity).

Lemma g_make_draw_list_returns fuel h ents out_stat out_anim :
  Forall (drawable fuel h) ents ->
  exists l, g_make_draw_list fuel h ents out_stat out_anim = Ret l.
Proof.
  intros Hall. revert out_stat out_anim.
  induction Hall as [| p ents (e & He & Hanim) _ IH]; intros out_stat out_anim;
    simpl.
  - by eexists.
  - rewrite He. destruct (has_flag (flags e) ENTITY_FLAG_ANIMATED).
    + destruct (Hanim eq_refl) as [[[nj pose] inv] ->]. apply IH.
    + apply IH.
Qed.

(** X25. [g_create_render_input] returns a render input whenever the
    shadow setting can be read and every entity of the two visibility
    vectors can be drawn: its two size assertions never fail. The input
    carries the setting, the map and, for each visibility vector, as many
    render states as the vector has entities. *)
Theorem render_input_is_always_produced fuel g h shadows :
  shadows_enabled_setting = Some shadows ->
  Forall (drawable fuel h) (gs_visible g) ->
  Forall (drawable fuel h) (gs_light_visible g) ->
  exists out,
    g_create_render_input fuel g h = Ret out /\
    ri_shadows out = shadows /\ ri_map out = gs_map g /\ ri_cam out = ACTIVE_CAM /\
    (length (cam_vis_stat out) + length (cam_vis_anim out)
       = length (gs_visible g))%nat /\
    (length (light_vis_stat out) + length (light_vis_anim out)
       = length (gs_light_visible g))%nat.
Proof.
  intros Hset Hvis Hlvis.
  destruct (g_make_draw_list_returns fuel h _ [] [] Hvis) as [l1 Hl1].
  destruct (g_make_draw_list_returns fuel h _ [] [] Hlvis) as [l2 Hl2].
  eexists. split; [by apply g_create_render_input_returns |].
  simpl. split; [done |]. split; [done |]. split; [done |].
  destruct l1 as [s1 a1], l2 as [s2 a2].
  apply g_make_draw_list_spec in Hl1 as (s1' & a1' & -> & -> & Hc1).
  apply g_make_draw_list_spec in Hl2 as (s2' & a2' & -> & -> & Hc2).
  simpl. split; [exact (classifies_length _ _ _ _ _ Hc1)
               | exact (classifies_length _ _ _ _ _ Hc2)].
Qed.

End RenderInput.

(** ** A scene that loads *)

Section SceneSuccess.

Context `{Scalar} `{!PFMath} `{!GameEnv} `{EntityFlagBits} `{EventTypes}
        `{SDLClock} `{GameConsts} `{!SceneEnv}.
Implicit Types (w : gamestate * gmap Z entity) (s : list string).





End SceneSuccess.

(** * The statements at work on the concrete engine *)

Module Witness.
Import Event Anim Game Scene Sample.

Lemma table0_wf : tbl_wf MAX_FACTIONS (gs_diplomacy_table gs0).
Proof. split; [reflexivity | repeat constructor]. Qed.

(** C7 on the sample world: war between factions 0 and 2 shows on both
    sides of the table; removing faction 1 moves the entry of (0, 2) to
    (0, 1). *)
Lemma diplomacy_witness :
  tbl_wf MAX_FACTIONS (gs_diplomacy_table gs0) /\
  gs_num_factions gs0 <= MAX_FACTIONS /\
  tbl_get (gs_diplomacy_table (snd (G_SetDiplomacyState 0 2 2 gs0))) 2 0 = Some 2 /\
  match G_RemoveFaction 1 gs0 heap0 with
  | Some (true, g', _) =>
    gs_num_factions g' = 2 /\
    tbl_get (gs_diplomacy_table g') 0 1 = tbl_get (gs_diplomacy_table gs0) 0 2
  | _ => False
  end.
Proof.
  assert (Hle : gs_num_factions gs0 <= MAX_FACTIONS) by (vm_compute; discriminate).
  destruct (diplomacy_table_symmetric_and_compacting gs0 table0_wf Hle) as [Hset Hrm].
  split; [exact table0_wf |]. split; [exact Hle |]. split.
  - destruct (Hset 0 2 2) as [_ Htrue].
    destruct (Htrue (snd (G_SetDiplomacyState 0 2 2 gs0)) eq_refl) as (_ & Hba & _).
    exact Hba.
  - specialize (Hrm 1 heap0).
    assert (Hret : match G_RemoveFaction 1 gs0 heap0 with
                   | Some (r, _, _) => r
                   | None => false
                   end = true) by (vm_compute; reflexivity).
    destruct (G_RemoveFaction 1 gs0 heap0) as [[[[] g'] h']|] eqn:Hrun.
    + destruct (Hrm g' h' eq_refl) as (Hn & Hc & _). split; [exact Hn |].
      apply (Hc 0 2); vm_compute; intuition discriminate.
    + discriminate Hret.
    + discriminate Hret.
Defined.

(** C2 on the sample world: workspace 1, drained, becomes the
    simulation workspace, empty; workspace 0 goes to the render side as
    filled; entity 8 is freed. *)
Lemma swap_witness :
  ws_ok gs0 /\
  match G_SwapBuffers gs0 heap0 with
  | Some (g', h') =>
    G_GetSimWS g' = 1 /\ G_GetRenderWS g' = 0 /\
    ws_at g' 0 = Some (MkWS [11; 12] [21; 22; 23]) /\
    gs_deleted g' = [] /\ h' !! 101 = None
  | None => False
  end.
Proof.
  assert (Hok : ws_ok gs0) by (split; [by left | reflexivity]).
  split; [exact Hok |].
  assert (Hret : match G_SwapBuffers gs0 heap0 with
                 | Some _ => true
                 | None => false
                 end = true) by (vm_compute; reflexivity).
  destruct (G_SwapBuffers gs0 heap0) as [[g' h']|] eqn:Hrun.
  - destruct (swap_buffers_hands_over gs0 g' heap0 h' Hok Hrun)
      as (Hsim & Hrender & _ & _ & Hkept & Hdel & Hfreed).
    split; [exact Hsim |]. split; [exact Hrender |].
    split; [rewrite Hrender in Hkept; exact Hkept |].
    split; [exact Hdel |].
    apply Hfreed. apply list_elem_of_here.
  - discriminate Hret.
Defined.

(** C3 on the sample world: of the camera-visible entities 7 and 9 one is
    animated and one static; the light sees only the static one. *)
Lemma render_input_witness :
  match g_create_render_input 3 gs0 heap0 with
  | Ret out =>
    (length (cam_vis_stat out) + length (cam_vis_anim out) = 2)%nat /\
    (length (light_vis_stat out) + length (light_vis_anim out) = 1)%nat /\
    classifies 3 heap0 [100; 102] (cam_vis_stat out) (cam_vis_anim out)
  | _ => False
  end.
Proof.
  assert (Hret : match g_create_render_input 3 gs0 heap0 with
                 | Ret _ => true
                 | _ => false
                 end = true) by (vm_compute; reflexivity).
  destruct (g_create_render_input 3 gs0 heap0) as [out| |] eqn:Hrun.
  - destruct (render_input_classifies_visible 3 gs0 heap0 out Hrun)
      as (Hcam & _ & Hn & Hl).
    split; [exact Hn |]. split; [exact Hl | exact Hcam].
  - discriminate Hret.
  - discriminate Hret.
Defined.

Lemma sample_flag_bits_wf : flag_bits_wf.
Proof.
  split.
  - compute_done.
  - repeat constructor; vm_compute; discriminate.
Qed.

(** C10 on the sample world: entity 7, camera-visible before, is left out
    of both sets by the two updates that follow its zombification. *)
Lemma zombie_witness :
  flag_bits_wf /\
  match G_Zombiefy 100 gs0 heap0 with
  | Some (g1, h1) =>
    match G_Update_times 2 (g1, h1, [], O) with
    | Some (g2, _, _, _) => (100 ∉ gs_visible g2) /\ (100 ∉ gs_light_visible g2)
    | None => False
    end
  | None => False
  end.
Proof.
  split; [exact sample_flag_bits_wf |].
  assert (Hret : match G_Zombiefy 100 gs0 heap0 with
                 | Some (g1, h1) =>
                   match G_Update_times 2 (g1, h1, [], O) with
                   | Some _ => true
                   | None => false
                   end
                 | None => false
                 end = true) by (vm_compute; reflexivity).
  destruct (G_Zombiefy 100 gs0 heap0) as [[g1 h1]|] eqn:Hz.
  - destruct (zombie_never_becomes_visible 100 gs0 g1 heap0 h1 sample_flag_bits_wf Hz)
      as [_ Hupd].
    destruct (G_Update_times 2 (g1, h1, [], O)) as [[[[g2 h2] q2] clk2]|] eqn:Hrun.
    + destruct (Hupd 1%nat [] O g2 h2 q2 clk2 Hrun) as (Hv & Hlv & _).
      split; assumption.
    + discriminate Hret.
  - discriminate Hret.
Defined.

(** C5 on entity 7: at the first clock read no time has elapsed and the
    update changes nothing. *)
Lemma idle_update_witness :
  0 <= key_fps (ent_anim_ctx ent7) /\
  elapsed_ticks (ent_anim_ctx ent7) (fst (SDL_GetTicks 0))
    * key_fps (ent_anim_ctx ent7) < 1000 /\
  A_Update ent7 [] 0 = Some (ent7, [], 1%nat).
Proof.
  assert (Hfps : 0 <= key_fps (ent_anim_ctx ent7)) by (vm_compute; discriminate).
  assert (Hearly : elapsed_ticks (ent_anim_ctx ent7) (fst (SDL_GetTicks 0))
                     * key_fps (ent_anim_ctx ent7) < 1000) by (vm_compute; reflexivity).
  split; [exact Hfps |]. split; [exact Hearly |].
  exact (A_Update_idle_before_period ent7 [] 0%nat Hfps Hearly).
Defined.

Lemma ent8_ready : ctx_ready ent8 clip_die clip_idle.
Proof. repeat split; vm_compute; congruence. Qed.

(** C4 on entity 8, which plays the one-frame clip "die" once-then-hide:
    600 ms after the frame started the update wraps to frame 0, posts the
    two notifications, hides the entity and restarts "idle" in a loop. *)
Lemma advancing_update_witness :
  ctx_ready ent8 clip_die clip_idle /\
  frame_elapsed (ent_anim_ctx ent8) (fst (SDL_GetTicks 1)) = true /\
  A_Update ent8 [] 1 =
    Some (set_anim_ctx (set_flags ent8 35) (MkCtx 0 0 ANIM_MODE_LOOP 2 0 1200),
          [Ev EVENT_ANIM_CYCLE_FINISHED 0 ES_ENGINE 8;
           Ev EVENT_ANIM_FINISHED 0 ES_ENGINE 8], 3%nat).
Proof.
  assert (Hpassed : frame_elapsed (ent_anim_ctx ent8) (fst (SDL_GetTicks 1)) = true)
    by (vm_compute; reflexivity).
  split; [exact ent8_ready |]. split; [exact Hpassed |].
  exact (A_Update_advances_frame ent8 [] 1%nat clip_die clip_idle ent8_ready Hpassed).
Defined.

Lemma chain3_acyclic : skeleton_acyclic chain3.
Proof.
  intros j Hj. change (num_joints chain3) with 3 in *.
  assert (Hcases : j = 0 \/ j = 1 \/ j = 2) by lia.
  destruct Hcases as [-> | [-> | ->]]; reflexivity.
Qed.

(** C9 on the three-joint chain: the walk from joint 2 returns after
    three iterations. *)
Lemma walk_witness :
  skeleton_acyclic chain3 /\
  (exists m k, a_make_bind_mat 3 2 chain3 = Ret (m, k) /\ Z.of_nat k <= 3) /\
  (exists m k, a_make_pose_mat 3 ent7 2 chain3 = Ret (m, k) /\ Z.of_nat k <= 3).
Proof.
  split; [exact chain3_acyclic |].
  apply (joint_walks_terminate ent7 chain3 pose_a 2 3 chain3_acyclic).
  - vm_compute. lia.
  - vm_compute. lia.
  - reflexivity.
  - vm_compute. intuition discriminate.
  - vm_compute. lia.
Defined.


(** C1 as stated fails on the scene that is cut short: [Scene_Load]
    returns [false], and the faction "Red" that was read before the end of
    the file has stayed in the registry, which now counts four factions
    instead of three. *)
Lemma scene_load_failure_leaves_faction :
  match Scene_Load "cut_short.pfscene" (gs0, heap0) with
  | Some (ok, w') =>
    ok = false /\
    gs_num_factions gs0 = 3 /\ gs_num_factions (fst w') = 4 /\
    option_map fac_name (arr_get (gs_factions (fst w')) 3) = Some "Red"%string /\
    w' <> (gs0, heap0)
  | None => False
  end.
Proof.
  assert (Hret : match Scene_Load "cut_short.pfscene" (gs0, heap0) with
                 | Some (ok, w') =>
                   negb ok && (gs_num_factions (fst w') =? 4)
                   && bool_decide (option_map fac_name
                                     (arr_get (gs_factions (fst w')) 3)
                                   = Some "Red"%string)
                 | None => false
                 end = true) by (vm_compute; reflexivity).
  destruct (Scene_Load "cut_short.pfscene" (gs0, heap0)) as [[ok w']|];
    [| discriminate Hret].
  apply andb_true_iff in Hret as [Hret Hname].
  apply andb_true_iff in Hret as [Hok Hn].
  apply negb_true_iff in Hok. apply Z.eqb_eq in Hn.
  apply bool_decide_eq_true in Hname.
  repeat split; try assumption.
  intros ->. simpl in Hn. discriminate Hn.
Defined.

Lemma bad_header_fails_early : fails_before_first_faction "bad_header.pfscene".
Proof. left. reflexivity. Qed.

Lemma cut_short_first_record :
  faction_record (tail scene_cut_short) "Red" (@Vec3 Z_scalar 1 0 0) [].
Proof.
  exists (String.append "faction " (String dquote (String.append "Red" (String dquote EmptyString)))),
    ["color vec3 1 0 0"%string], 1,
    (MkAttr "color" TYPE_VEC3 (VVec3 (@Vec3 Z_scalar 1 0 0))).
  split; [reflexivity |]. split; [vm_compute; reflexivity |].
  split; [discriminate |]. split; [vm_compute; reflexivity |].
  split; reflexivity.
Qed.

(** The amended C1 on the two sample scenes: the one with the bad header
    leaves the world as it was; the one cut short after its first faction
    record leaves the world that the [G_AddFaction] call of that record
    has produced. *)
Lemma scene_load_witness :
  Scene_Load "bad_header.pfscene" (gs0, heap0) = Some (false, (gs0, heap0)) /\
  match Scene_Load "cut_short.pfscene" (gs0, heap0) with
  | Some (false, w') =>
    w' = (snd (G_AddFaction "Red" (@Vec3 Z_scalar 1 0 0) gs0), heap0)
  | _ => False
  end.
Proof.
  split.
  - exact (proj2 (scene_load_failure_keeps_loaded_prefix "bad_header.pfscene"
                    (gs0, heap0)) bad_header_fails_early).
  - assert (Hret : match Scene_Load "cut_short.pfscene" (gs0, heap0) with
                   | Some (false, _) => true
                   | _ => false
                   end = true) by (vm_compute; reflexivity).
    destruct (Scene_Load "cut_short.pfscene" (gs0, heap0)) as [[[] w']|] eqn:Hrun;
      try discriminate Hret.
    destruct (proj1 (scene_load_failure_keeps_loaded_prefix "cut_short.pfscene"
                       (gs0, heap0)) w' Hrun)
      as [[Hno _] | (nf & s1 & k & s2 & g1 & Hhead & Hloaded & Hcases)].
    { destruct Hno as [Hnone | (s & Hs & [Hempty | (line & s1 & Hl & Hscan)])].
      - vm_compute in Hnone. discriminate Hnone.
      - vm_compute in Hs. injection Hs as <-. discriminate Hempty.
      - vm_compute in Hs. injection Hs as <-. injection Hl as <- <-.
        vm_compute in Hscan. discriminate Hscan. }
    destruct Hhead as (s & line & ret & Hs & Hl & Hscan & _).
    vm_compute in Hs. injection Hs as <-. injection Hl as <- <-.
    vm_compute in Hscan. injection Hscan as <- <-.
    change (Z.to_nat (1 mod 2 ^ 32)) with 1%nat in Hcases.
    cbn [fst snd] in *.
    destruct Hcases as [(Hk & Hnorec & _) | (-> & Hrest)].
    { assert (k = 0%nat) as -> by lia.
      inversion Hloaded; subst.
      destruct (Hnorec _ _ _ cut_short_first_record). }
    inversion Hloaded as [| k' sa nm color sb ga sc gb Hrec Hnil]; subst.
    destruct Hrec as (l & sa & r & att & Hl & Hname & _ & Hatt & _ & Hval).
    injection Hl as <- <-.
    vm_compute in Hname. injection Hname as <- <-.
    vm_compute in Hatt. injection Hatt as <- <-.
    injection Hval as <-.
    inversion Hnil; subst.
    destruct Hrest as [[_ ->] | (ne & s3 & m & s4 & w2 & Hhead & _)].
    + reflexivity.
    + destruct Hhead as (l & r & Hl & _). discriminate Hl.
Defined.

(** ** Calls that return *)



(** The swap returns on the sample world: entity 8 is live when it is
    freed and workspace 1 has been drained. *)
Lemma swap_returns_witness :
  exists g' h', G_SwapBuffers gs0 heap0 = Some (g', h').
Proof.
  apply G_SwapBuffers_returns.
  - split; [left; reflexivity | reflexivity].
  - apply NoDup_singleton.
  - intros p Hp. apply list_elem_of_singleton in Hp as ->.
    exists ent8. vm_compute. reflexivity.
  - intros w Hw. vm_compute in Hw. injection Hw as <-. reflexivity.
Defined.

(** X3 on entity 7 of the sample world: made a zombie, it carries the
    zombie's flag word, and making it a zombie again changes nothing. *)
Lemma zombie_twice_witness :
  flag_bits_wf /\
  match G_Zombiefy 100 gs0 heap0 with
  | Some (g1, h1) =>
    (exists e1, h1 !! 100 = Some e1 /\ zombified (flags e1)) /\
    G_Zombiefy 100 g1 h1 = Some (g1, h1)
  | None => False
  end.
Proof.
  split; [exact sample_flag_bits_wf |].
  assert (Hret : match G_Zombiefy 100 gs0 heap0 with
                 | Some _ => true
                 | None => false
                 end = true) by (vm_compute; reflexivity).
  destruct (G_Zombiefy 100 gs0 heap0) as [[g1 h1]|] eqn:Hz; [| discriminate Hret].
  exact (zombiefy_twice_is_once 100 gs0 heap0 g1 h1 sample_flag_bits_wf Hz).
Defined.

Lemma sample_registry_ok : registry_ok gs0 heap0.
Proof.
  intros k p Hk. cbn [gs0 gs_active] in Hk.
  apply lookup_insert_Some in Hk as [[<- <-] | [_ Hk]];
    [| apply lookup_insert_Some in Hk as [[<- <-] | [_ Hk]];
       [| apply lookup_insert_Some in Hk as [[<- <-] | [_ Hk]];
          [| rewrite lookup_empty in Hk; discriminate Hk]]].
  - exists ent7. split; [vm_compute; reflexivity |]. split; [reflexivity |].
    intros _. exists 100. vm_compute. reflexivity.
  - exists ent8. split; [vm_compute; reflexivity |]. split; [reflexivity |].
    intros _. exists 101. vm_compute. reflexivity.
  - exists ent9. split; [vm_compute; reflexivity |]. split; [reflexivity |].
    intros Hdyn. vm_compute in Hdyn. discriminate Hdyn.
Qed.

(** Removing faction 1 of the three sample factions returns and
    succeeds. *)
Lemma remove_faction_returns_witness :
  exists r g' h',
    G_RemoveFaction 1 gs0 heap0 = Some (r, g', h') /\
    (r = true <-> 2 <= 3 /\ 0 <= 1 < 3).
Proof.
  exact (G_RemoveFaction_returns 1 gs0 heap0 sample_registry_ok).
Defined.

(** ** The bus: registering and unregistering *)

Lemma sample_indexof_range vec d cmp :
  sample_indexof vec d cmp = -1 \/ 0 <= sample_indexof vec d cmp.
Proof.
  induction vec as [| x vec IH]; simpl; [by left |].
  destruct (cmp x d); [right; lia |].
  destruct (Z.eqb_spec (sample_indexof vec d cmp) (-1)); [by left | right; lia].
Qed.

Lemma sample_indexof_spec vec d cmp :
  sample_indexof vec d cmp = -1 /\ Forall (fun x => cmp x d = false) vec
  \/ exists x, arr_get vec (sample_indexof vec d cmp) = Some x /\ cmp x d = true.
Proof.
  induction vec as [| x vec IH]; simpl.
  { left. split; [reflexivity | constructor]. }
  destruct (cmp x d) eqn:Hx.
  { right. exists x. split; [reflexivity | exact Hx]. }
  destruct IH as [[Hnone Hall] | (y & Hy & Hcmp)].
  - left. rewrite Hnone. split; [reflexivity |]. by constructor.
  - right. exists y. split; [| exact Hcmp].
    destruct (sample_indexof_range vec d cmp) as [Hm | Hpos].
    + rewrite Hm in Hy. discriminate Hy.
    + destruct (Z.eqb_spec (sample_indexof vec d cmp) (-1)) as [Hm | _]; [lia |].
      rewrite arr_get_nat in Hy |- * by lia.
      replace (Z.to_nat (sample_indexof vec d cmp + 1))
        with (S (Z.to_nat (sample_indexof vec d cmp))) by lia.
      exact Hy.
Qed.

Lemma sample_vec_ops_ok : vec_ops_ok.
Proof.
  split.
  - exact sample_indexof_spec.
  - intros vec i x Hget. unfold arr_get in Hget. simpl.
    destruct (i <? 0); [discriminate Hget |].
    symmetry. by apply delete_Permutation.
Qed.

(** X5 on the sample bus: a new handler for entity 8, or a new global
    handler, does not change what a cycle-finished event of entity 7
    calls. *)
Lemma registration_witness :
  let ev := Ev EVENT_ANIM_CYCLE_FINISHED 0 ES_ENGINE 7 in
  e_handle_event (snd (E_Entity_Register EVENT_ANIM_CYCLE_FINISHED 8 9 0 1 table1))
    ev ([], []) = e_handle_event table1 ev ([], []) /\
  e_handle_event (snd (E_Global_Register EVENT_ANIM_CYCLE_FINISHED 9 0 1 table1))
    ev ([], []) = e_handle_event table1 ev ([], []).
Proof.
  assert (Hev : is_u32 EVENT_ANIM_CYCLE_FINISHED)
    by (split; vm_compute; [discriminate | reflexivity]).
  assert (H8 : is_u32 8) by (split; vm_compute; [discriminate | reflexivity]).
  assert (H7 : is_u32 7) by (split; vm_compute; [discriminate | reflexivity]).
  destruct (registration_touches_one_key EVENT_ANIM_CYCLE_FINISHED 8 9 0 1 table1
              (Ev EVENT_ANIM_CYCLE_FINISHED 0 ES_ENGINE 7) ([], []) Hev H8 Hev H7)
    as [Hent Hglob].
  split.
  - apply Hent. vm_compute. discriminate.
  - apply Hglob. vm_compute. discriminate.
Defined.


(** X7 on the sample bus: unregistering handler 4 of entity 7 takes one
    handler out of the two under the key; unregistering it for entity 8,
    which has none, fails. *)
Lemma unregister_witness :
  vec_ops_ok /\
  match E_Entity_Unregister EVENT_ANIM_CYCLE_FINISHED 7 4 table1 [] with
  | Some (true, table', _) =>
    exists x rest,
      table' !! e_key 7 EVENT_ANIM_CYCLE_FINISHED = Some rest /\
      x :: rest ≡ₚ default [] (table1 !! e_key 7 EVENT_ANIM_CYCLE_FINISHED)
  | _ => False
  end.
Proof.
  split; [exact sample_vec_ops_ok |].
  pose proof (unregister_removes_one_match (e_key 7 EVENT_ANIM_CYCLE_FINISHED)
                (HandlerDesc HANDLER_TYPE_ENGINE 4 0 0) table1 []
                sample_vec_ops_ok) as Hspec.
  assert (Hret : match E_Entity_Unregister EVENT_ANIM_CYCLE_FINISHED 7 4 table1 [] with
                 | Some (r, _, _) => r
                 | None => false
                 end = true) by (vm_compute; reflexivity).
  unfold E_Entity_Unregister in *.
  destruct (e_unregister_handler (e_key 7 EVENT_ANIM_CYCLE_FINISHED)
              (HandlerDesc HANDLER_TYPE_ENGINE 4 0 0) table1 [])
    as [[[[] table'] s']|]; try discriminate Hret.
  destruct Hspec as (x & rest & _ & Hkey & Hperm & _).
  exists x, rest. split; [exact Hkey | exact Hperm].
Defined.

(** X8 on the sample bus: handler 9, registered for entity 7 and
    unregistered again, leaves handlers 3 and 4 under the key. *)
Lemma register_unregister_witness :
  vec_ops_ok /\
  exists table' rest,
    E_Entity_Unregister EVENT_ANIM_CYCLE_FINISHED 7 9
      (snd (E_Entity_Register EVENT_ANIM_CYCLE_FINISHED 7 9 0 1 table1)) []
      = Some (true, table', []) /\
    table' !! e_key 7 EVENT_ANIM_CYCLE_FINISHED = Some rest /\
    map hd_handler rest ≡ₚ [3; 4].
Proof.
  split; [exact sample_vec_ops_ok |].
  assert (Hfresh : Forall (fun x => handlers_equal x
                             (HandlerDesc HANDLER_TYPE_ENGINE 9 0 1) = false)
                     (default [] (table1 !! e_key 7 EVENT_ANIM_CYCLE_FINISHED))).
  { vm_compute. repeat constructor. }
  destruct (register_then_unregister EVENT_ANIM_CYCLE_FINISHED 7 9 0 1 table1 []
              sample_vec_ops_ok Hfresh) as (table' & rest & Hrun & Hkey & Hperm & _).
  exists table', rest. split; [exact Hrun |]. split; [exact Hkey |].
  rewrite Hperm. vm_compute. reflexivity.
Defined.

(** ** Animation *)

(** X9 on entity 7: "die" is found at index 1 of its two clips, and the
    context restarts at frame 0. *)
Lemma set_clip_witness :
  match A_SetActiveClip ent7 "die" ANIM_MODE_ONCE 5 0 with
  | Some (ent', clk') =>
    ent' = set_anim_ctx ent7 (MkCtx 1 0 ANIM_MODE_ONCE 5 0 0) /\ clk' = 1%nat
  | None => False
  end.
Proof.
  pose proof (A_SetActiveClip_picks_first_match ent7 "die" ANIM_MODE_ONCE 5 0) as Hspec.
  assert (Hret : match A_SetActiveClip ent7 "die" ANIM_MODE_ONCE 5 0 with
                 | Some _ => true
                 | None => false
                 end = true) by (vm_compute; reflexivity).
  destruct (A_SetActiveClip ent7 "die" ANIM_MODE_ONCE 5 0) as [[ent' clk']|];
    [| discriminate Hret].
  destruct Hspec as (i & c & Hget & Hname & Hi & _ & -> & ->).
  split; [| reflexivity].
  change (num_anims (anim_private ent7)) with 2 in Hi.
  assert (Hcases : i = 0 \/ i = 1) by lia.
  destruct Hcases as [-> | ->].
  - vm_compute in Hget. injection Hget as <-. discriminate Hname.
  - reflexivity.
Defined.

Lemma ent7_ready : ctx_ready ent7 clip_idle clip_idle.
Proof. repeat split; vm_compute; congruence. Qed.

Lemma ent7_anim_ok : anim_ok ent7.
Proof.
  exists clip_idle, clip_idle. split; [exact ent7_ready |].
  vm_compute. split; reflexivity.
Qed.

(** X10 on entity 7, whose context is valid: the update returns and
    leaves a valid context. *)
Lemma valid_context_witness :
  anim_ok ent7 /\
  exists ent' q' clk',
    A_Update ent7 [] 1 = Some (ent', q', clk') /\ anim_ok ent' /\
    anim_private ent' = anim_data0 /\ uid ent' = 7.
Proof.
  split; [exact ent7_anim_ok |].
  destruct (proj2 animation_context_stays_valid ent7 [] 1%nat ent7_anim_ok)
    as (ent' & q' & clk' & Hrun & Hok & Hdata & Huid & _).
  exists ent', q', clk'.
  split; [exact Hrun |]. split; [exact Hok |]. split; [exact Hdata | exact Huid].
Defined.

(** X11 on entity 7, looping the two-frame clip "idle" from frame 0: two
    updates, 600 ms apart, bring it back to frame 0 and post one
    cycle-finished event. *)
Lemma looping_witness :
  ctx_ready ent7 clip_idle clip_idle /\
  frames_due (key_fps (ent_anim_ctx ent7))
    (curr_frame_start_ticks (ent_anim_ctx ent7)) 1 2 /\
  A_Update_times 2 ent7 [] 1 =
    Some (set_anim_ctx ent7 (MkCtx 0 0 ANIM_MODE_LOOP 2 0 1200),
          [Ev EVENT_ANIM_CYCLE_FINISHED 0 ES_ENGINE 7], 3%nat).
Proof.
  assert (Hdue : frames_due (key_fps (ent_anim_ctx ent7))
                   (curr_frame_start_ticks (ent_anim_ctx ent7)) 1 2).
  { vm_compute. repeat split. }
  split; [exact ent7_ready |]. split; [exact Hdue |].
  exact (looping_clip_wraps_around 2 ent7 [] 1%nat clip_idle clip_idle
           ent7_ready eq_refl Hdue).
Defined.


Lemma chain3_unbound_acyclic : skeleton_acyclic chain3_unbound.
Proof.
  intros j Hj. change (num_joints chain3_unbound) with 3 in *.
  assert (Hcases : j = 0 \/ j = 1 \/ j = 2) by lia.
  destruct Hcases as [-> | [-> | ->]]; reflexivity.
Qed.

(** X13 on the three-joint chain with three free slots: the slot of
    joint 2 receives the inverse of its bind matrix, the translation by
    (-1, -2, -3). *)
Lemma inverse_bind_witness :
  skeleton_acyclic chain3_unbound /\
  match A_PrepareInvBindMatrices 3 chain3_unbound with
  | Ret skl' =>
    joints skl' = joints chain3_unbound /\
    arr_get (inv_bind_poses skl') 2 = Some (make_trans (-1) (-2) (-3))
  | _ => False
  end.
Proof.
  split; [exact chain3_unbound_acyclic |].
  assert (Hsqts : (length (joints chain3_unbound)
                   <= length (bind_sqts chain3_unbound))%nat)
    by (vm_compute; lia).
  assert (Hslots : num_joints chain3_unbound
                   <= Z.of_nat (length (inv_bind_poses chain3_unbound)))
    by (vm_compute; discriminate).
  assert (Hfuel : (Z.to_nat (num_joints chain3_unbound) <= 3)%nat)
    by (vm_compute; lia).
  destruct (inverse_bind_matrices_prepared 3 chain3_unbound chain3_unbound_acyclic
              Hsqts Hslots Hfuel)
    as (skl' & -> & _ & Hjoints & _ & _ & Hinv & _).
  split; [exact Hjoints |].
  destruct (Hinv 2) as (m & k & Hm & Hget); [vm_compute; split; congruence |].
  vm_compute in Hm. injection Hm as <- <-. exact Hget.
Defined.

(** X14 on entities 7 and 9: the animated one gets one pose matrix for
    each of its three joints; asking for the static one aborts. *)
Lemma render_state_witness :
  A_GetRenderState 3 ent9 = Abort /\
  match A_GetRenderState 3 ent7 with
  | Ret (njoints, pose, inv_bind) =>
    njoints = 3 /\ length pose = 3%nat /\ inv_bind = []
  | _ => False
  end.
Proof.
  split.
  - exact (proj1 (A_GetRenderState_one_pose_per_joint 3 ent9) eq_refl).
  - assert (Hret : match A_GetRenderState 3 ent7 with
                   | Ret _ => true
                   | _ => false
                   end = true) by (vm_compute; reflexivity).
    destruct (A_GetRenderState 3 ent7) as [[[njoints pose] inv_bind]| |] eqn:Hrun;
      try discriminate Hret.
    destruct (proj2 (A_GetRenderState_one_pose_per_joint 3 ent7)
                njoints pose inv_bind Hrun) as (Hn & Hinv & Hlen & _).
    split; [exact Hn |]. split; [rewrite Hlen, Hn; reflexivity | exact Hinv].
Defined.

(** ** The entity registry *)

Lemma sample_registry_exact : registry_exact gs0 heap0.
Proof.
  split.
  - intros k p Hk. destruct (sample_registry_ok k p Hk) as (e & He & Hu & _).
    exists e. split; assumption.
  - intros k p. split.
    + intros Hk. cbn [gs0 gs_dynamic] in Hk.
      apply lookup_insert_Some in Hk as [[<- <-] | [_ Hk]];
        [| apply lookup_insert_Some in Hk as [[<- <-] | [_ Hk]];
           [| rewrite lookup_empty in Hk; discriminate Hk]].
      * split; [reflexivity |]. exists ent7. split; reflexivity.
      * split; [reflexivity |]. exists ent8. split; reflexivity.
    + intros [Hk (e & He & Hdyn)]. cbn [gs0 gs_active] in Hk.
      apply lookup_insert_Some in Hk as [[<- <-] | [_ Hk]];
        [| apply lookup_insert_Some in Hk as [[<- <-] | [_ Hk]];
           [| apply lookup_insert_Some in Hk as [[<- <-] | [_ Hk]];
              [| rewrite lookup_empty in Hk; discriminate Hk]]].
      * reflexivity.
      * reflexivity.
      * vm_compute in He. injection He as <-. vm_compute in Hdyn. discriminate Hdyn.
Qed.

(** Allocating an entity at a free address does not disturb the
    registry. *)
Lemma registry_exact_alloc g (h : gmap Z entity) p e :
  registry_exact g h -> h !! p = None -> registry_exact g (<[p := e]> h).
Proof.
  intros [Hact Hdyn] Hfree.
  assert (Hother : forall k p', gs_active g !! k = Some p' ->
                     (<[p := e]> h) !! p' = h !! p').
  { intros k p' Hk. destruct (Hact k p' Hk) as (e' & He' & _).
    apply lookup_insert_ne. intros ->. congruence. }
  split.
  - intros k p' Hk. rewrite (Hother k p' Hk). by apply Hact.
  - intros k p'. rewrite Hdyn. split.
    + intros [Hk Hex]. split; [exact Hk |]. by rewrite (Hother k p' Hk).
    + intros [Hk Hex]. split; [exact Hk |]. by rewrite (Hother k p' Hk) in Hex.
Qed.

(** X15 on the sample world: entity 10, allocated at address 103, is
    registered and removed again, which gives the sample world back. *)
Lemma add_remove_witness :
  heap1 !! 103 = Some ent10 /\
  exists g1,
    G_AddEntity 103 gs0 heap1 = Some (true, g1) /\
    gs_active g1 !! 10 = Some 103 /\
    gs_dynamic g1 !! 10 = None /\
    G_RemoveEntity 103 g1 heap1 = Some (true, gs0).
Proof.
  assert (Hlive : heap1 !! 103 = Some ent10) by (vm_compute; reflexivity).
  split; [exact Hlive |].
  exact (add_then_remove_entity 103 ent10 gs0 heap1 Hlive eq_refl eq_refl).
Defined.

(** X16 on the sample world: removing faction 1 unregisters its entity 8
    and moves entity 9 from faction 2 to faction 1. *)
Lemma renumber_witness :
  registry_exact gs0 heap0 /\
  match G_RemoveFaction 1 gs0 heap0 with
  | Some (true, g', h') =>
    registry_exact g' h' /\
    gs_active g' !! 8 = None /\
    h' !! 102 = Some (set_faction_id ent9 1)
  | _ => False
  end.
Proof.
  split; [exact sample_registry_exact |].
  assert (Hret : match G_RemoveFaction 1 gs0 heap0 with
                 | Some (r, _, _) => r
                 | None => false
                 end = true) by (vm_compute; reflexivity).
  destruct (G_RemoveFaction 1 gs0 heap0) as [[[[] g'] h']|] eqn:Hrun;
    try discriminate Hret.
  destruct (remove_faction_renumbers_entities 1 gs0 heap0 g' h'
              sample_registry_exact Hrun) as (Hexact & Hgone & _).
  split; [exact Hexact |]. split.
  - exact (proj1 (Hgone 8 101 ent8 eq_refl eq_refl)).
  - exact (proj2 (Hgone 9 102 ent9 eq_refl eq_refl)).
Defined.

(** X17 on entity 7 of the sample world: adding it again is refused,
    removing it and making it a zombie keep the registry consistent. *)
Lemma consistent_registry_witness :
  registry_exact gs0 heap0 /\
  (exists r g',
     G_AddEntity 100 gs0 heap0 = Some (r, g') /\ registry_exact g' heap0 /\
     (r = true <-> gs_active gs0 !! 7 = None)) /\
  (exists g',
     G_RemoveEntity 100 gs0 heap0 = Some (true, g') /\ registry_exact g' heap0 /\
     gs_active g' = delete 7 (gs_active gs0)) /\
  (exists g' h',
     G_Zombiefy 100 gs0 heap0 = Some (g', h') /\ registry_exact g' h' /\
     gs_active g' = gs_active gs0 /\ gs_dynamic g' !! 7 = None).
Proof.
  split; [exact sample_registry_exact |].
  destruct (registry_stays_consistent 100 ent7 gs0 heap0 sample_registry_exact eq_refl)
    as (Hadd & Hrm & Hz).
  split; [exact Hadd |]. split; [exact (Hrm eq_refl) |].
  exact (Hz sample_flag_bits_wf eq_refl).
Defined.

(** X18 on the paused sample world: the update touches no entity, posts
    nothing and does not read the clock. *)
Lemma paused_update_witness :
  gs_ss gs_paused <> G_RUNNING /\
  match G_Update gs_paused heap0 [] 0 with
  | Some (g', h', q', clk') =>
    h' = heap0 /\ q' = [] /\ clk' = 0%nat /\ gs_active g' = gs_active gs_paused
  | None => False
  end.
Proof.
  assert (Hss : gs_ss gs_paused <> G_RUNNING) by (vm_compute; discriminate).
  split; [exact Hss |].
  assert (Hret : match G_Update gs_paused heap0 [] 0 with
                 | Some _ => true
                 | None => false
                 end = true) by (vm_compute; reflexivity).
  destruct (G_Update gs_paused heap0 [] 0) as [[[[g' h'] q'] clk']|] eqn:Hrun;
    [| discriminate Hret].
  destruct (paused_update_changes_no_entity gs_paused heap0 [] 0%nat g' h' q' clk'
              Hss Hrun) as (Hh & Hq & Hclk & Hact & _).
  split; [exact Hh |]. split; [exact Hq |]. split; [exact Hclk | exact Hact].
Defined.

(** X19 on the sample world: after the update the camera sees the three
    registered entities, each once. *)
Lemma visibility_witness :
  registry_exact gs0 heap0 /\
  match G_Update gs0 heap0 [] 1 with
  | Some (g', h', _, _) =>
    NoDup (gs_visible g') /\
    (forall p, p ∈ gs_visible g' ->
       exists k e, gs_active gs0 !! k = Some p /\ h' !! p = Some e /\
                   shown e = true /\ cam_frustum_hit e = true)
  | None => False
  end.
Proof.
  split; [exact sample_registry_exact |].
  assert (Hret : match G_Update gs0 heap0 [] 1 with
                 | Some _ => true
                 | None => false
                 end = true) by (vm_compute; reflexivity).
  destruct (G_Update gs0 heap0 [] 1) as [[[[g' h'] q'] clk']|] eqn:Hrun;
    [| discriminate Hret].
  destruct (update_rebuilds_visibility gs0 heap0 [] 1%nat g' h' q' clk'
              sample_registry_exact Hrun) as (Hnd & _ & Hvis & _).
  split; [exact Hnd |]. intros p Hp. by apply Hvis.
Defined.

(** ** Factions *)

(** X20 on the sample world: a fourth faction is at peace with the three
    that exist, and the table stays symmetric. *)
Lemma new_faction_witness :
  tbl_wf MAX_FACTIONS (gs_diplomacy_table gs0) /\
  0 <= gs_num_factions gs0 <= MAX_FACTIONS /\
  let (b, g') := G_AddFaction "violet" (Vec3 1 0 1) gs0 in
  b = true /\
  gs_num_factions g' = 4 /\
  tbl_get (gs_diplomacy_table g') 3 1 = Some DIPLOMACY_STATE_PEACE /\
  tbl_get (gs_diplomacy_table g') 1 3 = Some DIPLOMACY_STATE_PEACE.
Proof.
  assert (Hn : 0 <= gs_num_factions gs0 <= MAX_FACTIONS)
    by (vm_compute; split; discriminate).
  split; [exact table0_wf |]. split; [exact Hn |].
  pose proof (new_faction_is_at_peace "violet" (Vec3 1 0 1) gs0 table0_wf Hn) as Hspec.
  cbv zeta in Hspec.
  assert (Hret : fst (G_AddFaction "violet" (Vec3 1 0 1) gs0) = true)
    by (vm_compute; reflexivity).
  destruct (G_AddFaction _ _ gs0) as [[] g']; [| discriminate Hret].
  destruct Hspec as (_ & _ & Hcount & Hpeace & _).
  split; [reflexivity |]. split; [exact Hcount |].
  destruct (Hpeace 1) as [Hcol Hrow]; [vm_compute; split; congruence |].
  split; [exact Hrow | exact Hcol].
Defined.

(** X21 on the sample world: war declared between factions 0 and 2 is
    read back from both sides, and factions 0 and 1 stay at peace. *)
Lemma set_get_witness :
  tbl_wf MAX_FACTIONS (gs_diplomacy_table gs0) /\
  gs_num_factions gs0 <= MAX_FACTIONS /\
  let g' := snd (G_SetDiplomacyState 0 2 2 gs0) in
  G_GetDiplomacyState 0 2 g' = Some 2 /\
  G_GetDiplomacyState 2 0 g' = Some 2 /\
  G_GetDiplomacyState 0 1 g' = G_GetDiplomacyState 0 1 gs0.
Proof.
  assert (Hle : gs_num_factions gs0 <= MAX_FACTIONS) by (vm_compute; discriminate).
  split; [exact table0_wf |]. split; [exact Hle |].
  destruct (diplomacy_set_then_get 0 2 2 gs0 table0_wf Hle) as [_ Hset].
  destruct (Hset (snd (G_SetDiplomacyState 0 2 2 gs0)) eq_refl) as (Hab & Hba & Hrest).
  split; [exact Hab |]. split; [exact Hba |].
  apply Hrest; discriminate.
Defined.

(** X22 on the sample world: the list has the three factions; a fourth
    is appended; updating faction 1 rewrites its row. *)
Lemma faction_list_witness :
  Z.of_nat (length (gs_factions gs0)) = MAX_FACTIONS /\
  G_GetFactions gs0
    = Some (["red"; "green"; "blue"]%string,
            [Vec3 1 0 0; Vec3 0 1 0; Vec3 0 0 1], [true; true; true], 3) /\
  G_GetFactions (snd (G_AddFaction "violet" (Vec3 1 0 1) gs0))
    = Some (["red"; "green"; "blue"; "violet"]%string,
            [Vec3 1 0 0; Vec3 0 1 0; Vec3 0 0 1; Vec3 1 0 1],
            [true; true; true; true], 4) /\
  G_UpdateFaction (-1) "teal" (Vec3 0 1 1) false gs0 = None.
Proof.
  assert (Hlen : Z.of_nat (length (gs_factions gs0)) = MAX_FACTIONS)
    by (vm_compute; reflexivity).
  assert (Hn : 0 <= gs_num_factions gs0 <= MAX_FACTIONS)
    by (vm_compute; split; discriminate).
  split; [exact Hlen |].
  destruct (faction_list_follows_the_calls gs0 Hlen Hn)
    as (Hget & Hadd & _ & Hneg & _).
  split; [exact Hget |].
  split.
  - exact (Hadd "violet"%string (Vec3 1 0 1)
             (snd (G_AddFaction "violet" (Vec3 1 0 1) gs0)) eq_refl).
  - apply Hneg; vm_compute; reflexivity.
Defined.

(** ** Pausing, resetting, rendering *)

(** X23 on the sample world: pausing at tick 0 and resuming at tick 600
    moves the frame timer of entity 7 by 600 ticks, so that no time has
    passed for its animation. *)
Lemma pause_resume_witness :
  registry_exact gs0 heap0 /\
  exists h2 : gmap Z entity,
    G_SetSimState 2 gs0 0 heap0 [] 0
      = Some (with_ss gs0 2, 0, heap0,
              [Ev EVENT_GAME_SIMSTATE_CHANGED 2 ES_ENGINE GLOBAL_ID], 1%nat) /\
    h2 !! 100 = Some (set_anim_ctx ent7 (MkCtx 0 0 ANIM_MODE_LOOP 2 0 600)) /\
    h2 !! 103 = None.
Proof.
  split; [exact sample_registry_exact |].
  assert (Hss : gs_ss gs0 = G_RUNNING) by reflexivity.
  assert (Hne : 2 <> G_RUNNING) by (vm_compute; discriminate).
  destruct (pause_and_resume_cost_no_time 2 gs0 0 heap0 [] 0%nat
              sample_registry_exact Hss Hne)
    as (h2 & Hpause & _ & Hmoved & Hkept).
  exists h2. split; [exact Hpause |]. split.
  - exact (proj1 (Hmoved 7 100 ent7 eq_refl eq_refl)).
  - rewrite Hkept; [reflexivity |].
    intros k Hk. destruct (proj1 sample_registry_exact k 103 Hk) as (e & He & _).
    vm_compute in He. discriminate He.
Defined.

Lemma heap1_registry_exact : registry_exact gs_settled heap1.
Proof. exact (registry_exact_alloc gs0 heap0 103 ent10 sample_registry_exact eq_refl). Qed.

(** X24 on the sample world with entity 10 awaiting its free: after the
    reset and the swap no entity is left on the heap. *)
Lemma reset_witness :
  registry_exact gs_settled heap1 /\
  gs_active (g_reset gs_settled) = ∅ /\
  gs_num_factions (g_reset gs_settled) = 0 /\
  exists g' h',
    G_SwapBuffers (g_reset gs_settled) heap1 = Some (g', h') /\
    gs_deleted g' = [] /\
    h' !! 100 = None /\ h' !! 101 = None /\ h' !! 102 = None /\ h' !! 103 = None.
Proof.
  split; [exact heap1_registry_exact |].
  assert (Hws : ws_ok gs_settled) by (split; [by left | reflexivity]).
  assert (Hnd : NoDup (gs_deleted gs_settled)) by apply NoDup_singleton.
  assert (Hdel : forall p, p ∈ gs_deleted gs_settled ->
                   is_Some (heap1 !! p) /\
                   forall k, gs_active gs_settled !! k <> Some p).
  { intros p Hp. apply list_elem_of_singleton in Hp as ->.
    split; [by exists ent10 |].
    intros k Hk. destruct (proj1 sample_registry_exact k 103 Hk) as (e & He & _).
    vm_compute in He. discriminate He. }
  assert (Hdrained : forall w, ws_at gs_settled (G_GetRenderWS gs_settled) = Some w ->
                       ws_commands w = []).
  { intros w Hw. vm_compute in Hw. injection Hw as <-. reflexivity. }
  destruct (reset_frees_every_entity_at_swap gs_settled heap1 heap1_registry_exact
              Hws Hnd Hdel Hdrained)
    as (Hact & _ & _ & _ & Hfac & _ & Hlist & g' & h' & Hswap & _ & Hempty & Hfreed).
  split; [exact Hact |]. split; [exact Hfac |].
  exists g', h'. split; [exact Hswap |]. split; [exact Hempty |].
  assert (Hgone : forall p, (p ∈ gs_deleted gs_settled \/
                             exists k, gs_active gs_settled !! k = Some p) ->
                    h' !! p = None).
  { intros p Hp. rewrite Hfreed. apply Hlist in Hp.
    destruct (decide (p ∈ gs_deleted (g_reset gs_settled))); [reflexivity | contradiction]. }
  split; [apply Hgone; right; by exists 7 |].
  split; [apply Hgone; right; by exists 8 |].
  split; [apply Hgone; right; by exists 9 |].
  apply Hgone. left. apply list_elem_of_here.
Defined.

(** X25 on the sample world: the render input is produced with three
    units of fuel for the joint walks; the shadow setting is copied. *)
Lemma render_input_produced_witness :
  Forall (drawable 3 heap0) (gs_visible gs0) /\
  exists out,
    g_create_render_input 3 gs0 heap0 = Ret out /\
    ri_shadows out = true /\
    (length (cam_vis_stat out) + length (cam_vis_anim out))%nat = 2%nat.
Proof.
  assert (H7 : drawable 3 heap0 100).
  { exists ent7. split; [reflexivity |]. intros _. eexists. vm_compute. reflexivity. }
  assert (H9 : drawable 3 heap0 102).
  { exists ent9. split; [reflexivity |]. intros Hanim. vm_compute in Hanim.
    discriminate Hanim. }
  assert (Hcam : Forall (drawable 3 heap0) (gs_visible gs0))
    by (repeat constructor; assumption).
  assert (Hlight : Forall (drawable 3 heap0) (gs_light_visible gs0))
    by (repeat constructor; assumption).
  assert (Hset : shadows_enabled_setting = Some true) by reflexivity.
  split; [exact Hcam |].
  destruct (render_input_is_always_produced 3 gs0 heap0 true Hset Hcam Hlight)
    as (out & Hrun & Hsh & _ & _ & Hn & _).
  exists out. split; [exact Hrun |]. split; [exact Hsh | exact Hn].
Defined.

(** ** Scenes *)


End Witness.

(** * Rounding *)

Module Rounding.
Import Anim Binary32.

(** C6 in the engine's arithmetic, on the chain scaling by 1/3, 1/3 and
    1/9: the pose matrix of joint 2 is the product of the three local
    transforms nested from the joint upwards, and its factors are those
    of the pose matrix of joint 1 followed by the local transform of
    joint 2. *)
Lemma pose_product_witness :
  exists m k,
    a_make_pose_mat 3 ent_thirds 2 chain3_thirds = Ret (m, k) /\
    k = 3%nat /\
    m = PFM_Mat4x4_Mult4x4 (a_mat_from_sqt (scaled (frac 1 3)))
          (PFM_Mat4x4_Mult4x4 (a_mat_from_sqt (scaled (frac 1 3)))
             (PFM_Mat4x4_Mult4x4 (a_mat_from_sqt (scaled (frac 1 9)))
                PFM_Mat4x4_Identity)) /\
    exists parent_pose,
      a_make_pose_mat 3 ent_thirds 1 chain3_thirds = Ret (parent_pose, 2%nat) /\
      parent_pose =
        PFM_Mat4x4_Mult4x4 (a_mat_from_sqt (scaled (frac 1 3)))
          (PFM_Mat4x4_Mult4x4 (a_mat_from_sqt (scaled (frac 1 3)))
             PFM_Mat4x4_Identity).
Proof.
  assert (Hret : match a_make_pose_mat 3 ent_thirds 2 chain3_thirds with
                 | Ret (_, k) => Nat.eqb k 3
                 | _ => false
                 end = true) by (vm_compute; reflexivity).
  destruct (a_make_pose_mat 3 ent_thirds 2 chain3_thirds) as [[m k]| |] eqn:Hrun;
    try discriminate Hret.
  apply Nat.eqb_eq in Hret. subst k.
  destruct (pose_matrix_is_chain_product ent_thirds chain3_thirds (MkSample thirds)
              3 2 (MkJoint 1) (scaled (frac 1 9)) m 3 eq_refl eq_refl eq_refl Hrun)
    as (_ & _ & Hm & parent_pose & k' & Hparent & Hk & Hpp & _).
  injection Hk as <-.
  exists m, 3%nat. split; [reflexivity |]. split; [reflexivity |].
  split; [exact Hm |].
  exists parent_pose. split; [exact Hparent | exact Hpp].
Defined.

(** C6 as stated fails in the engine's arithmetic: on the same chain the
    pose matrix of joint 2 is not the pose matrix of joint 1 times the
    local transform of joint 2. The x scales of the two products are
    13256072 * 2^-30 and 13256073 * 2^-30: the walk computes
    1/3 * (1/3 * 1/9), the recursive law asks for (1/3 * 1/3) * 1/9, and
    rounded multiplication is not associative. *)
Lemma pose_law_fails_in_binary32 :
  exists pose2 pose1 k2 k1,
    a_make_pose_mat 3 ent_thirds 2 chain3_thirds = Ret (pose2, k2) /\
    a_make_pose_mat 3 ent_thirds 1 chain3_thirds = Ret (pose1, k1) /\
    m00 pose2 = S754_finite false 13256072 (-30) /\
    m00 (PFM_Mat4x4_Mult4x4 pose1 (a_mat_from_sqt (scaled (frac 1 9))))
      = S754_finite false 13256073 (-30) /\
    pose2 <> PFM_Mat4x4_Mult4x4 pose1 (a_mat_from_sqt (scaled (frac 1 9))).
Proof.
  assert (Hret : match a_make_pose_mat 3 ent_thirds 2 chain3_thirds,
                       a_make_pose_mat 3 ent_thirds 1 chain3_thirds with
                 | Ret (pose2, _), Ret (pose1, _) =>
                   match m00 pose2,
                         m00 (PFM_Mat4x4_Mult4x4 pose1
                                (a_mat_from_sqt (scaled (frac 1 9)))) with
                   | S754_finite false a ea, S754_finite false b eb =>
                     Pos.eqb a 13256072 && Z.eqb ea (-30)
                     && Pos.eqb b 13256073 && Z.eqb eb (-30)
                   | _, _ => false
                   end
                 | _, _ => false
                 end = true) by (vm_compute; reflexivity).
  destruct (a_make_pose_mat 3 ent_thirds 2 chain3_thirds) as [[pose2 k2]| |];
    try discriminate Hret.
  destruct (a_make_pose_mat 3 ent_thirds 1 chain3_thirds) as [[pose1 k1]| |];
    try discriminate Hret.
  exists pose2, pose1, k2, k1. split; [reflexivity |]. split; [reflexivity |].
  destruct (m00 pose2) as [| | | [] a ea] eqn:Hwalk; try discriminate Hret.
  destruct (m00 (PFM_Mat4x4_Mult4x4 pose1 (a_mat_from_sqt (scaled (frac 1 9)))))
    as [| | | [] b eb] eqn:Hlaw; try discriminate Hret.
  repeat (apply andb_true_iff in Hret as [Hret ?]).
  apply Pos.eqb_eq in Hret.
  repeat match goal with
  | Hb : Pos.eqb _ _ = true |- _ => apply Pos.eqb_eq in Hb
  | Hb : Z.eqb _ _ = true |- _ => apply Z.eqb_eq in Hb
  end.
  subst. split; [reflexivity |]. split; [reflexivity |].
  intros Heq. apply (f_equal m00) in Heq. rewrite Hwalk, Hlaw in Heq.
  discriminate Heq.
Qed.

End Rounding.
